(** * computer-use: the sampling loop, the tool collection, the tool-result
      assembler and the image filter

    Shallow embedding of [src/tools/base.ts] (ToolResult, ToolFailure,
    ToolError, ToolCollection) and of the class [SamplingLoop] of
    [src/loop.ts] (run, makeApiToolResult, maybePrependSystemToolResult,
    filterNMostRecentImages), followed by the properties of the
    specification that concern them. *)

From Stdlib Require Import ZArith String Ascii List Bool Lia.
From stdpp Require Import base option list gmap strings pretty.

Set Default Proof Using "Type".

(* ===================================================================== *)
(** ** Data model *)
(* ===================================================================== *)

(** Tool inputs are JSON objects ([Record<string, any>]); the loop only
    passes them on. *)
#[local] Unset Elimination Schemes.
Inductive Json : Type :=
  | JNull
  | JBool (b : bool)
  | JNum (n : Z)
  | JStr (s : string)
  | JArr (items : list Json)
  | JObj (fields : list (string * Json)).
#[local] Set Elimination Schemes.

(** [interface ToolResult] of base.ts.  A field that is [undefined] or
    [null] is [None]. *)
Record ToolResult : Type := mkToolResult {
  output : option string;
  error : option string;
  base64Image : option string;
  system : option string;
  mediaType : option string
}.

(** JavaScript truthiness of a [string | null | undefined]: the conditions
    [if (result.error)], [if (result.output)], [if (result.base64Image)]
    and [if (result.system)] hold for a string that is present and not
    empty. *)
Definition truthy (s : option string) : bool :=
  match s with
  | Some s => negb (String.eqb s EmptyString)
  | None => false
  end.

(** [a || b] on such a value. *)
Definition js_or (s : option string) (default : string) : string :=
  match s with
  | Some x => if String.eqb x EmptyString then default else x
  | None => default
  end.

(** [new ToolFailure(error)]: only the error field is set. *)
Definition ToolFailure (message : string) : ToolResult :=
  {| output := None; error := Some message; base64Image := None;
     system := None; mediaType := None |}.

(** What a tool's [execute] can reject with: a [ToolError] carrying its
    message, or any other value, of which the code only uses the string
    that the template [`${err}`] renders.  A value for which this template
    throws instead (a Symbol, an object that cannot be converted to a
    string) has no place in this type: the dispatch and the loop for tools
    that reject with such values are in the module [AnyThrown]. *)
Inductive Thrown : Type :=
  | ToolError (message : string)
  | OtherError (rendered : string).

(** The items of a [tool_result] content array. *)
Inductive ResultItem : Type :=
  | TextItem (text : string)
  | ImageItem (media_type data : string).

(** [content] of a tool_result block: absent, a string or an array. *)
Inductive ResultContent : Type :=
  | ContentAbsent
  | ContentString (s : string)
  | ContentArray (items : list ResultItem).

Record BetaToolResultBlockParam : Type := mkToolResultBlock {
  tool_use_id : string;
  content : ResultContent;
  is_error : option bool
}.

Inductive ContentBlock : Type :=
  | TextBlock (text : string)
  | ImageBlock (media_type data : string)
  | ToolUseBlock (id name : string) (input : Json)
  | ToolResultBlock (result : BetaToolResultBlockParam).

Inductive Role : Type := user | assistant.

(** [content] of a message: a string or an array of blocks. *)
Inductive MessageContent : Type :=
  | Str (s : string)
  | Blocks (blocks : list ContentBlock).

Record BetaMessageParam : Type := mkMessage {
  role : Role;
  message_content : MessageContent
}.

(** The value of a field after its truthiness test succeeded. *)
Definition field (s : option string) : string := default EmptyString s.

Definition newline : string := String (ascii_of_nat 10) EmptyString.

(* ===================================================================== *)
(** ** SamplingLoop.maybePrependSystemToolResult, makeApiToolResult *)
(* ===================================================================== *)

Definition maybePrependSystemToolResult (result : ToolResult) (text : string)
  : string :=
  if truthy (system result)
  then "<system>" +:+ field (system result) +:+ "</system>" +:+ newline +:+ text
  else text.

Definition makeApiToolResult (result : ToolResult) (toolUseId : string)
  : BetaToolResultBlockParam :=
  if truthy (error result) then
    {| tool_use_id := toolUseId;
       content := ContentArray
         [TextItem (maybePrependSystemToolResult result (field (error result)))];
       is_error := Some true |}
  else
    let content0 :=
      if truthy (output result)
      then [TextItem (maybePrependSystemToolResult result (field (output result)))]
      else [] in
    let content1 :=
      if truthy (base64Image result)
      then content0 ++
           [ImageItem (js_or (mediaType result) "image/png")
                      (field (base64Image result))]
      else content0 in
    {| tool_use_id := toolUseId;
       content := ContentArray content1;
       is_error := Some false |}.

(* ===================================================================== *)
(** ** SamplingLoop.filterNMostRecentImages *)
(* ===================================================================== *)

Definition is_image (item : ResultItem) : bool :=
  match item with
  | ImageItem _ _ => true
  | TextItem _ => false
  end.

Definition is_tool_result (b : ContentBlock) : option BetaToolResultBlockParam :=
  match b with
  | ToolResultBlock r => Some r
  | _ => None
  end.

(** [Array.isArray(message.content) ? message.content : []] *)
Definition content_blocks (m : BetaMessageParam) : list ContentBlock :=
  match message_content m with
  | Blocks bs => bs
  | Str _ => []
  end.

(** [Array.isArray(result.content) ? result.content : []] *)
Definition content_items (r : BetaToolResultBlockParam) : list ResultItem :=
  match content r with
  | ContentArray items => items
  | _ => []
  end.

(** [messages.flatMap(...).filter(item => item.type === 'tool_result')] *)
Definition toolResultBlocks (messages : list BetaMessageParam)
  : list BetaToolResultBlockParam :=
  omap is_tool_result (flat_map content_blocks messages).

(** [toolResultBlocks.reduce((count, result) => count + ...length, 0)] *)
Definition totalImages (messages : list BetaMessageParam) : Z :=
  fold_left
    (fun count result =>
       (count + Z.of_nat (length (List.filter is_image (content_items result))))%Z)
    (toolResultBlocks messages) 0%Z.

(** The remainder operator [%] of JavaScript on integers: the sign follows
    the dividend, and a zero divisor gives NaN ([None]). *)
Definition js_rem (a b : Z) : option Z :=
  if (b =? 0)%Z then None else Some (Z.rem a b).

(** [result.content.filter(item => ...)] with the counter [imagesToRemove]
    that the callback decrements; the counter left over is returned. *)
Fixpoint filter_content (imagesToRemove : Z) (items : list ResultItem)
  : list ResultItem * Z :=
  match items with
  | [] => ([], imagesToRemove)
  | item :: rest =>
      if is_image item && (0 <? imagesToRemove)%Z then
        filter_content (imagesToRemove - 1) rest
      else
        let '(kept, n) := filter_content imagesToRemove rest in
        (item :: kept, n)
  end.

(** One step of [for (const result of toolResultBlocks)] on a block of the
    conversation: only a tool_result whose content is an array is
    rewritten. *)
Definition filter_block (imagesToRemove : Z) (b : ContentBlock)
  : ContentBlock * Z :=
  match b with
  | ToolResultBlock r =>
      match content r with
      | ContentArray items =>
          let '(newContent, n) := filter_content imagesToRemove items in
          (ToolResultBlock {| tool_use_id := tool_use_id r;
                              content := ContentArray newContent;
                              is_error := is_error r |}, n)
      | _ => (b, imagesToRemove)
      end
  | _ => (b, imagesToRemove)
  end.

(** A walk in order that threads the counter. *)
Fixpoint walk {A : Type} (f : Z -> A -> A * Z) (n : Z) (l : list A)
  : list A * Z :=
  match l with
  | [] => ([], n)
  | x :: rest =>
      let '(x', n1) := f n x in
      let '(rest', n2) := walk f n1 rest in
      (x' :: rest', n2)
  end.

Definition filter_message (imagesToRemove : Z) (m : BetaMessageParam)
  : BetaMessageParam * Z :=
  match message_content m with
  | Blocks bs =>
      let '(bs', n) := walk filter_block imagesToRemove bs in
      ({| role := role m; message_content := Blocks bs' |}, n)
  | Str _ => (m, imagesToRemove)
  end.

(** The conversation after [filterNMostRecentImages(messages, imagesToKeep,
    minRemovalThreshold)] has mutated its tool_result blocks.  The blocks
    are visited in the order of [toolResultBlocks], which is the order of
    the conversation; a conversation is a value here, so that no
    tool_result object occurs at two of its places.  With a zero threshold [imagesToRemove] is NaN: both
    [NaN <= 0] and [NaN > 0] are false, so the walk runs and keeps every
    item. *)
Definition filterNMostRecentImages (messages : list BetaMessageParam)
    (imagesToKeep minRemovalThreshold : Z) : list BetaMessageParam :=
  let excess := (totalImages messages - imagesToKeep)%Z in
  match js_rem excess minRemovalThreshold with
  | None => messages
  | Some r =>
      let imagesToRemove := (excess - r)%Z in
      if (imagesToRemove <=? 0)%Z then messages
      else fst (walk filter_message imagesToRemove messages)
  end.

(* ===================================================================== *)
(** ** tools/base.ts: tools and the ToolCollection *)
(* ===================================================================== *)

(** The promise returned by [execute], once settled. *)
Inductive Settled : Type :=
  | Resolved (result : ToolResult)
  | Rejected (err : Thrown).

(** [toParams()]: the loop reads the name; the rest is passed on. *)
Record ToolParams : Type := mkToolParams {
  name : string;
  shape : Json
}.

(** [abstract class BaseAnthropicTool].  A tool acts on an environment of
    type [W] (screen, pointer, files, processes), which the loop never
    inspects. *)
Record BaseAnthropicTool (W : Type) : Type := mkTool {
  toParams : ToolParams;
  execute : Json -> W -> Settled * W
}.
Arguments mkTool {W}.
Arguments toParams {W}.
Arguments execute {W}.

(** [class ToolCollection]: its constructor fills [toolMap] in the order of
    the list, a later tool replacing an earlier one of the same name. *)
Record ToolCollection (W : Type) : Type := mkToolCollection {
  toolMap : gmap string (BaseAnthropicTool W)
}.
Arguments mkToolCollection {W}.
Arguments toolMap {W}.

Definition ToolCollection_new {W : Type} (tools : list (BaseAnthropicTool W))
  : ToolCollection W :=
  {| toolMap :=
       fold_left (fun m tool => <[name (toParams tool) := tool]> m) tools ∅ |}.

(* ===================================================================== *)
(** ** The state the loop runs in *)
(* ===================================================================== *)

(** What the reasoning service answers to one call of
    [client.beta.messages.create]: the content of a response, or a
    failure of the call. *)
Inductive ApiOutcome : Type :=
  | ApiOk (content : list ContentBlock)
  | ApiFail (rendered : string).

(** What can be observed of a run from outside: the conversation sent with
    each call of the service, and the calls of the three callbacks of the
    options, which are taken to return. *)
Inductive Event : Type :=
  | EvCreate (sent : list BetaMessageParam)
  | EvApiResponse (content : list ContentBlock)
  | EvOutput (block : ContentBlock)
  | EvToolOutput (result : ToolResult) (toolId : string).

(** A message array is an object: [arrays] gives the elements of the
    array at each reference.  [api_calls] counts the calls made to the
    service so far. *)
Definition ref : Type := nat.

Record State (W : Type) : Type := mkState {
  arrays : ref -> list BetaMessageParam;
  world : W;
  api_calls : nat;
  trace : list Event
}.
Arguments mkState {W}.
Arguments arrays {W}.
Arguments world {W}.
Arguments api_calls {W}.
Arguments trace {W}.

(** How a computation ends: with a value, with an exception, or not
    within the number of loop iterations allowed to the model. *)
Inductive Completion (A : Type) : Type :=
  | Normal (a : A)
  | Abrupt (err : Thrown)
  | Unfinished.
Arguments Normal {A}.
Arguments Abrupt {A}.
Arguments Unfinished {A}.

Definition M (W A : Type) : Type := State W -> Completion A * State W.

Definition ret {W A : Type} (a : A) : M W A := fun st => (Normal a, st).

Definition bind {W A B : Type} (c : M W A) (k : A -> M W B) : M W B :=
  fun st =>
    match c st with
    | (Normal a, st') => k a st'
    | (Abrupt err, st') => (Abrupt err, st')
    | (Unfinished, st') => (Unfinished, st')
    end.

(** [try { c } catch (err) { handler(err) }] *)
Definition try_catch {W A : Type} (c : M W A) (handler : Thrown -> M W A)
  : M W A :=
  fun st =>
    match c st with
    | (Abrupt err, st') => handler err st'
    | r => r
    end.

Declare Scope loop_scope.
Delimit Scope loop_scope with loop.
Notation "'let*' x ':=' c 'in' k" := (bind c (fun x => k))
  (at level 10, x name, c at level 100, k at level 200) : loop_scope.
Notation "c ';;' k" := (bind c (fun _ => k))
  (at level 100, k at level 200, right associativity) : loop_scope.
Local Open Scope loop_scope.

Section SamplingLoop.
Context {W : Type}.

Definition emit (e : Event) : M W unit := fun st =>
  (Normal tt,
   {| arrays := arrays st; world := world st; api_calls := api_calls st;
      trace := trace st ++ [e] |}).

(** [messages.push(m)] *)
Definition push (messages : ref) (m : BetaMessageParam) : M W unit :=
  fun st =>
    (Normal tt,
     {| arrays := fun r => if Nat.eqb r messages
                           then arrays st messages ++ [m] else arrays st r;
        world := world st; api_calls := api_calls st; trace := trace st |}).

(** An in-place rewriting of the elements of an array. *)
Definition rewrite_array (messages : ref)
    (f : list BetaMessageParam -> list BetaMessageParam) : M W unit :=
  fun st =>
    (Normal tt,
     {| arrays := fun r => if Nat.eqb r messages
                           then f (arrays st messages) else arrays st r;
        world := world st; api_calls := api_calls st; trace := trace st |}).

(** [await tool.execute(toolInput)] *)
Definition await_execute (tool : BaseAnthropicTool W) (toolInput : Json)
  : M W ToolResult :=
  fun st =>
    let '(settled, w) := execute tool toolInput (world st) in
    let st' := {| arrays := arrays st; world := w;
                  api_calls := api_calls st; trace := trace st |} in
    match settled with
    | Resolved result => (Normal result, st')
    | Rejected err => (Abrupt err, st')
    end.

(** [ToolCollection.run(name, toolInput)] *)
Definition ToolCollection_run (this : ToolCollection W) (name : string)
    (toolInput : Json) : M W ToolResult :=
  match toolMap this !! name with
  | None => ret (ToolFailure ("Tool " +:+ name +:+ " is invalid"))
  | Some tool =>
      try_catch (await_execute tool toolInput)
        (fun err =>
           match err with
           | ToolError message => ret (ToolFailure message)
           | OtherError rendered =>
               ret (ToolFailure ("Unknown error: " +:+ rendered))
           end)
  end.

(** [class SamplingLoop]: its tool collection, and its client, given by
    the outcome of the service's calls in the order they are made. *)
Record SamplingLoop : Type := mkSamplingLoop {
  toolCollection : ToolCollection W;
  client : nat -> ApiOutcome
}.

(** The options of [run] that the loop's control depends on.  The three
    callbacks are the events [EvApiResponse], [EvOutput] and
    [EvToolOutput]. *)
Record SamplingLoopOptions : Type := mkOptions {
  messages : ref;
  onlyNMostRecentImages : option Z
}.

(** [await this.client.beta.messages.create({ messages, ... })] *)
Definition messages_create (this : SamplingLoop) (messages : ref)
  : M W (list ContentBlock) :=
  fun st =>
    let st' := {| arrays := arrays st; world := world st;
                  api_calls := S (api_calls st);
                  trace := trace st ++ [EvCreate (arrays st messages)] |} in
    match client this (api_calls st) with
    | ApiOk content => (Normal content, st')
    | ApiFail rendered => (Abrupt (OtherError rendered), st')
    end.

(** [for (const block of response.content) { ... }], with the array
    [toolResultContent] built so far. *)
Fixpoint for_blocks (this : SamplingLoop) (blocks : list ContentBlock)
    (toolResultContent : list BetaToolResultBlockParam)
  : M W (list BetaToolResultBlockParam) :=
  match blocks with
  | [] => ret toolResultContent
  | block :: rest =>
      emit (EvOutput block) ;;
      let* toolResultContent' :=
        match block with
        | ToolUseBlock id name input =>
            let* result := ToolCollection_run (toolCollection this) name input in
            let toolResult := makeApiToolResult result id in
            let extended := toolResultContent ++ [toolResult] in
            emit (EvToolOutput result id) ;;
            ret extended
        | _ => ret toolResultContent
        end in
      for_blocks this rest toolResultContent'
  end.

(** [while (true) { ... }], for at most [fuel] iterations. *)
Fixpoint while_true (fuel : nat) (this : SamplingLoop) (messages : ref)
  : M W ref :=
  match fuel with
  | O => fun st => (Unfinished, st)
  | S fuel' =>
      let* response := messages_create this messages in
      emit (EvApiResponse response) ;;
      push messages {| role := assistant; message_content := Blocks response |} ;;
      let* toolResultContent := for_blocks this response [] in
      if Nat.eqb (length toolResultContent) 0 then ret messages
      else
        push messages
          {| role := user;
             message_content := Blocks (map ToolResultBlock toolResultContent) |} ;;
        while_true fuel' this messages
  end.

(** [if (onlyNMostRecentImages)]: a number that is set and not zero. *)
Definition number_truthy (n : option Z) : bool :=
  match n with
  | Some z => negb (z =? 0)%Z
  | None => false
  end.

(** [SamplingLoop.run(options)].  The filter is called without its third
    argument, whose default is 10. *)
Definition run (this : SamplingLoop) (options : SamplingLoopOptions)
    (fuel : nat) : M W ref :=
  (if number_truthy (onlyNMostRecentImages options)
   then rewrite_array (messages options)
          (fun l => filterNMostRecentImages l
                      (default 0%Z (onlyNMostRecentImages options)) 10)
   else ret tt) ;;
  while_true fuel this (messages options).

End SamplingLoop.
Arguments SamplingLoop : clear implicits.

(* ===================================================================== *)
(** ** Notions used to state the properties *)
(* ===================================================================== *)

(** The images of a conversation that the filter counts, in the order of
    the conversation: those of the content arrays of its tool_result
    blocks. *)
Definition block_images (b : ContentBlock) : list ResultItem :=
  match is_tool_result b with
  | Some r => List.filter is_image (content_items r)
  | None => []
  end.

Definition message_images (m : BetaMessageParam) : list ResultItem :=
  flat_map block_images (content_blocks m).

Definition all_images (messages : list BetaMessageParam) : list ResultItem :=
  flat_map message_images messages.

(** The number of images that one call of the filter removes. *)
Definition removed_by_filter (messages : list BetaMessageParam)
    (keep minRemovalBatch : Z) : Z :=
  totalImages messages
  - totalImages (filterNMostRecentImages messages keep minRemovalBatch).

(** [items'] is [items] with some of its images deleted, the rest being
    left as it was and in its order. *)
Inductive items_trimmed : list ResultItem -> list ResultItem -> Prop :=
  | trimmed_nil : items_trimmed [] []
  | trimmed_keep item items items' :
      items_trimmed items items' ->
      items_trimmed (item :: items) (item :: items')
  | trimmed_delete media_type data items items' :
      items_trimmed items items' ->
      items_trimmed (ImageItem media_type data :: items) items'.

(** The same, for a block: only the content array of a tool_result may
    differ, and only by deleted images. *)
Definition block_trimmed (b b' : ContentBlock) : Prop :=
  match b, b' with
  | ToolResultBlock r, ToolResultBlock r' =>
      tool_use_id r = tool_use_id r' /\ is_error r = is_error r' /\
      match content r, content r' with
      | ContentArray items, ContentArray items' => items_trimmed items items'
      | c, c' => c = c'
      end
  | _, _ => b = b'
  end.

Definition message_trimmed (m m' : BetaMessageParam) : Prop :=
  role m = role m' /\
  match message_content m, message_content m' with
  | Blocks bs, Blocks bs' => Forall2 block_trimmed bs bs'
  | c, c' => c = c'
  end.

(** Message by message, [messages'] is [messages] with some images of its
    tool_result blocks deleted: no message is removed, added, reordered or
    changed in any other way. *)
Definition conversation_trimmed (messages messages' : list BetaMessageParam)
  : Prop :=
  Forall2 message_trimmed messages messages'.

(** The ids of the tool_use blocks of a response, in order. *)
Definition tool_use_ids (blocks : list ContentBlock) : list string :=
  omap (fun b => match b with
                 | ToolUseBlock id _ _ => Some id
                 | _ => None
                 end) blocks.

(** The user message [u] answers the assistant message [a]: [a] holds at
    least one tool_use block, and [u] holds one tool_result for each of
    them and nothing else, the k-th result carrying the id of the k-th
    request. *)
Definition answers (a u : BetaMessageParam) : Prop :=
  exists blocks results,
    a = {| role := assistant; message_content := Blocks blocks |} /\
    u = {| role := user;
           message_content := Blocks (map ToolResultBlock results) |} /\
    tool_use_ids blocks <> [] /\
    map tool_use_id results = tool_use_ids blocks.

(** A sequence of turns, each an assistant message followed by the user
    message that answers it. *)
Inductive answered_turns : list BetaMessageParam -> Prop :=
  | answered_nil : answered_turns []
  | answered_cons a u turns :
      answers a u -> answered_turns turns ->
      answered_turns (a :: u :: turns).

(** The conversations sent to the service, in the order of the calls. *)
Definition sent_conversations (events : list Event)
  : list (list BetaMessageParam) :=
  omap (fun e => match e with
                 | EvCreate sent => Some sent
                 | _ => None
                 end) events.

(** A response asks for at least one tool, or for none. *)
Definition requests_tools (o : ApiOutcome) : bool :=
  match o with
  | ApiOk content => negb (Nat.eqb (length (tool_use_ids content)) 0)
  | ApiFail _ => false
  end.

Definition requests_nothing (o : ApiOutcome) : bool :=
  match o with
  | ApiOk content => Nat.eqb (length (tool_use_ids content)) 0
  | ApiFail _ => false
  end.

(** The text items of an assembled tool_result. *)
Definition text_items (r : BetaToolResultBlockParam) : list string :=
  omap (fun i => match i with TextItem t => Some t | _ => None end)
       (content_items r).

(** A step [g] of the filter's walk deletes the first [n] of the images
    [im x] of its argument (all of them when there are fewer) and hands on
    what is left of the counter. *)
Definition deletes_oldest {B I : Type} (im : B -> list I)
    (g : Z -> B -> B * Z) : Prop :=
  forall n x, (0 <= n)%Z ->
    im (fst (g n x)) = drop (Z.to_nat n) (im x) /\
    snd (g n x) = Z.max 0 (n - Z.of_nat (length (im x))).

(** A step [g] returns an argument without images as it is. *)
Definition leaves_imageless {B I : Type} (im : B -> list I)
    (g : Z -> B -> B * Z) : Prop :=
  forall n x, im x = [] -> g n x = (x, n).

(** The number of images the filter sets out to delete: the excess over
    [keep], rounded towards zero to a multiple of the batch, when that is
    positive. *)
Definition removal_target (total keep minRemovalBatch : Z) : Z :=
  match js_rem (total - keep) minRemovalBatch with
  | None => 0
  | Some r => Z.max 0 (total - keep - r)
  end.

(** Two states that differ at most in the environment of the tools. *)
Definition same_but_world {W : Type} (st st' : State W) : Prop :=
  arrays st' = arrays st /\ api_calls st' = api_calls st /\
  trace st' = trace st.

(** The state after [messages.push(m)]. *)
Definition pushed {W : Type} (messages : ref) (m : BetaMessageParam)
    (st : State W) : State W :=
  snd (push messages m st).

Definition assistant_message (response : list ContentBlock)
  : BetaMessageParam :=
  {| role := assistant; message_content := Blocks response |}.

Definition results_message (results : list BetaToolResultBlockParam)
  : BetaMessageParam :=
  {| role := user; message_content := Blocks (map ToolResultBlock results) |}.

(** The state in which [run] enters its loop: the array of the
    conversation has been filtered if the option is set. *)
Definition entry_state {W : Type} (options : SamplingLoopOptions)
    (st : State W) : State W :=
  if number_truthy (onlyNMostRecentImages options)
  then snd (rewrite_array (messages options)
              (fun l => filterNMostRecentImages l
                          (default 0%Z (onlyNMostRecentImages options)) 10) st)
  else st.

(** The roles of [k] turns: assistant, user, assistant, user, ... *)
Definition turn_roles (k : nat) : list Role :=
  concat (repeat [assistant; user] k).

(** The bound on one call of the filter in its literal form, with the
    number of removed images compared with the excess itself. *)
Definition trimmer_bound_literal (messages : list BetaMessageParam)
    (keep minRemovalBatch : Z) : Prop :=
  let removed := removed_by_filter messages keep minRemovalBatch in
  (0 <= removed)%Z /\ (minRemovalBatch | removed)%Z /\
  (removed <= totalImages messages - keep)%Z.

(* ===================================================================== *)
(** ** Sample data *)
(* ===================================================================== *)

Definition screenshot (k : nat) : ResultItem :=
  ImageItem "image/png" (String (ascii_of_nat (65 + k)) EmptyString).

Definition screenshots (from count : nat) : list ResultItem :=
  map screenshot (seq from count).

(** A user message with one tool_result holding a text and [count]
    screenshots numbered from [from]. *)
Definition result_message (id : string) (from count : nat)
  : BetaMessageParam :=
  {| role := user;
     message_content := Blocks
       [ToolResultBlock
          {| tool_use_id := id;
             content := ContentArray (TextItem "done" :: screenshots from count);
             is_error := Some false |}] |}.

Definition request_message (id : string) : BetaMessageParam :=
  {| role := assistant;
     message_content := Blocks
       [TextBlock "next"; ToolUseBlock id "computer" (JObj [])] |}.

Definition opening : BetaMessageParam :=
  {| role := user; message_content := Str "Take screenshots" |}.

(** 5 images, in two results. *)
Definition conversation5 : list BetaMessageParam :=
  [opening; request_message "a"; result_message "a" 0 3;
   request_message "b"; result_message "b" 3 2].

(** 25 images, in three results. *)
Definition conversation25 : list BetaMessageParam :=
  [opening; request_message "a"; result_message "a" 0 7;
   request_message "b"; result_message "b" 7 8;
   request_message "c"; result_message "c" 15 10].

(** Sample tools acting on a counter of executions. *)
Definition json_text (input : Json) : option string :=
  match input with
  | JObj fields =>
      match List.find (fun kv => String.eqb (fst kv) "text") fields with
      | Some (_, JStr s) => Some s
      | _ => None
      end
  | _ => None
  end.

Definition no_result : ToolResult :=
  {| output := None; error := None; base64Image := None; system := None;
     mediaType := None |}.

(** Returns its input text as output. *)
Definition echo : BaseAnthropicTool nat :=
  {| toParams := {| name := "echo"; shape := JNull |};
     execute := fun input w =>
       (Resolved {| output := json_text input; error := None;
                    base64Image := None; system := None; mediaType := None |},
        S w) |}.

(** Returns a screenshot. *)
Definition camera : BaseAnthropicTool nat :=
  {| toParams := {| name := "camera"; shape := JNull |};
     execute := fun _ w =>
       (Resolved {| output := None; error := None;
                    base64Image := Some "iVBORw0KGgo="; system := None;
                    mediaType := Some "image/jpeg" |},
        S w) |}.

(** Rejects with a ToolError when its input has no text. *)
Definition strict : BaseAnthropicTool nat :=
  {| toParams := {| name := "strict"; shape := JNull |};
     execute := fun input w =>
       match json_text input with
       | Some s => (Resolved {| output := Some s; error := None;
                                base64Image := None; system := None;
                                mediaType := None |}, S w)
       | None => (Rejected (ToolError "text is required for strict"), S w)
       end |}.

(** Rejects with an error that is not a ToolError. *)
Definition broken : BaseAnthropicTool nat :=
  {| toParams := {| name := "broken"; shape := JNull |};
     execute := fun _ w =>
       (Rejected (OtherError "Error: ENOENT: no such file or directory"), S w) |}.

(** Rejects with a ToolError whose message is empty. *)
Definition silent : BaseAnthropicTool nat :=
  {| toParams := {| name := "silent"; shape := JNull |};
     execute := fun _ w => (Rejected (ToolError EmptyString), S w) |}.

Definition sample_tools : ToolCollection nat :=
  ToolCollection_new [echo; camera; strict; broken; silent].

(** A state whose array 0 holds the opening message. *)
Definition state0 : State nat :=
  {| arrays := fun r => if Nat.eqb r 0 then [opening] else [];
     world := 0; api_calls := 0; trace := [] |}.

(** A run in which the first response asks for eleven screenshots and the
    second for nothing, with the option [onlyNMostRecentImages] set to 1. *)
Definition eleven_requests : list ContentBlock :=
  map (fun k => ToolUseBlock (String (ascii_of_nat (97 + k)) EmptyString) "camera"
                             (JObj []))
      (seq 0 11).

Definition camera_loop : SamplingLoop nat :=
  {| toolCollection := sample_tools;
     client := fun k => match k with
                        | 0 => ApiOk eleven_requests
                        | _ => ApiOk [TextBlock "Here are the screenshots."]
                        end |}.

Definition keep_one : SamplingLoopOptions :=
  {| messages := 0; onlyNMostRecentImages := Some 1%Z |}.

(** A two-turn run: a request for [echo], then a final text. *)
Definition echo_loop : SamplingLoop nat :=
  {| toolCollection := sample_tools;
     client := fun k => match k with
                        | 0 => ApiOk [TextBlock "Let me try.";
                                      ToolUseBlock "toolu_01" "echo"
                                        (JObj [("text"%string, JStr "hi")])]
                        | _ => ApiOk [TextBlock "It said hi."]
                        end |}.

Definition no_filter : SamplingLoopOptions :=
  {| messages := 0; onlyNMostRecentImages := None |}.

(** A service that asks for a tool on every call. *)
Definition endless_loop : SamplingLoop nat :=
  {| toolCollection := sample_tools;
     client := fun _ => ApiOk [ToolUseBlock "toolu_01" "echo" (JObj [])] |}.

(* ===================================================================== *)
(** ** Thrown values that cannot be rendered *)
(* ===================================================================== *)

(** The catch of [ToolCollection.run] renders a thrown value that is not a
    ToolError with the template [`${err}`].  This conversion to a string is
    itself code that can throw: for a Symbol, and for an object without a
    usable [toString] or [valueOf], it throws a TypeError.  [Thrown] holds
    the values for which the conversion gives a string.  The module
    [AnyThrown] is the dispatch and the loop for tools that may reject with
    any value: the same code, with the conversion written out. *)
Module AnyThrown.

(** What [`${err}`] does with a value: it gives a string, or it throws. *)
Inductive Rendering : Type :=
  | Renders (rendered : string)
  | RenderingThrows (err : Thrown).

(** A value that [execute] rejects with, as the catch sees it: an instance
    of ToolError with its message, or another value with what its
    rendering does. *)
Inductive ThrownValue : Type :=
  | ToolErrorValue (message : string)
  | OtherValue (rendering : Rendering).

(** The promise returned by [execute], once settled. *)
Inductive Settled : Type :=
  | Resolved (result : ToolResult)
  | Rejected (err : ThrownValue).

(** [abstract class BaseAnthropicTool] *)
Record BaseAnthropicTool (W : Type) : Type := mkTool {
  toParams : ToolParams;
  execute : Json -> W -> Settled * W
}.
Arguments mkTool {W}.
Arguments toParams {W}.
Arguments execute {W}.

(** [class ToolCollection] *)
Record ToolCollection (W : Type) : Type := mkToolCollection {
  toolMap : gmap string (BaseAnthropicTool W)
}.
Arguments mkToolCollection {W}.
Arguments toolMap {W}.

Definition ToolCollection_new {W : Type} (tools : list (BaseAnthropicTool W))
  : ToolCollection W :=
  {| toolMap :=
       fold_left (fun m tool => <[name (toParams tool) := tool]> m) tools ∅ |}.

Section SamplingLoop.
Context {W : Type}.

(** [ToolCollection.run(name, toolInput)]: the try around
    [await tool.execute(toolInput)] and its catch.  An exception of the
    rendering is thrown from inside the catch, and so leaves [run]. *)
Definition ToolCollection_run (this : ToolCollection W) (name : string)
    (toolInput : Json) : M W ToolResult :=
  match toolMap this !! name with
  | None => ret (ToolFailure ("Tool " +:+ name +:+ " is invalid"))
  | Some tool =>
      fun st =>
        let '(settled, w) := execute tool toolInput (world st) in
        let st' := {| arrays := arrays st; world := w;
                      api_calls := api_calls st; trace := trace st |} in
        match settled with
        | Resolved result => (Normal result, st')
        | Rejected (ToolErrorValue message) =>
            (Normal (ToolFailure message), st')
        | Rejected (OtherValue (Renders rendered)) =>
            (Normal (ToolFailure ("Unknown error: " +:+ rendered)), st')
        | Rejected (OtherValue (RenderingThrows err)) => (Abrupt err, st')
        end
  end.

(** [class SamplingLoop] *)
Record SamplingLoop : Type := mkSamplingLoop {
  toolCollection : ToolCollection W;
  client : nat -> ApiOutcome
}.

(** [await this.client.beta.messages.create({ messages, ... })] *)
Definition messages_create (this : SamplingLoop) (messages : ref)
  : M W (list ContentBlock) :=
  fun st =>
    let st' := {| arrays := arrays st; world := world st;
                  api_calls := S (api_calls st);
                  trace := trace st ++ [EvCreate (arrays st messages)] |} in
    match client this (api_calls st) with
    | ApiOk content => (Normal content, st')
    | ApiFail rendered => (Abrupt (OtherError rendered), st')
    end.

(** [for (const block of response.content) { ... }]: the call of
    [this.toolCollection.run] stands in no try. *)
Fixpoint for_blocks (this : SamplingLoop) (blocks : list ContentBlock)
    (toolResultContent : list BetaToolResultBlockParam)
  : M W (list BetaToolResultBlockParam) :=
  match blocks with
  | [] => ret toolResultContent
  | block :: rest =>
      emit (EvOutput block) ;;
      let* toolResultContent' :=
        match block with
        | ToolUseBlock id name input =>
            let* result := ToolCollection_run (toolCollection this) name input in
            let toolResult := makeApiToolResult result id in
            let extended := toolResultContent ++ [toolResult] in
            emit (EvToolOutput result id) ;;
            ret extended
        | _ => ret toolResultContent
        end in
      for_blocks this rest toolResultContent'
  end.

(** [while (true) { ... }], for at most [fuel] iterations. *)
Fixpoint while_true (fuel : nat) (this : SamplingLoop) (messages : ref)
  : M W ref :=
  match fuel with
  | O => fun st => (Unfinished, st)
  | S fuel' =>
      let* response := messages_create this messages in
      emit (EvApiResponse response) ;;
      push messages {| role := assistant; message_content := Blocks response |} ;;
      let* toolResultContent := for_blocks this response [] in
      if Nat.eqb (length toolResultContent) 0 then ret messages
      else
        push messages
          {| role := user;
             message_content := Blocks (map ToolResultBlock toolResultContent) |} ;;
        while_true fuel' this messages
  end.

(** [SamplingLoop.run(options)] *)
Definition run (this : SamplingLoop) (options : SamplingLoopOptions)
    (fuel : nat) : M W ref :=
  (if number_truthy (onlyNMostRecentImages options)
   then rewrite_array (messages options)
          (fun l => filterNMostRecentImages l
                      (default 0%Z (onlyNMostRecentImages options)) 10)
   else ret tt) ;;
  while_true fuel this (messages options).

End SamplingLoop.

Arguments SamplingLoop : clear implicits.

End AnyThrown.

(** A tool, a collection and a loop of the model above in which every
    thrown value renders, seen as ones of [AnyThrown]. *)
Definition any_thrown (err : Thrown) : AnyThrown.ThrownValue :=
  match err with
  | ToolError message => AnyThrown.ToolErrorValue message
  | OtherError rendered => AnyThrown.OtherValue (AnyThrown.Renders rendered)
  end.

Definition any_settled (settled : Settled) : AnyThrown.Settled :=
  match settled with
  | Resolved result => AnyThrown.Resolved result
  | Rejected err => AnyThrown.Rejected (any_thrown err)
  end.

Definition any_tool {W : Type} (tool : BaseAnthropicTool W)
  : AnyThrown.BaseAnthropicTool W :=
  {| AnyThrown.toParams := toParams tool;
     AnyThrown.execute := fun input w =>
       (any_settled (fst (execute tool input w)), snd (execute tool input w)) |}.

Definition any_collection {W : Type} (this : ToolCollection W)
  : AnyThrown.ToolCollection W :=
  {| AnyThrown.toolMap := any_tool <$> toolMap this |}.

Definition any_loop {W : Type} (this : SamplingLoop W)
  : AnyThrown.SamplingLoop W :=
  {| AnyThrown.toolCollection := any_collection (toolCollection this);
     AnyThrown.client := client this |}.







(* ===================================================================== *)
(** ** tools/base.ts: combineResults, and the order of the tool map *)
(* ===================================================================== *)

(** [[a, b].filter(Boolean).join('')] *)
Definition join_truthy (parts : list (option string)) : string :=
  String.concat EmptyString (map field (List.filter truthy parts)).

(** [a || b] on two fields: [a] when it is truthy, else [b] as it is. *)
Definition or_else (a b : option string) : option string :=
  if truthy a then a else b.

(** [BaseAnthropicTool.combineResults(result1, result2)].  The object it
    returns has no [mediaType]. *)
Definition combineResults (result1 result2 : ToolResult) : ToolResult :=
  {| output := Some (join_truthy [output result1; output result2]);
     error := Some (join_truthy [error result1; error result2]);
     base64Image := or_else (base64Image result2) (base64Image result1);
     system := Some (join_truthy [system result1; system result2]);
     mediaType := None |}.

(** A JavaScript [Map] keeps its keys in the order of their first
    insertion: [map.set(key, value)] replaces the value of a key in place
    and puts a new key last. *)
Fixpoint js_map_set {V : Type} (key : string) (value : V)
    (entries : list (string * V)) : list (string * V) :=
  match entries with
  | [] => [(key, value)]
  | (k, v) :: rest =>
      if String.eqb k key then (key, value) :: rest
      else (k, v) :: js_map_set key value rest
  end.

(** [map.get(key)] *)
Definition js_map_get {V : Type} (key : string) (entries : list (string * V))
  : option V :=
  match List.find (fun e => String.eqb (fst e) key) entries with
  | Some e => Some (snd e)
  | None => None
  end.

(** The entries of [toolMap], in order, after the constructor of
    [ToolCollection] has run on [tools]. *)
Definition toolMap_entries {W : Type} (tools : list (BaseAnthropicTool W))
  : list (string * BaseAnthropicTool W) :=
  fold_left (fun m tool => js_map_set (name (toParams tool)) tool m) tools [].

(** [ToolCollection.toParams()]:
    [Array.from(this.toolMap.values()).map(tool => tool.toParams())] *)
Definition ToolCollection_toParams {W : Type}
    (tools : list (BaseAnthropicTool W)) : list ToolParams :=
  map (fun e => toParams (snd e)) (toolMap_entries tools).

(** The names of a list, each once, in the order of first occurrence. *)
Definition first_occurrences (names : list string) : list string :=
  rev (remove_dups (rev names)).

(* ===================================================================== *)
(** ** What the callbacks of a run see *)
(* ===================================================================== *)

(** The blocks passed to [outputCallback], the responses passed to
    [apiResponseCallback] and the results passed to [toolOutputCallback],
    each in the order of the calls. *)
Definition outputs (events : list Event) : list ContentBlock :=
  omap (fun e => match e with EvOutput b => Some b | _ => None end) events.

Definition api_responses (events : list Event) : list (list ContentBlock) :=
  omap (fun e => match e with EvApiResponse c => Some c | _ => None end) events.

Definition tool_outputs (events : list Event) : list (ToolResult * string) :=
  omap (fun e => match e with
                 | EvToolOutput r id => Some (r, id)
                 | _ => None
                 end) events.

(** [makeApiToolResult] on a result paired with its request id. *)
Definition assemble (out : ToolResult * string) : BetaToolResultBlockParam :=
  makeApiToolResult (fst out) (snd out).

(** The contents of the assistant messages of a conversation, and the
    tool_result blocks of its user messages, in order. *)
Definition assistant_contents (messages : list BetaMessageParam)
  : list (list ContentBlock) :=
  omap (fun m => match role m, message_content m with
                 | assistant, Blocks bs => Some bs
                 | _, _ => None
                 end) messages.

Definition user_results (messages : list BetaMessageParam)
  : list BetaToolResultBlockParam :=
  flat_map (fun m => match role m with
                     | user => omap is_tool_result (content_blocks m)
                     | assistant => []
                     end) messages.

(** What one dispatch returns and does to the environment of the tools,
    as a function of that environment. *)
Definition dispatch {W : Type} (tc : ToolCollection W) (name : string)
    (input : Json) (w : W) : ToolResult * W :=
  match toolMap tc !! name with
  | None => (ToolFailure ("Tool " +:+ name +:+ " is invalid"), w)
  | Some tool =>
      match execute tool input w with
      | (Resolved result, w') => (result, w')
      | (Rejected (ToolError message), w') => (ToolFailure message, w')
      | (Rejected (OtherError rendered), w') =>
          (ToolFailure ("Unknown error: " +:+ rendered), w')
      end
  end.

(** The dispatches of the tool_use blocks of a response, one after the
    other in the order of the blocks, each in the environment left by the
    one before. *)
Fixpoint dispatch_all {W : Type} (tc : ToolCollection W)
    (blocks : list ContentBlock) (w : W) : list (ToolResult * string) * W :=
  match blocks with
  | [] => ([], w)
  | ToolUseBlock id name input :: rest =>
      let '(result, w1) := dispatch tc name input w in
      let '(outs, w2) := dispatch_all tc rest w1 in
      ((result, id) :: outs, w2)
  | _ :: rest => dispatch_all tc rest w
  end.

(** A service that asks for [echo] once and then fails. *)
Definition failing_loop : SamplingLoop nat :=
  {| toolCollection := sample_tools;
     client := fun k => match k with
                        | 0 => ApiOk [ToolUseBlock "toolu_01" "echo"
                                        (JObj [("text"%string, JStr "hi")])]
                        | _ => ApiFail "Error: 529 overloaded"
                        end |}.

(** The events that the loop over the blocks of a response adds: the call
    of [outputCallback] on each block and, after each tool_use block, the
    call of [toolOutputCallback] on the result of its dispatch. *)
Fixpoint block_events {W : Type} (tc : ToolCollection W)
    (blocks : list ContentBlock) (w : W) : list Event :=
  match blocks with
  | [] => []
  | ToolUseBlock id name input :: rest =>
      EvOutput (ToolUseBlock id name input)
      :: EvToolOutput (fst (dispatch tc name input w)) id
      :: block_events tc rest (snd (dispatch tc name input w))
  | block :: rest => EvOutput block :: block_events tc rest w
  end.

(** The state after the response of a call has been appended and its
    tools have been run. *)
Definition after_response {W : Type} (this : SamplingLoop W) (messages : ref)
    (response : list ContentBlock) (st : State W) : State W :=
  {| arrays := fun r => if Nat.eqb r messages
                        then arrays st messages ++ [assistant_message response]
                        else arrays st r;
     world := snd (dispatch_all (toolCollection this) response (world st));
     api_calls := S (api_calls st);
     trace := trace st
              ++ EvCreate (arrays st messages) :: EvApiResponse response
              :: block_events (toolCollection this) response (world st) |}.

(* ===================================================================== *)
(** ** index.ts: ComputerUseClient.sendMessage *)
(* ===================================================================== *)

Fixpoint skip_while {A : Type} (f : A -> bool) (l : list A) : list A :=
  match l with
  | [] => []
  | x :: rest => if f x then skip_while f rest else l
  end.

(** [s.trim()], for the characters [strips] that [trim] removes (white
    space and line terminators): it removes them from both ends. *)
Definition js_trim (strips : ascii -> bool) (s : string) : string :=
  string_of_list_ascii
    (rev (skip_while strips (rev (skip_while strips (list_ascii_of_string s))))).

(** The fields of [ComputerUseClient] that [sendMessage] depends on: the
    loop, and the option [onlyNMostRecentImages] of the client. *)
Record ComputerUseClient (W : Type) : Type := mkClient {
  loop : SamplingLoop W;
  client_onlyNMostRecentImages : option Z
}.
Arguments mkClient {W}.
Arguments loop {W}.
Arguments client_onlyNMostRecentImages {W}.

(** [ComputerUseClient.sendMessage(message)].  [fresh] is the reference of
    the array [messages] that the function creates.  The handler of its
    [try] logs the error and throws it again. *)
Definition sendMessage {W : Type} (strips : ascii -> bool)
    (this : ComputerUseClient W) (message : string) (fresh : ref)
    (fuel : nat) : M W ref :=
  if String.eqb (js_trim strips message) EmptyString then
    fun st => (Abrupt (OtherError "Error: Message cannot be empty"), st)
  else
    rewrite_array fresh
      (fun _ => [{| role := user; message_content := Str message |}]) ;;
    try_catch
      (run (loop this)
           {| messages := fresh;
              onlyNMostRecentImages := client_onlyNMostRecentImages this |}
           fuel)
      (fun error st => (Abrupt error, st)).

(** A client for the sample loop that echoes, with a limit of 3 images. *)
Definition echo_client : ComputerUseClient nat :=
  {| loop := echo_loop; client_onlyNMostRecentImages := Some 3%Z |}.

(* ===================================================================== *)
(** ** ComputerTool: typing in chunks, delayed screenshots *)
(* ===================================================================== *)

Definition TYPING_DELAY_MS : nat := 12.
Definition TYPING_GROUP_SIZE : nat := 50.
Definition SCREENSHOT_DELAY_MS : nat := 2000.
Definition SCREENSHOT_RETRY_COUNT : nat := 3.
Definition SCREENSHOT_RETRY_DELAY_MS : nat := 500.

(** [s.slice(start, end)] for indices that are not negative: the
    characters from [start] up to, not including, [end]. *)
Definition js_slice (s : string) (start finish : nat) : string :=
  string_of_list_ascii
    (take (finish - start) (drop start (list_ascii_of_string s))).

(** [ComputerTool.chunkString(str, size)]: the loop
    [for (let i = 0; i < str.length; i += size) chunks.push(str.slice(i, i + size))]
    from index [i] on, for at most [fuel] iterations. *)
Fixpoint chunkString_loop (fuel : nat) (str : string) (size i : nat)
    (chunks : list string) : option (list string) :=
  if i <? String.length str then
    match fuel with
    | O => None
    | S fuel' =>
        chunkString_loop fuel' str size (i + size)
          (chunks ++ [js_slice str i (i + size)])
    end
  else Some chunks.

Definition chunkString (fuel : nat) (str : string) (size : nat)
  : option (list string) :=
  chunkString_loop fuel str size 0 [].

(** What ComputerTool uses of the desktop, whose state has type [E]:
    [robot.typeString], the timer behind [this.delay(ms)], and
    [this.takeScreenshot()], which captures, compresses and stores a
    screenshot and resolves to a result or rejects. *)
Record Desktop (E : Type) : Type := mkDesktop {
  robot_typeString : string -> E -> E;
  delay : nat -> E -> E;
  takeScreenshot : E -> Settled * E
}.
Arguments mkDesktop {E}.
Arguments robot_typeString {E}.
Arguments delay {E}.
Arguments takeScreenshot {E}.

(** [ComputerTool.handleTypeString(text)] *)
Definition handleTypeString {E : Type} (d : Desktop E) (fuel : nat)
    (text : string) (e : E) : option E :=
  match chunkString fuel text TYPING_GROUP_SIZE with
  | Some chunks =>
      Some (fold_left
              (fun e chunk =>
                 delay d (String.length chunk * TYPING_DELAY_MS)
                       (robot_typeString d chunk e))
              chunks e)
  | None => None
  end.

(** The loop [for (let attempt = 1; attempt <= SCREENSHOT_RETRY_COUNT;
    attempt++)] of [takeDelayedScreenshot] from [attempt] on, where
    [remaining] is the number of values of [attempt] left, followed by the
    [throw] after the loop. *)
Fixpoint screenshot_attempts {E : Type} (d : Desktop E)
    (remaining attempt : nat) (e : E) : Settled * E :=
  match remaining with
  | O => (Rejected
            (ToolError "Failed to take screenshot after multiple attempts"), e)
  | S remaining' =>
      match takeScreenshot d e with
      | (Resolved result, e') => (Resolved result, e')
      | (Rejected error, e') =>
          if Nat.eqb attempt SCREENSHOT_RETRY_COUNT then (Rejected error, e')
          else screenshot_attempts d remaining' (S attempt)
                 (delay d SCREENSHOT_RETRY_DELAY_MS e')
      end
  end.

(** [ComputerTool.takeDelayedScreenshot()] *)
Definition takeDelayedScreenshot {E : Type} (d : Desktop E) (e : E)
  : Settled * E :=
  screenshot_attempts d SCREENSHOT_RETRY_COUNT 1 (delay d SCREENSHOT_DELAY_MS e).

(** The state of the desktop in which the k-th attempt at a screenshot is
    made, the attempts before having failed. *)
Fixpoint attempt_state {E : Type} (d : Desktop E) (k : nat) (e : E) : E :=
  match k with
  | O => e
  | 1 => delay d SCREENSHOT_DELAY_MS e
  | S k' =>
      delay d SCREENSHOT_RETRY_DELAY_MS
            (snd (takeScreenshot d (attempt_state d k' e)))
  end.

(** A desktop that records what is asked of it, and whose screenshots
    fail until the given number of failures is used up. *)
Inductive DesktopCall : Type :=
  | Typed (s : string)
  | Waited (ms : nat)
  | Shot (ok : bool).

Definition recording_desktop : Desktop (nat * list DesktopCall) :=
  {| robot_typeString := fun s e => (fst e, snd e ++ [Typed s]);
     delay := fun ms e => (fst e, snd e ++ [Waited ms]);
     takeScreenshot := fun e =>
       match fst e with
       | O => (Resolved {| output := None; error := None;
                           base64Image := Some "iVBORw0KGgo="; system := None;
                           mediaType := Some "image/png" |},
               (0, snd e ++ [Shot true]))
       | S failures =>
           (Rejected (ToolError "Failed to take screenshot: Error: busy"),
            (failures, snd e ++ [Shot false]))
       end |}.

(** The lengths of the chunks of a string of [r] characters cut every
    [size] characters: as many full chunks as fit, then the rest if any. *)
Definition chunk_lengths (size r : nat) : list nat :=
  repeat size (r / size)
  ++ (if Nat.eqb (r mod size) 0 then [] else [r mod size]).

(* ===================================================================== *)
(** ** EditTool (tools/editor.ts) *)
(* ===================================================================== *)

Definition SNIPPET_LINES : nat := 4.
Definition MAX_RESPONSE_LENGTH : nat := 16 * 1000.
Definition TRUNCATED_MESSAGE : string :=
  "<response clipped><NOTE>To save on context only part of this file has been shown to you. You should retry this tool after you have searched inside the file with `grep -n` in order to find the line numbers of what you are looking for.</NOTE>".

Definition tab : ascii := ascii_of_nat 9.
Definition line_feed : ascii := ascii_of_nat 10.

(** *** The string operations of JavaScript that the tool uses *)

(** [s.split(sep)] for a separator of one character. *)
Fixpoint js_split_char (sep : ascii) (s : string) : list string :=
  match s with
  | EmptyString => [EmptyString]
  | String c rest =>
      if Ascii.eqb c sep then EmptyString :: js_split_char sep rest
      else match js_split_char sep rest with
           | line :: lines => String c line :: lines
           | [] => [String c EmptyString]
           end
  end.

(** [lines.join(sep)] *)
Definition js_join (sep : string) (lines : list string) : string :=
  String.concat sep lines.

(** [pat] occurs at the start of [l]. *)
Fixpoint starts_with (pat l : list ascii) : bool :=
  match pat, l with
  | [], _ => true
  | p :: pat', c :: l' => Ascii.eqb p c && starts_with pat' l'
  | _ :: _, [] => false
  end.

(** [s.indexOf(pat)], on the characters: the index of the first
    occurrence. *)
Fixpoint index_of (pat l : list ascii) : option nat :=
  if starts_with pat l then Some 0
  else match l with
       | [] => None
       | _ :: rest => option_map S (index_of pat rest)
       end.

(** [s.includes(pat)] *)
Definition js_includes (s pat : string) : bool :=
  match index_of (list_ascii_of_string pat) (list_ascii_of_string s) with
  | Some _ => true
  | None => false
  end.

(** The pieces of [l] between the occurrences of a separator [pat] that
    is not empty, found from left to right without overlap.  [cur] holds
    the piece being read, reversed; [skip] counts the characters of a
    separator just found that are still to be passed over. *)
Fixpoint split_pieces (pat : list ascii) (skip : nat) (cur l : list ascii)
  : list (list ascii) :=
  match l with
  | [] => [rev cur]
  | c :: rest =>
      match skip with
      | S k => split_pieces pat k cur rest
      | O =>
          if starts_with pat l
          then rev cur :: split_pieces pat (length pat - 1) [] rest
          else split_pieces pat 0 (c :: cur) rest
      end
  end.

(** [s.split(sep)] for a string separator: with the empty separator, the
    characters one by one. *)
Definition js_split (s sep : string) : list string :=
  match list_ascii_of_string sep with
  | [] => map (fun c => String c EmptyString) (list_ascii_of_string s)
  | pat =>
      map string_of_list_ascii
          (split_pieces pat 0 [] (list_ascii_of_string s))
  end.

(** The replacement text of [replace] for a string pattern (GetSubstitution
    without captures): [$$] stands for a dollar, [$&] for the matched
    text, [$`] for the text before it and [$'] for the text after it; any
    other character, and a dollar before any other character, stands for
    itself. *)
Fixpoint substitution (template matched before after : list ascii)
  : list ascii :=
  match template with
  | [] => []
  | c :: rest =>
      if Ascii.eqb c "$" then
        match rest with
        | d :: rest' =>
            if Ascii.eqb d "$" then "$"%char :: substitution rest' matched before after
            else if Ascii.eqb d "&" then matched ++ substitution rest' matched before after
            else if Ascii.eqb d "`" then before ++ substitution rest' matched before after
            else if Ascii.eqb d "'" then after ++ substitution rest' matched before after
            else c :: substitution rest matched before after
        | [] => [c]
        end
      else c :: substitution rest matched before after
  end.

(** [s.replace(pat, replacement)] for a string pattern: the first
    occurrence is replaced. *)
Definition js_replace (s pat replacement : string) : string :=
  let l := list_ascii_of_string s in
  let p := list_ascii_of_string pat in
  match index_of p l with
  | None => s
  | Some i =>
      let before := take i l in
      let after := drop (i + length p) l in
      string_of_list_ascii
        (before
         ++ substitution (list_ascii_of_string replacement) p before after
         ++ after)
  end.

(** [s.padStart(width)]: spaces are put in front up to [width]
    characters. *)
Definition js_padStart (width : nat) (s : string) : string :=
  string_of_list_ascii (repeat " "%char (width - String.length s)) +:+ s.

(** [s.replace(/\t/g, '    ')] *)
Definition expand_tabs (s : string) : string :=
  string_of_list_ascii
    (flat_map (fun c => if Ascii.eqb c tab then repeat " "%char 4 else [c])
              (list_ascii_of_string s)).

(** The string of an integer, as [`${n}`] and [n.toString()] give it. *)
Definition number_string (n : Z) : string := pretty n.

(** The string of an array of integers, as [`${lines}`] gives it. *)
Definition numbers_string (ns : list Z) : string :=
  String.concat "," (map number_string ns).

(** *** The methods *)

(** [EditTool.maybeTruncate(content, truncateAfter)] *)
Definition maybeTruncate (content : string) (truncateAfter : nat) : string :=
  if negb (Nat.eqb truncateAfter 0) && (truncateAfter <? String.length content)
  then js_slice content 0 truncateAfter +:+ TRUNCATED_MESSAGE
  else content.

(** The lines of a listing: line [i] of [lines], counted from 0, carries
    the number [i + initLine]. *)
Fixpoint number_lines (initLine : Z) (lines : list string) : list string :=
  match lines with
  | [] => []
  | line :: rest =>
      (js_padStart 6 (number_string initLine) +:+ String tab line)
      :: number_lines (initLine + 1) rest
  end.

(** [EditTool.makeOutput(content, fileDescriptor, initLine, expandTabs)] *)
Definition makeOutput (content fileDescriptor : string) (initLine : Z)
    (expandTabs : bool) : string :=
  let content := maybeTruncate content MAX_RESPONSE_LENGTH in
  let content := if expandTabs then expand_tabs content else content in
  let numberedLines :=
    js_join (String line_feed EmptyString)
            (number_lines initLine (js_split_char line_feed content)) in
  "Here's the result of running `cat -n` on " +:+ fileDescriptor +:+ ":"
  +:+ String line_feed numberedLines +:+ String line_feed EmptyString.

(** [new CLIResult(output)] *)
Definition CLIResult (text : string) : ToolResult :=
  {| output := Some text; error := None; base64Image := None;
     system := None; mediaType := None |}.

(** What the tool uses of the file system, whose state has type [F]:
    [fs.readFile(path, 'utf8')], which yields the content or fails with an
    error, here the string that [`${error}`] renders; [fs.writeFile(path,
    content, 'utf8')], which may fail likewise; and the tool's own
    [validatePath(command, path)] and [view(path, viewRange)], which
    inspect the file system with [fs.stat] and [fs.readdir]: the former
    returns or throws an Error with a message, the latter resolves to a
    result or rejects. *)
Record FileSystem (F : Type) : Type := mkFileSystem {
  fs_readFile : string -> F -> string + string;
  fs_writeFile : string -> string -> F -> option string * F;
  validatePath : string -> string -> F -> option string;
  view : string -> option (Z * Z) -> F -> Settled
}.
Arguments mkFileSystem {F}.
Arguments fs_readFile {F}.
Arguments fs_writeFile {F}.
Arguments validatePath {F}.
Arguments view {F}.

(** The state an EditTool acts on: the file system, and its own
    [fileHistory], a Map from paths to arrays of contents. *)
Record EditorState (F : Type) : Type := mkEditorState {
  files : F;
  fileHistory : list (string * list string)
}.
Arguments mkEditorState {F}.
Arguments files {F}.
Arguments fileHistory {F}.

(** [EditTool.readFile(filePath)] *)
Definition readFile {F : Type} (fs : FileSystem F) (filePath : string)
    (s : EditorState F) : string + Thrown :=
  match fs_readFile fs filePath (files s) with
  | inl content => inl content
  | inr error =>
      inr (ToolError ("Error reading file " +:+ filePath +:+ ": " +:+ error))
  end.

(** [EditTool.writeFile(filePath, content)] *)
Definition writeFile {F : Type} (fs : FileSystem F) (filePath content : string)
    (s : EditorState F) : option Thrown * EditorState F :=
  match fs_writeFile fs filePath content (files s) with
  | (None, f) => (None, {| files := f; fileHistory := fileHistory s |})
  | (Some error, f) =>
      (Some (ToolError ("Error writing to file " +:+ filePath +:+ ": " +:+ error)),
       {| files := f; fileHistory := fileHistory s |})
  end.

(** [EditTool.addToHistory(filePath, content)] *)
Definition addToHistory {F : Type} (filePath content : string)
    (s : EditorState F) : EditorState F :=
  {| files := files s;
     fileHistory :=
       js_map_set filePath
         (default [] (js_map_get filePath (fileHistory s)) ++ [content])
         (fileHistory s) |}.

(** [EditTool.undoEdit(filePath)].  [history.pop()] takes the last content
    off the array before the file is written. *)
Definition undoEdit {F : Type} (fs : FileSystem F) (filePath : string)
    (s : EditorState F) : Settled * EditorState F :=
  match js_map_get filePath (fileHistory s) with
  | None | Some [] =>
      (Rejected (ToolError ("No edit history found for " +:+ filePath +:+ ".")),
       s)
  | Some history =>
      let oldText := List.last history EmptyString in
      let popped :=
        {| files := files s;
           fileHistory := js_map_set filePath (removelast history)
                                     (fileHistory s) |} in
      match writeFile fs filePath oldText popped with
      | (Some err, s') => (Rejected err, s')
      | (None, s') =>
          (Resolved
             (CLIResult ("Last edit to " +:+ filePath
                         +:+ " undone successfully. "
                         +:+ makeOutput oldText filePath 1 true)),
           s')
      end
  end.

(** [EditTool.insert(filePath, insertLine, newStr)] *)
Definition insert {F : Type} (fs : FileSystem F) (filePath : string)
    (insertLine : Z) (newStr : string) (s : EditorState F)
  : Settled * EditorState F :=
  match readFile fs filePath s with
  | inr err => (Rejected err, s)
  | inl content =>
      let contentLines := js_split_char line_feed content in
      let nLinesFile := length contentLines in
      if (insertLine <? 0)%Z || (Z.of_nat nLinesFile <? insertLine)%Z then
        (Rejected
           (ToolError
              ("Invalid 'insert_line' parameter: " +:+ number_string insertLine
               +:+ ". It should be within the range of lines of the file: [0, "
               +:+ number_string (Z.of_nat nLinesFile) +:+ "]")), s)
      else
        let k := Z.to_nat insertLine in
        let newStrLines := js_split_char line_feed newStr in
        let newContentLines :=
          take k contentLines ++ newStrLines ++ drop k contentLines in
        let snippetLines :=
          drop (k - SNIPPET_LINES) (take k contentLines)
          ++ newStrLines
          ++ take SNIPPET_LINES (drop k contentLines) in
        let newContent := js_join (String line_feed EmptyString) newContentLines in
        let snippet := js_join (String line_feed EmptyString) snippetLines in
        match writeFile fs filePath newContent s with
        | (Some err, s') => (Rejected err, s')
        | (None, s') =>
            (Resolved
               (CLIResult
                  ("The file " +:+ filePath +:+ " has been edited. "
                   +:+ makeOutput snippet "a snippet of the edited file"
                         (Z.max 1 (insertLine - Z.of_nat SNIPPET_LINES + 1)) true
                   +:+ "Review the changes and make sure they are as expected (correct indentation, no duplicate lines, etc). Edit the file again if necessary.")),
             addToHistory filePath content s')
        end
  end.

(** The numbers, counted from [idx + 1], of the lines that include
    [oldStr]. *)
Fixpoint lines_including (oldStr : string) (idx : Z) (lines : list string)
  : list Z :=
  match lines with
  | [] => []
  | line :: rest =>
      if js_includes line oldStr
      then (idx + 1)%Z :: lines_including oldStr (idx + 1) rest
      else lines_including oldStr (idx + 1) rest
  end.

(** [EditTool.strReplace(filePath, oldStr, newStr)].  When [oldStr] and the
    content are both empty, [content.split(oldStr)] is the empty array:
    [occurrences] is -1, the file is written, and the snippet cannot be
    made, [content.split(oldStr)[0]] being undefined. *)
Definition strReplace {F : Type} (fs : FileSystem F)
    (filePath oldStr newStr : string) (s : EditorState F)
  : Settled * EditorState F :=
  match readFile fs filePath s with
  | inr err => (Rejected err, s)
  | inl content =>
      let occurrences := (Z.of_nat (length (js_split content oldStr)) - 1)%Z in
      if (occurrences =? 0)%Z then
        (Rejected
           (ToolError
              ("No replacement was performed, old_str '" +:+ oldStr
               +:+ "' did not appear verbatim in " +:+ filePath +:+ ".")), s)
      else if (1 <? occurrences)%Z then
        let lines :=
          lines_including oldStr 0 (js_split_char line_feed content) in
        (Rejected
           (ToolError
              ("No replacement was performed. Multiple occurrences of old_str '"
               +:+ oldStr +:+ "' in lines " +:+ numbers_string lines
               +:+ ". Please ensure it is unique")), s)
      else
        let newContent := js_replace content oldStr newStr in
        match writeFile fs filePath newContent s with
        | (Some err, s') => (Rejected err, s')
        | (None, s') =>
            let s'' := addToHistory filePath content s' in
            match js_split content oldStr with
            | [] =>
                (Rejected
                   (OtherError
                      "TypeError: Cannot read properties of undefined (reading 'split')"),
                 s'')
            | first :: _ =>
                let replacementLine :=
                  length (js_split_char line_feed first) in
                let startLine := replacementLine - SNIPPET_LINES in
                let endLine :=
                  replacementLine + SNIPPET_LINES
                  + length (js_split_char line_feed newStr) in
                let snippet :=
                  js_join (String line_feed EmptyString)
                    (take (S endLine - startLine)
                       (drop startLine (js_split_char line_feed newContent))) in
                (Resolved
                   (CLIResult
                      ("The file " +:+ filePath +:+ " has been edited. "
                       +:+ makeOutput snippet ("a snippet of " +:+ filePath)
                             (Z.of_nat startLine + 1) true
                       +:+ "Review the changes and make sure they are as expected. Edit the file again if necessary.")),
                 s'')
            end
        end
  end.

(** The parameters of [EditTool.execute]; a parameter that is not given
    is [None]. *)
Record EditParams : Type := mkEditParams {
  command : string;
  path : string;
  file_text : option string;
  view_range : option (Z * Z);
  old_str : option string;
  new_str : option string;
  insert_line : option Z
}.

(** [EditTool.execute(params)] *)
Definition EditTool_execute {F : Type} (fs : FileSystem F)
    (params : EditParams) (s : EditorState F) : Settled * EditorState F :=
  match validatePath fs (command params) (path params) (files s) with
  | Some message => (Rejected (ToolError message), s)
  | None =>
      if String.eqb (command params) "view" then
        (view fs (path params) (view_range params) (files s), s)
      else if String.eqb (command params) "create" then
        if truthy (file_text params) then
          match writeFile fs (path params) (field (file_text params)) s with
          | (Some err, s') => (Rejected err, s')
          | (None, s') =>
              (Resolved
                 {| output := Some ("File created successfully at: "
                                    +:+ path params);
                    error := None; base64Image := None; system := None;
                    mediaType := None |},
               addToHistory (path params) (field (file_text params)) s')
          end
        else
          (Rejected
             (ToolError
                "Parameter `file_text` is required for command: create"), s)
      else if String.eqb (command params) "str_replace" then
        if truthy (old_str params) then
          strReplace fs (path params) (field (old_str params))
                     (js_or (new_str params) EmptyString) s
        else
          (Rejected
             (ToolError
                "Parameter `old_str` is required for command: str_replace"), s)
      else if String.eqb (command params) "insert" then
        match insert_line params with
        | None =>
            (Rejected
               (ToolError
                  "Parameter `insert_line` is required for command: insert"), s)
        | Some insertLine =>
            if truthy (new_str params) then
              insert fs (path params) insertLine (field (new_str params)) s
            else
              (Rejected
                 (ToolError
                    "Parameter `new_str` is required for command: insert"), s)
        end
      else if String.eqb (command params) "undo_edit" then
        undoEdit fs (path params) s
      else
        (Rejected (ToolError ("Unrecognized command: " +:+ command params)), s)
  end.

(** A file system held in memory: a file exists when it has a content, a
    write fails on a path marked read-only, every path is valid, and
    [view] returns the content as it is. *)
Record MemoryFiles : Type := mkMemoryFiles {
  contents : list (string * string);
  read_only : list string
}.

Definition memory_fs : FileSystem MemoryFiles :=
  {| fs_readFile := fun p f =>
       match js_map_get p (contents f) with
       | Some c => inl c
       | None => inr "Error: ENOENT: no such file or directory"%string
       end;
     fs_writeFile := fun p c f =>
       if existsb (String.eqb p) (read_only f)
       then (Some "Error: EACCES: permission denied"%string, f)
       else (None, {| contents := js_map_set p c (contents f);
                      read_only := read_only f |});
     validatePath := fun _ _ _ => None;
     view := fun p _ f =>
       match js_map_get p (contents f) with
       | Some c => Resolved (CLIResult c)
       | None => Rejected (ToolError "Error reading file: ENOENT")
       end |}.

Definition notes_state : EditorState MemoryFiles :=
  {| files := {| contents := [("/notes.txt"%string,
                               "alpha" +:+ String line_feed "beta"
                               +:+ String line_feed "gamma")];
                 read_only := ["/etc/hosts"%string] |};
     fileHistory := [] |}.

(** The character [c] occurs in [s]. *)
Fixpoint string_has (c : ascii) (s : string) : bool :=
  match s with
  | EmptyString => false
  | String x rest => Ascii.eqb x c || string_has c rest
  end.

(** The history that [fileHistory] holds for a path: empty when the path
    has no entry. *)
Definition history_of {F : Type} (filePath : string) (s : EditorState F)
  : list string :=
  default [] (js_map_get filePath (fileHistory s)).

(** The lines of a content. *)
Definition lines_of (content : string) : list string :=
  js_split_char line_feed content.

Definition unlines (lines : list string) : string :=
  js_join (String line_feed EmptyString) lines.

(** The parameters of a [create] and of an [undo_edit] request. *)
Definition create_params (p text : string) : EditParams :=
  {| command := "create"; path := p; file_text := Some text;
     view_range := None; old_str := None; new_str := None;
     insert_line := None |}.

Definition undo_params (p : string) : EditParams :=
  {| command := "undo_edit"; path := p; file_text := None;
     view_range := None; old_str := None; new_str := None;
     insert_line := None |}.

(* ===================================================================== *)
(** ** The image filter: what one call removes *)
(* ===================================================================== *)

Section Walk.
Context {A I : Type} (img : A -> list I) (f : Z -> A -> A * Z).

Lemma walk_deletes_oldest :
  deletes_oldest img f -> deletes_oldest (flat_map img) (walk f).
Proof.
  intros Hf n l. revert n.
  induction l as [|x rest IH]; intros n Hn; simpl.
  - rewrite drop_nil. split; [reflexivity | lia].
  - destruct (Hf n x Hn) as [Himg Hcnt].
    destruct (f n x) as [x' n1] eqn:Ef. simpl in Himg, Hcnt.
    assert (Hn1 : (0 <= n1)%Z) by lia.
    destruct (IH n1 Hn1) as [Hrest Hcnt'].
    destruct (walk f n1 rest) as [rest' n2] eqn:Ew. simpl in *.
    rewrite Himg, Hrest, skipn_app, length_app. split.
    + f_equal. f_equal. lia.
    + lia.
Qed.

Lemma walk_leaves_imageless :
  leaves_imageless img f -> leaves_imageless (flat_map img) (walk f).
Proof.
  intros Hf n l. revert n.
  induction l as [|x rest IH]; intros n Hl; simpl in *.
  - reflexivity.
  - apply app_eq_nil in Hl as [Hx Hrest].
    rewrite (Hf n x Hx), (IH n Hrest). reflexivity.
Qed.

Lemma walk_zero :
  (forall n x, (n <= 0)%Z -> f n x = (x, n)) ->
  forall n l, (n <= 0)%Z -> walk f n l = (l, n).
Proof.
  intros Hf n l Hn. induction l as [|x rest IH]; simpl.
  - reflexivity.
  - rewrite (Hf n x Hn), IH. reflexivity.
Qed.

Lemma walk_related (R : A -> A -> Prop) :
  (forall n x, R x (fst (f n x))) ->
  forall n l, Forall2 R l (fst (walk f n l)).
Proof.
  intros Hf n l. revert n. induction l as [|x rest IH]; intros n; simpl.
  - constructor.
  - specialize (Hf n x). destruct (f n x) as [x' n1]. simpl in Hf.
    specialize (IH n1). destruct (walk f n1 rest) as [rest' n2].
    simpl in *. constructor; assumption.
Qed.
End Walk.

Lemma filter_content_deletes_oldest :
  deletes_oldest (List.filter is_image) filter_content.
Proof.
  intros n items. revert n.
  induction items as [|item rest IH]; intros n Hn; simpl.
  - rewrite drop_nil. split; [reflexivity | lia].
  - destruct (is_image item) eqn:Eimg; simpl.
    + destruct (0 <? n)%Z eqn:Epos.
      * apply Z.ltb_lt in Epos.
        destruct (IH (n - 1)%Z ltac:(lia)) as [H1 H2].
        rewrite H1, H2. split.
        -- replace (Z.to_nat n) with (S (Z.to_nat (n - 1))) by lia.
           reflexivity.
        -- lia.
      * apply Z.ltb_ge in Epos. assert (n = 0%Z) by lia. subst n.
        destruct (IH 0%Z ltac:(lia)) as [H1 H2].
        destruct (filter_content 0 rest) as [kept m]. simpl in *.
        rewrite Eimg, H1. simpl. rewrite drop_0. split; [reflexivity | lia].
    + destruct (IH n Hn) as [H1 H2].
      destruct (filter_content n rest) as [kept m]. simpl in *.
      rewrite Eimg. split; [assumption | lia].
Qed.

Lemma filter_content_zero n items :
  (n <= 0)%Z -> filter_content n items = (items, n).
Proof.
  intros Hn. induction items as [|item rest IH]; simpl.
  - reflexivity.
  - replace (0 <? n)%Z with false by (symmetry; apply Z.ltb_ge; lia).
    rewrite andb_false_r, IH. reflexivity.
Qed.

Lemma filter_content_imageless :
  leaves_imageless (List.filter is_image) filter_content.
Proof.
  intros n items. induction items as [|item rest IH]; simpl; intros Hno.
  - reflexivity.
  - destruct (is_image item) eqn:Eimg; [discriminate |].
    simpl. rewrite (IH Hno). reflexivity.
Qed.

Lemma filter_content_trimmed n items :
  items_trimmed items (fst (filter_content n items)).
Proof.
  revert n. induction items as [|item rest IH]; intros n; simpl.
  - constructor.
  - destruct (is_image item && (0 <? n)%Z) eqn:E.
    + apply andb_true_iff in E as [Eimg _].
      destruct item; [discriminate |]. constructor. apply IH.
    + specialize (IH n). destruct (filter_content n rest) as [kept m].
      simpl in *. constructor. exact IH.
Qed.

Lemma items_trimmed_refl items : items_trimmed items items.
Proof. induction items; constructor; assumption. Qed.

Lemma block_trimmed_refl b : block_trimmed b b.
Proof.
  destruct b as [| | |r]; simpl; try reflexivity.
  repeat split. destruct (content r); try reflexivity.
  apply items_trimmed_refl.
Qed.

Lemma message_trimmed_refl m : message_trimmed m m.
Proof.
  split; [reflexivity |]. destruct (message_content m); [reflexivity |].
  induction blocks; constructor; [apply block_trimmed_refl | assumption].
Qed.

Lemma conversation_trimmed_refl messages :
  conversation_trimmed messages messages.
Proof.
  induction messages; constructor; [apply message_trimmed_refl | assumption].
Qed.

(** *** Blocks *)

Lemma tool_result_eta r items :
  content r = ContentArray items ->
  {| tool_use_id := tool_use_id r; content := ContentArray items;
     is_error := is_error r |} = r.
Proof. destruct r; simpl; intros ->; reflexivity. Qed.

Lemma filter_block_deletes_oldest : deletes_oldest block_images filter_block.
Proof.
  intros n b Hn. unfold filter_block, block_images.
  destruct b as [| | |r]; simpl; try (rewrite drop_nil; split; [reflexivity | lia]).
  unfold content_items.
  destruct (content r) as [| |items] eqn:Ec; simpl;
    try (rewrite Ec, drop_nil; split; [reflexivity | lia]).
  destruct (filter_content_deletes_oldest n items Hn) as [H1 H2].
  destruct (filter_content n items) as [kept m]. simpl in *.
  split; assumption.
Qed.

Lemma filter_block_imageless : leaves_imageless block_images filter_block.
Proof.
  intros n b. unfold filter_block, block_images.
  destruct b as [| | |r]; simpl; try reflexivity.
  unfold content_items. destruct (content r) as [| |items] eqn:Ec; try reflexivity.
  intros Hno. rewrite (filter_content_imageless n items Hno).
  rewrite (tool_result_eta r items Ec). reflexivity.
Qed.

Lemma filter_block_zero n b : (n <= 0)%Z -> filter_block n b = (b, n).
Proof.
  intros Hn. unfold filter_block. destruct b as [| | |r]; try reflexivity.
  destruct (content r) as [| |items] eqn:Ec; try reflexivity.
  rewrite (filter_content_zero n items Hn), (tool_result_eta r items Ec).
  reflexivity.
Qed.

Lemma filter_block_trimmed n b : block_trimmed b (fst (filter_block n b)).
Proof.
  unfold filter_block. destruct b as [| | |r]; try apply block_trimmed_refl.
  destruct (content r) as [| |items] eqn:Ec;
    try apply block_trimmed_refl.
  pose proof (filter_content_trimmed n items) as Ht.
  destruct (filter_content n items) as [kept m]. simpl in *.
  rewrite Ec. repeat split. exact Ht.
Qed.

(** *** Messages *)

Lemma filter_message_deletes_oldest :
  deletes_oldest message_images filter_message.
Proof.
  intros n m Hn. unfold filter_message, message_images, content_blocks.
  destruct (message_content m) as [s|bs] eqn:Ec.
  - simpl. rewrite Ec. simpl. rewrite drop_nil. split; [reflexivity | lia].
  - destruct (walk_deletes_oldest block_images filter_block
                filter_block_deletes_oldest n bs Hn) as [H1 H2].
    destruct (walk filter_block n bs) as [bs' n']. simpl in *.
    split; assumption.
Qed.

Lemma message_eta m c :
  message_content m = c -> {| role := role m; message_content := c |} = m.
Proof. destruct m; simpl; intros ->; reflexivity. Qed.

Lemma filter_message_imageless :
  leaves_imageless message_images filter_message.
Proof.
  intros n m. unfold filter_message, message_images, content_blocks.
  destruct (message_content m) as [s|bs] eqn:Ec; [reflexivity |].
  intros Hno.
  rewrite (walk_leaves_imageless block_images filter_block
             filter_block_imageless n bs Hno).
  rewrite (message_eta m _ Ec). reflexivity.
Qed.

Lemma filter_message_zero n m : (n <= 0)%Z -> filter_message n m = (m, n).
Proof.
  intros Hn. unfold filter_message.
  destruct (message_content m) as [s|bs] eqn:Ec; [reflexivity |].
  rewrite (walk_zero filter_block filter_block_zero n bs Hn).
  rewrite (message_eta m _ Ec). reflexivity.
Qed.

Lemma filter_message_trimmed n m : message_trimmed m (fst (filter_message n m)).
Proof.
  unfold filter_message.
  destruct (message_content m) as [s|bs] eqn:Ec; [apply message_trimmed_refl |].
  pose proof (walk_related filter_block block_trimmed
                (fun n b => filter_block_trimmed n b) n bs) as Ht.
  destruct (walk filter_block n bs) as [bs' n']. simpl in *.
  split; [reflexivity |]. simpl. rewrite Ec. exact Ht.
Qed.

(** *** The whole conversation *)

Lemma fold_count_images (l : list BetaToolResultBlockParam) (acc : Z) :
  fold_left
    (fun count result =>
       (count + Z.of_nat (length (List.filter is_image (content_items result))))%Z)
    l acc
  = (acc + Z.of_nat (length (flat_map
             (fun r => List.filter is_image (content_items r)) l)))%Z.
Proof.
  revert acc. induction l as [|r l IH]; intros acc; simpl.
  - lia.
  - rewrite IH, length_app. lia.
Qed.

Lemma images_of_tool_results (bs : list ContentBlock) :
  flat_map (fun r => List.filter is_image (content_items r))
           (omap is_tool_result bs)
  = flat_map block_images bs.
Proof.
  induction bs as [|b bs IH]; [reflexivity |].
  destruct b; cbn; rewrite <- IH; reflexivity.
Qed.

Lemma flat_map_flat_map {A B C : Type} (f : A -> list B) (g : B -> list C)
    (l : list A) :
  flat_map g (flat_map f l) = flat_map (fun x => flat_map g (f x)) l.
Proof.
  induction l as [|x l IH]; simpl; [reflexivity |].
  rewrite flat_map_app, IH. reflexivity.
Qed.

Lemma totalImages_all_images messages :
  totalImages messages = Z.of_nat (length (all_images messages)).
Proof.
  unfold totalImages, toolResultBlocks. rewrite fold_count_images.
  rewrite images_of_tool_results, flat_map_flat_map. reflexivity.
Qed.

Lemma totalImages_nonneg messages : (0 <= totalImages messages)%Z.
Proof. rewrite totalImages_all_images. lia. Qed.

Lemma walk_messages_images n messages :
  (0 <= n)%Z ->
  all_images (fst (walk filter_message n messages))
  = drop (Z.to_nat n) (all_images messages).
Proof.
  intros Hn.
  apply (walk_deletes_oldest message_images filter_message
           filter_message_deletes_oldest n messages Hn).
Qed.

(** The images that survive a call of the filter are the original ones
    without the first [removal_target]. *)
Lemma filter_all_images messages keep batch :
  all_images (filterNMostRecentImages messages keep batch)
  = drop (Z.to_nat (removal_target (totalImages messages) keep batch))
         (all_images messages).
Proof.
  unfold filterNMostRecentImages, removal_target.
  destruct (js_rem (totalImages messages - keep) batch) as [r|]; simpl.
  - destruct (totalImages messages - keep - r <=? 0)%Z eqn:E.
    + apply Z.leb_le in E.
      replace (Z.max 0 (totalImages messages - keep - r)) with 0%Z by lia.
      reflexivity.
    + apply Z.leb_gt in E. rewrite walk_messages_images by lia.
      f_equal. lia.
  - reflexivity.
Qed.

Lemma removal_target_nonneg total keep batch :
  (0 <= removal_target total keep batch)%Z.
Proof. unfold removal_target. destruct (js_rem _ _); lia. Qed.

Lemma filter_totalImages messages keep batch :
  totalImages (filterNMostRecentImages messages keep batch)
  = Z.max 0 (totalImages messages
             - removal_target (totalImages messages) keep batch).
Proof.
  pose proof (totalImages_all_images messages) as Ht.
  pose proof (removal_target_nonneg (totalImages messages) keep batch).
  rewrite (totalImages_all_images (filterNMostRecentImages _ _ _)).
  rewrite filter_all_images, length_drop. lia.
Qed.

Lemma filter_conversation_trimmed messages keep batch :
  conversation_trimmed messages (filterNMostRecentImages messages keep batch).
Proof.
  unfold filterNMostRecentImages.
  destruct (js_rem _ _) as [r|]; [| apply conversation_trimmed_refl].
  destruct (_ <=? 0)%Z; [apply conversation_trimmed_refl |].
  apply walk_related. intros n m. apply filter_message_trimmed.
Qed.

(** The filter returns a conversation as it is when it has nothing to
    delete, or nothing to delete from. *)
Lemma filter_no_target messages keep batch :
  removal_target (totalImages messages) keep batch = 0%Z ->
  filterNMostRecentImages messages keep batch = messages.
Proof.
  unfold filterNMostRecentImages, removal_target.
  destruct (js_rem _ _) as [r|]; [| reflexivity].
  intros H. replace (_ <=? 0)%Z with true; [reflexivity |].
  symmetry. apply Z.leb_le. lia.
Qed.

Lemma filter_imageless messages keep batch :
  all_images messages = [] ->
  filterNMostRecentImages messages keep batch = messages.
Proof.
  intros Hno. unfold filterNMostRecentImages.
  destruct (js_rem _ _) as [r|]; [| reflexivity].
  destruct (_ <=? 0)%Z; [reflexivity |].
  rewrite (walk_leaves_imageless message_images filter_message
             filter_message_imageless _ messages Hno).
  reflexivity.
Qed.

(** *** Arithmetic of the rounding *)

Lemma removal_target_multiple total keep batch :
  (batch | removal_target total keep batch)%Z.
Proof.
  unfold removal_target, js_rem.
  destruct (batch =? 0)%Z eqn:Eb; [apply Z.divide_0_r |].
  apply Z.eqb_neq in Eb.
  pose proof (Z.quot_rem' (total - keep) batch) as Hqr.
  destruct (Z.max_spec 0 (total - keep - Z.rem (total - keep) batch))
    as [[_ ->] | [_ ->]].
  - exists ((total - keep) ÷ batch)%Z. lia.
  - apply Z.divide_0_r.
Qed.

Lemma removal_target_bounds total keep batch :
  (1 <= batch)%Z ->
  let excess := (total - keep)%Z in
  (excess <= 0 -> removal_target total keep batch = 0)%Z /\
  (0 < excess ->
   removal_target total keep batch = excess - Z.rem excess batch /\
   0 <= Z.rem excess batch < batch)%Z.
Proof.
  intros Hb excess. unfold removal_target, js_rem. fold excess.
  replace (batch =? 0)%Z with false by (symmetry; apply Z.eqb_neq; lia).
  split.
  - intros He.
    pose proof (Z.rem_nonpos excess batch ltac:(lia) ltac:(lia)) as Hr.
    pose proof (Z.quot_rem' excess batch) as Hqr.
    assert (Hq : (excess ÷ batch <= 0)%Z).
    { apply Z.quot_le_upper_bound; lia. }
    nia.
  - intros He.
    pose proof (Z.rem_bound_pos excess batch ltac:(lia) ltac:(lia)) as Hr.
    pose proof (Z.rem_le excess batch ltac:(lia) ltac:(lia)) as Hle.
    split; lia.
Qed.

Lemma removal_target_stable total keep batch :
  let n := removal_target total keep batch in
  (n <= total)%Z ->
  removal_target (total - n) keep batch = 0%Z.
Proof.
  intros n Hn. subst n. unfold removal_target, js_rem in *.
  destruct (batch =? 0)%Z eqn:Eb; [reflexivity |].
  apply Z.eqb_neq in Eb.
  set (excess := (total - keep)%Z) in *.
  destruct (Z.max_spec 0 (excess - Z.rem excess batch)) as [[Hlt Hm] | [Hge Hm]];
    rewrite Hm in *.
  - replace (total - (excess - Z.rem excess batch) - keep)%Z
      with (Z.rem excess batch) by (unfold excess; lia).
    rewrite Z.rem_rem by assumption. lia.
  - replace (total - 0 - keep)%Z with excess by (unfold excess; lia). lia.
Qed.

(** A second call of the filter with the same parameters changes
    nothing, whatever the parameters. *)
Lemma filter_idempotent messages keep batch :
  filterNMostRecentImages
    (filterNMostRecentImages messages keep batch) keep batch
  = filterNMostRecentImages messages keep batch.
Proof.
  set (once := filterNMostRecentImages messages keep batch).
  set (n := removal_target (totalImages messages) keep batch).
  destruct (Z_le_gt_dec n (totalImages messages)) as [Hle | Hgt].
  - apply filter_no_target. unfold once. rewrite filter_totalImages.
    fold n. replace (Z.max 0 (totalImages messages - n))
      with (totalImages messages - n)%Z by lia.
    apply removal_target_stable. exact Hle.
  - apply filter_imageless. unfold once. rewrite filter_all_images. fold n.
    apply drop_ge. rewrite totalImages_all_images in Hgt. lia.
Qed.

(* ===================================================================== *)
(** ** Properties of the image filter *)
(* ===================================================================== *)

Example conversation25_filtered :
  filterNMostRecentImages conversation25 10 10
  = [opening; request_message "a";
     {| role := user;
        message_content := Blocks
          [ToolResultBlock {| tool_use_id := "a";
                              content := ContentArray [TextItem "done"];
                              is_error := Some false |}] |};
     request_message "b"; result_message "b" 10 5;
     request_message "c"; result_message "c" 15 10].
Proof. vm_compute. reflexivity. Qed.

Example conversation5_unchanged :
  filterNMostRecentImages conversation5 10 10 = conversation5.
Proof. vm_compute. reflexivity. Qed.

Lemma removed_by_filter_eq messages keep batch :
  removed_by_filter messages keep batch
  = Z.min (totalImages messages)
          (removal_target (totalImages messages) keep batch).
Proof.
  unfold removed_by_filter. rewrite filter_totalImages.
  pose proof (removal_target_nonneg (totalImages messages) keep batch).
  lia.
Qed.

(** C5, as stated, fails: a conversation of 5 images filtered with keep = 10
    and a batch of 10 loses no image, and 0 is not at most 5 - 10. *)
Lemma trimmer_bound_literal_fails :
  (0 <= 10)%Z /\ (1 <= 10)%Z /\
  totalImages conversation5 = 5%Z /\
  removed_by_filter conversation5 10 10 = 0%Z /\
  ~ trimmer_bound_literal conversation5 10 10.
Proof.
  repeat split; try lia; try reflexivity.
  unfold trimmer_bound_literal. vm_compute. intros (_ & _ & H). apply H.
  reflexivity.
Qed.

(** C5, amended: for keep >= 0 and minRemovalBatch >= 1, one call of the
    filter removes a number of images that is a non-negative multiple of
    minRemovalBatch and at most max(0, priorCount - keep); it is the excess
    priorCount - keep rounded down to a multiple of the batch when that is
    positive, and zero otherwise.  With 25 images, keep = 10 and a batch of
    10, 15 images remain. *)
Theorem trimmer_bound (messages : list BetaMessageParam) (keep batch : Z) :
  (0 <= keep)%Z -> (1 <= batch)%Z ->
  let prior := totalImages messages in
  let post := totalImages (filterNMostRecentImages messages keep batch) in
  let excess := (prior - keep)%Z in
  let rounded := (excess - Z.rem excess batch)%Z in
  (0 <= prior - post)%Z /\
  (batch | prior - post)%Z /\
  (prior - post <= Z.max 0 excess)%Z /\
  (rounded <= 0 -> prior - post = 0)%Z /\
  (0 < rounded -> prior - post = rounded)%Z /\
  (prior = 25 -> keep = 10 -> batch = 10 -> post = 15)%Z.
Proof.
  intros Hk Hb prior post excess rounded.
  pose proof (removed_by_filter_eq messages keep batch) as Hrem.
  unfold removed_by_filter in Hrem. fold prior post in Hrem.
  pose proof (totalImages_nonneg messages) as Hprior. fold prior in Hprior.
  pose proof (removal_target_multiple prior keep batch) as Hdiv.
  destruct (removal_target_bounds prior keep batch Hb) as [Hneg Hpos].
  fold excess in Hneg, Hpos.
  destruct (Z_le_gt_dec excess 0) as [He | He].
  - specialize (Hneg He). rewrite Hneg in Hrem.
    assert (Hz : (prior - post = 0)%Z) by lia. rewrite Hz.
    pose proof (Z.rem_nonpos excess batch ltac:(lia) ltac:(lia)) as Hr.
    pose proof (Z.quot_rem' excess batch) as Hqr.
    assert (Hq : (excess ÷ batch <= 0)%Z)
      by (apply Z.quot_le_upper_bound; lia).
    assert (Hround : (rounded <= 0)%Z) by (subst rounded; nia).
    split; [lia |]. split; [apply Z.divide_0_r |]. split; [lia |].
    split; [reflexivity |]. split; [intros; lia |]. intros; lia.
  - destruct (Hpos ltac:(lia)) as [Htarget Hr].
    pose proof (Z.rem_le excess batch ltac:(lia) ltac:(lia)) as Hle.
    assert (Hsame : (prior - post = rounded)%Z)
      by (unfold rounded, excess in *; lia).
    rewrite Hsame. rewrite Htarget in Hdiv. fold rounded in Hdiv.
    split; [subst rounded; lia |]. split; [exact Hdiv |].
    split; [subst rounded; lia |]. split; [intros; lia |].
    split; [reflexivity |].
    intros Hp Hkeep Hbatch.
    assert (Hex : excess = 15%Z) by (unfold excess; lia).
    unfold rounded in Hsame.
    rewrite Hex, Hbatch in Hsame. change (Z.rem 15 10) with 5%Z in Hsame. lia.
Qed.

Lemma trimmer_bound_witness :
  (0 <= 10)%Z /\ (1 <= 10)%Z /\
  (totalImages conversation25
   - totalImages (filterNMostRecentImages conversation25 10 10)
   <= Z.max 0 (totalImages conversation25 - 10))%Z.
Proof.
  split; [lia |]. split; [lia |].
  exact (proj1 (proj2 (proj2
           (trimmer_bound conversation25 10 10 ltac:(lia) ltac:(lia))))).
Defined.

(** C6: a second call of the filter with the same parameters returns its
    argument (for all parameters); the images left after a call are the
    original ones without the oldest, in the order of the conversation,
    and nothing but images is deleted; for keep >= 0 and
    minRemovalBatch >= 1 the number of images left is at most
    keep + (minRemovalBatch - 1), and at least keep unless the conversation
    had fewer than keep images. *)
Theorem trimmer_idempotent (messages : list BetaMessageParam) (keep batch : Z) :
  let once := filterNMostRecentImages messages keep batch in
  filterNMostRecentImages once keep batch = once /\
  all_images once
  = drop (Z.to_nat (removed_by_filter messages keep batch))
         (all_images messages) /\
  conversation_trimmed messages once /\
  ((0 <= keep)%Z -> (1 <= batch)%Z ->
   (totalImages once <= keep + (batch - 1))%Z /\
   ((keep <= totalImages messages)%Z -> (keep <= totalImages once)%Z)).
Proof.
  intros once. split; [apply filter_idempotent |].
  split; [| split; [apply filter_conversation_trimmed |]].
  - unfold once. rewrite filter_all_images, removed_by_filter_eq.
    pose proof (removal_target_nonneg (totalImages messages) keep batch) as Hn.
    pose proof (totalImages_all_images messages) as Ht.
    destruct (Z_le_gt_dec (removal_target (totalImages messages) keep batch)
                          (totalImages messages)) as [Hle | Hgt].
    + f_equal. lia.
    + rewrite !drop_ge by lia. reflexivity.
  - intros Hk Hb. unfold once. rewrite filter_totalImages.
    pose proof (totalImages_nonneg messages) as Hprior.
    destruct (removal_target_bounds (totalImages messages) keep batch Hb)
      as [Hneg Hpos].
    destruct (Z_le_gt_dec (totalImages messages - keep) 0) as [He | He].
    + rewrite (Hneg He). lia.
    + destruct (Hpos ltac:(lia)) as [-> Hr]. lia.
Qed.

Lemma trimmer_idempotent_witness :
  (totalImages (filterNMostRecentImages conversation25 10 10)
   <= 10 + (10 - 1))%Z /\
  (10 <= totalImages (filterNMostRecentImages conversation25 10 10))%Z.
Proof.
  destruct (trimmer_idempotent conversation25 10 10) as (_ & _ & _ & H).
  destruct (H ltac:(lia) ltac:(lia)) as [Hup Hlow].
  split; [exact Hup |]. apply Hlow. vm_compute. discriminate.
Defined.

(* ===================================================================== *)
(** ** The result assembler *)
(* ===================================================================== *)

Lemma truthy_Some s : s <> EmptyString -> truthy (Some s) = true.
Proof.
  intros Hs. simpl. destruct (String.eqb_spec s EmptyString); [contradiction | reflexivity].
Qed.

Lemma truthy_true s : truthy s = true -> exists x, s = Some x /\ x <> EmptyString.
Proof.
  destruct s as [x|]; simpl; [| discriminate].
  destruct (String.eqb_spec x EmptyString); [discriminate |]. eauto.
Qed.

(** C7: the assembled block carries the request id.  A field is set when
    the source's test of it succeeds, that is, when it holds a string that
    is not empty.  If the error is set, the block is an error whose content
    is the one text item holding the error.  Otherwise the block is not an
    error, and its content is the text item of the output if the output is
    set, followed by the image item if the image is set: [text; image] when
    both are, and the empty content when neither is. *)
Theorem assembler_content (result : ToolResult) (toolUseId : string) :
  let block := makeApiToolResult result toolUseId in
  let text_of := fun s => TextItem (maybePrependSystemToolResult result (field s)) in
  let image := ImageItem (js_or (mediaType result) "image/png")
                         (field (base64Image result)) in
  tool_use_id block = toolUseId /\
  (truthy (error result) = true ->
     is_error block = Some true /\
     content block = ContentArray [text_of (error result)]) /\
  (truthy (error result) = false ->
     is_error block = Some false /\
     content block
     = ContentArray
         ((if truthy (output result) then [text_of (output result)] else [])
          ++ (if truthy (base64Image result) then [image] else []))) /\
  (truthy (error result) = false ->
   truthy (output result) = true -> truthy (base64Image result) = true ->
     content block = ContentArray [text_of (output result); image]) /\
  (truthy (error result) = false ->
   truthy (output result) = false -> truthy (base64Image result) = false ->
     is_error block = Some false /\ content block = ContentArray []).
Proof.
  cbv zeta. unfold makeApiToolResult.
  split; [destruct (truthy (error result)); reflexivity |].
  split; [| split; [| split]].
  - intros ->. split; reflexivity.
  - intros ->. simpl.
    destruct (truthy (output result)), (truthy (base64Image result));
      split; reflexivity.
  - intros -> -> ->. reflexivity.
  - intros -> -> ->. split; reflexivity.
Qed.

Lemma assembler_content_witness :
  content (makeApiToolResult
             {| output := Some "hi"; error := None;
                base64Image := Some "iVBORw0KGgo="; system := None;
                mediaType := None |} "toolu_01")
  = ContentArray [TextItem "hi"; ImageItem "image/png" "iVBORw0KGgo="].
Proof.
  refine (proj1 (proj2 (proj2 (proj2
            (assembler_content
               {| output := Some "hi"; error := None;
                  base64Image := Some "iVBORw0KGgo="; system := None;
                  mediaType := None |} "toolu_01")))) _ _ _);
    reflexivity.
Defined.

Example error_wins_over_output :
  makeApiToolResult
    {| output := Some "partial"; error := Some "disk full";
       base64Image := Some "iVBORw0KGgo="; system := None;
       mediaType := None |} "toolu_01"
  = {| tool_use_id := "toolu_01";
       content := ContentArray [TextItem "disk full"];
       is_error := Some true |}.
Proof. reflexivity. Qed.

(** The conditions of [makeApiToolResult] test truthiness: a field that
    holds the empty string counts as not set. *)
Example empty_error_is_no_error :
  makeApiToolResult
    {| output := Some "ok"; error := Some EmptyString; base64Image := None;
       system := Some EmptyString; mediaType := None |} "toolu_01"
  = {| tool_use_id := "toolu_01"; content := ContentArray [TextItem "ok"];
       is_error := Some false |}.
Proof. reflexivity. Qed.

(** C10: with a system note set (a string that is not empty), the text is
    the note between the markers, a newline, and the original text; without
    one the text is returned as it is.  The text item of an assembled
    block holds the error, or else the output, passed through this
    function, and the image item holds the image data as they are. *)
Theorem system_note_prepended (result : ToolResult) (toolUseId text : string) :
  (truthy (system result) = true ->
     maybePrependSystemToolResult result text
     = "<system>" +:+ field (system result) +:+ "</system>" +:+ newline
       +:+ text) /\
  (truthy (system result) = false ->
     maybePrependSystemToolResult result text = text) /\
  text_items (makeApiToolResult result toolUseId)
  = (if truthy (error result)
     then [maybePrependSystemToolResult result (field (error result))]
     else if truthy (output result)
     then [maybePrependSystemToolResult result (field (output result))]
     else []) /\
  (forall media_type data,
     In (ImageItem media_type data)
        (content_items (makeApiToolResult result toolUseId)) ->
     base64Image result = Some data /\
     media_type = js_or (mediaType result) "image/png").
Proof.
  split; [| split; [| split]].
  - intros Hs. unfold maybePrependSystemToolResult. rewrite Hs. reflexivity.
  - intros Hs. unfold maybePrependSystemToolResult. rewrite Hs. reflexivity.
  - unfold makeApiToolResult.
    destruct (truthy (error result)); [reflexivity |].
    destruct (truthy (output result)), (truthy (base64Image result));
      reflexivity.
  - intros media_type data. unfold makeApiToolResult.
    destruct (truthy (error result)) eqn:Ee; simpl.
    + intros [H | []]. discriminate.
    + destruct (truthy (base64Image result)) eqn:Ei.
      * apply truthy_true in Ei as (i & Hi & _). rewrite Hi.
        destruct (truthy (output result)); simpl;
          intros H; repeat (destruct H as [H | H]; try discriminate);
          try contradiction; inversion H; subst; split; reflexivity.
      * destruct (truthy (output result)); simpl;
          intros H; repeat (destruct H as [H | H]; try discriminate);
          contradiction.
Qed.

Lemma system_note_prepended_witness :
  maybePrependSystemToolResult
    {| output := Some "12 files"; error := None; base64Image := None;
       system := Some "tool restarted"; mediaType := None |} "12 files"
  = String.append "<system>tool restarted</system>"
      (String (ascii_of_nat 10) "12 files").
Proof.
  refine (proj1 (system_note_prepended
            {| output := Some "12 files"; error := None; base64Image := None;
               system := Some "tool restarted"; mediaType := None |}
            "toolu_01" "12 files") _).
  reflexivity.
Defined.

(* ===================================================================== *)
(** ** The tool collection and the loop: one step at a time *)
(* ===================================================================== *)

Section LoopFacts.
Context {W : Type}.
Implicit Types (st : State W) (this : SamplingLoop W).

(** [ToolCollection.run] always returns a result.  It is the failure
    naming the tool when the name is not registered, the tool's own result
    when the tool returns one, and a failure carrying the message of the
    exception when the tool throws. *)
Lemma ToolCollection_run_returns (tc : ToolCollection W) name input st :
  exists result st',
    ToolCollection_run tc name input st = (Normal result, st') /\
    same_but_world st st' /\
    match toolMap tc !! name with
    | None =>
        result = ToolFailure ("Tool " +:+ name +:+ " is invalid") /\
        world st' = world st
    | Some tool =>
        world st' = snd (execute tool input (world st)) /\
        match fst (execute tool input (world st)) with
        | Resolved r => result = r
        | Rejected (ToolError message) => result = ToolFailure message
        | Rejected (OtherError rendered) =>
            result = ToolFailure ("Unknown error: " +:+ rendered)
        end
    end.
Proof.
  unfold ToolCollection_run.
  destruct (toolMap tc !! name) as [tool|].
  - unfold try_catch, await_execute.
    destruct (execute tool input (world st)) as [settled w].
    destruct settled as [r | [message | rendered]]; simpl;
      eexists _, _; (split; [reflexivity |]);
      (split; [repeat split |]); simpl; split; reflexivity.
  - exists (ToolFailure ("Tool " +:+ name +:+ " is invalid")), st.
    split; [reflexivity |]. split; [repeat split |]. split; reflexivity.
Qed.

(** The loop over the blocks of a response always runs to its end: it
    adds one result for each tool_use block, in order and under the id of
    the request, and leaves the arrays alone. *)
Lemma for_blocks_completes this blocks acc st :
  exists results st',
    for_blocks this blocks acc st = (Normal (acc ++ results), st') /\
    map tool_use_id results = tool_use_ids blocks /\
    arrays st' = arrays st /\ api_calls st' = api_calls st /\
    sent_conversations (trace st') = sent_conversations (trace st).
Proof.
  revert acc st. induction blocks as [|block rest IH]; intros acc st.
  - exists [], st. simpl. rewrite app_nil_r. repeat split; reflexivity.
  - cbn [for_blocks]. unfold bind at 1. unfold emit at 1.
    set (st1 := {| arrays := arrays st; world := world st;
                   api_calls := api_calls st;
                   trace := trace st ++ [EvOutput block] |}).
    assert (Hsent1 : sent_conversations (trace st1)
                     = sent_conversations (trace st)).
    { simpl. unfold sent_conversations. rewrite omap_app. simpl.
      apply app_nil_r. }
    destruct block as [text | media_type data | id name input | r].
    1, 2, 4:
      unfold bind at 1; unfold ret at 1;
      destruct (IH acc st1) as (results & st' & Hrun & Hids & Ha & Hc & Ht);
      exists results, st'; split; [exact Hrun |];
      split; [exact Hids |]; split; [exact Ha |]; split; [exact Hc |];
      rewrite Ht; exact Hsent1.
    unfold bind at 1. unfold bind at 1.
    destruct (ToolCollection_run_returns (toolCollection this) name input st1)
      as (result & st2 & Hrun2 & (Ha2 & Hc2 & Ht2) & _).
    rewrite Hrun2. unfold bind at 1. unfold emit at 1. unfold ret at 1.
    set (st3 := {| arrays := arrays st2; world := world st2;
                   api_calls := api_calls st2;
                   trace := trace st2 ++ [EvToolOutput result id] |}).
    destruct (IH (acc ++ [makeApiToolResult result id]) st3)
      as (results & st' & Hrun & Hids & Ha & Hc & Ht).
    exists (makeApiToolResult result id :: results), st'.
    split.
    { rewrite Hrun. rewrite <- app_assoc. reflexivity. }
    split.
    { cbn. rewrite Hids.
      unfold makeApiToolResult. destruct (truthy (error result)); reflexivity. }
    split; [rewrite Ha; simpl; rewrite Ha2; reflexivity |].
    split; [rewrite Hc; simpl; rewrite Hc2; reflexivity |].
    rewrite Ht. simpl. unfold sent_conversations at 1.
    rewrite omap_app. simpl. rewrite app_nil_r.
    fold (sent_conversations (trace st2)). rewrite Ht2. exact Hsent1.
Qed.

Lemma pushed_same messages m st :
  arrays (pushed messages m st) messages = arrays st messages ++ [m].
Proof. simpl. rewrite Nat.eqb_refl. reflexivity. Qed.

Lemma pushed_other messages m st r :
  r <> messages -> arrays (pushed messages m st) r = arrays st r.
Proof.
  intros Hr. simpl. destruct (Nat.eqb_spec r messages); [contradiction |].
  reflexivity.
Qed.

(** One iteration of the loop when the call of the service fails. *)
Lemma while_true_fails fuel this messages st rendered :
  client this (api_calls st) = ApiFail rendered ->
  exists st',
    while_true (S fuel) this messages st
    = (Abrupt (OtherError rendered), st') /\
    arrays st' = arrays st /\
    api_calls st' = S (api_calls st) /\
    sent_conversations (trace st')
    = sent_conversations (trace st) ++ [arrays st messages].
Proof.
  intros Hfail. cbn [while_true]. unfold bind at 1.
  unfold messages_create. rewrite Hfail.
  eexists. split; [reflexivity |]. simpl.
  repeat split. unfold sent_conversations. rewrite omap_app. reflexivity.
Qed.

(** One iteration of the loop when the service answers: the conversation
    is sent as it stands, the response is appended, its tools are run,
    and the loop returns or goes on with the results appended. *)
Lemma while_true_turn fuel this messages st response :
  client this (api_calls st) = ApiOk response ->
  exists results st',
    map tool_use_id results = tool_use_ids response /\
    arrays st' messages
    = arrays st messages ++ [assistant_message response] /\
    (forall r, r <> messages -> arrays st' r = arrays st r) /\
    api_calls st' = S (api_calls st) /\
    sent_conversations (trace st')
    = sent_conversations (trace st) ++ [arrays st messages] /\
    while_true (S fuel) this messages st
    = if Nat.eqb (length results) 0 then (Normal messages, st')
      else while_true fuel this messages
             (pushed messages (results_message results) st').
Proof.
  intros Hok. cbn [while_true]. unfold bind at 1.
  unfold messages_create at 1. rewrite Hok.
  unfold bind at 1. unfold emit at 1. unfold bind at 1. unfold push at 1.
  unfold bind at 1.
  match goal with
  | |- context [for_blocks this response [] ?s] => set (st2 := s)
  end.
  destruct (for_blocks_completes this response [] st2)
    as (results & st' & Hrun & Hids & Ha & Hc & Ht).
  simpl in Hrun. rewrite Hrun.
  exists results, st'. split; [exact Hids |].
  split; [rewrite Ha; simpl; rewrite Nat.eqb_refl; reflexivity |].
  split.
  { intros r Hr. rewrite Ha. simpl.
    destruct (Nat.eqb_spec r messages); [contradiction | reflexivity]. }
  split; [rewrite Hc; reflexivity |].
  split.
  { rewrite Ht. simpl. unfold sent_conversations.
    rewrite !omap_app. simpl. rewrite app_nil_r. reflexivity. }
  destruct (Nat.eqb (length results) 0); [reflexivity |].
  unfold bind at 1. reflexivity.
Qed.

End LoopFacts.

(* ===================================================================== *)
(** ** The loop as a whole *)
(* ===================================================================== *)

Section LoopInvariant.
Context {W : Type}.
Implicit Types (st : State W) (this : SamplingLoop W).

Lemma pushed_trace messages m st : trace (pushed messages m st) = trace st.
Proof. reflexivity. Qed.

Lemma pushed_api_calls messages m st :
  api_calls (pushed messages m st) = api_calls st.
Proof. reflexivity. Qed.

Lemma results_nonempty (results : list BetaToolResultBlockParam) ids :
  map tool_use_id results = ids ->
  Nat.eqb (length results) 0 = Nat.eqb (length ids) 0.
Proof. intros <-. rewrite length_map. reflexivity. Qed.

(** Whatever the service and the tools do and however the run ends, the
    loop has appended a sequence of answered turns, followed by the final
    response when it returns; and every conversation it has sent consists
    of the conversation at entry and answered turns. *)
Lemma while_true_invariant fuel this messages st :
  exists turns sents,
    answered_turns turns /\
    (forall r, r <> messages ->
       arrays (snd (while_true fuel this messages st)) r = arrays st r) /\
    sent_conversations (trace (snd (while_true fuel this messages st)))
    = sent_conversations (trace st) ++ sents /\
    Forall (fun sent => exists ts,
              sent = arrays st messages ++ ts /\ answered_turns ts) sents /\
    match fst (while_true fuel this messages st) with
    | Normal r =>
        r = messages /\
        exists last,
          tool_use_ids last = [] /\
          arrays (snd (while_true fuel this messages st)) messages
          = arrays st messages ++ turns ++ [assistant_message last]
    | _ =>
        arrays (snd (while_true fuel this messages st)) messages
        = arrays st messages ++ turns
    end.
Proof.
  revert st. induction fuel as [|fuel IH]; intros st.
  - exists [], []. simpl. rewrite !app_nil_r.
    repeat split; constructor.
  - destruct (client this (api_calls st)) as [response | rendered] eqn:Hc.
    + destruct (while_true_turn fuel this messages st response Hc)
        as (results & st1 & Hids & Ha & Hoth & Hcalls & Hsent & Heq).
      rewrite Heq. rewrite (results_nonempty results _ Hids).
      destruct (Nat.eqb (length (tool_use_ids response)) 0) eqn:Elen.
      * exists [], [arrays st messages]. simpl.
        split; [constructor |]. split; [exact Hoth |].
        split; [exact Hsent |].
        split.
        { constructor; [| constructor]. exists []. rewrite app_nil_r.
          split; [reflexivity | constructor]. }
        split; [reflexivity |]. exists response. split; [| exact Ha].
        apply Nat.eqb_eq in Elen. destruct (tool_use_ids response);
          [reflexivity | discriminate].
      * set (st2 := pushed messages (results_message results) st1) in *.
        destruct (IH st2) as (turns & sents & Hturns & Hoth2 & Hsent2 & Hall & Hout).
        assert (Ha2 : arrays st2 messages
                      = arrays st messages
                        ++ [assistant_message response; results_message results]).
        { unfold st2. rewrite pushed_same, Ha, <- app_assoc. reflexivity. }
        assert (Hans : answers (assistant_message response)
                               (results_message results)).
        { exists response, results. repeat split; [| exact Hids].
          intros Hnil. rewrite Hnil in Elen. discriminate. }
        exists (assistant_message response :: results_message results :: turns),
               (arrays st messages :: sents).
        split; [constructor; assumption |].
        split.
        { intros r Hr. rewrite Hoth2 by exact Hr. unfold st2.
          rewrite pushed_other by exact Hr. apply Hoth. exact Hr. }
        split.
        { rewrite Hsent2. unfold st2. rewrite pushed_trace, Hsent.
          rewrite <- app_assoc. reflexivity. }
        split.
        { constructor.
          - exists []. rewrite app_nil_r. split; [reflexivity | constructor].
          - eapply Forall_impl; [exact Hall |].
            intros sent (ts & -> & Hts). rewrite Ha2.
            exists (assistant_message response :: results_message results :: ts).
            split; [rewrite <- app_assoc; reflexivity |].
            constructor; assumption. }
        destruct (fst (while_true fuel this messages st2)).
        -- destruct Hout as [-> (last & Hlast & Hfinal)].
           split; [reflexivity |]. exists last. split; [exact Hlast |].
           rewrite Hfinal, Ha2, <- app_assoc. reflexivity.
        -- rewrite Hout, Ha2, <- app_assoc. reflexivity.
        -- rewrite Hout, Ha2, <- app_assoc. reflexivity.
    + destruct (while_true_fails fuel this messages st rendered Hc)
        as (st1 & Heq & Ha & Hcalls & Hsent).
      rewrite Heq. exists [], [arrays st messages]. simpl.
      split; [constructor |]. split; [intros r _; rewrite Ha; reflexivity |].
      split; [exact Hsent |].
      split.
      { constructor; [| constructor]. exists []. rewrite app_nil_r.
        split; [reflexivity | constructor]. }
      rewrite Ha, app_nil_r. reflexivity.
Qed.

(** The loop returns at the first response without a tool_use block, and
    only there. *)
Lemma while_true_returns this messages fuel : forall n st,
  (forall k, k < n -> requests_tools (client this (api_calls st + k)) = true) ->
  requests_nothing (client this (api_calls st + n)) = true ->
  (fuel <= n -> fst (while_true fuel this messages st) = Unfinished) /\
  (n < fuel ->
   fst (while_true fuel this messages st) = Normal messages /\
   api_calls (snd (while_true fuel this messages st)) = api_calls st + S n).
Proof.
  induction fuel as [|fuel IH]; intros n st Hbefore Hat.
  - split; [reflexivity | lia].
  - destruct n as [|n].
    + split; [lia |]. intros _. rewrite Nat.add_0_r in Hat.
      destruct (client this (api_calls st)) as [response |] eqn:Hc;
        [| discriminate].
      destruct (while_true_turn fuel this messages st response Hc)
        as (results & st1 & Hids & _ & _ & Hcalls & _ & Heq).
      rewrite Heq, (results_nonempty results _ Hids). simpl in Hat.
      rewrite Hat. simpl. split; [reflexivity | lia].
    + pose proof (Hbefore 0 ltac:(lia)) as H0. rewrite Nat.add_0_r in H0.
      destruct (client this (api_calls st)) as [response |] eqn:Hc;
        [| discriminate].
      destruct (while_true_turn fuel this messages st response Hc)
        as (results & st1 & Hids & _ & _ & Hcalls & _ & Heq).
      rewrite Heq, (results_nonempty results _ Hids). simpl in H0.
      apply negb_true_iff in H0. rewrite H0.
      set (st2 := pushed messages (results_message results) st1).
      assert (Hc2 : api_calls st2 = S (api_calls st)) by exact Hcalls.
      destruct (IH n st2) as [Hle Hlt].
      { intros k Hk. rewrite Hc2.
        replace (S (api_calls st) + k) with (api_calls st + S k) by lia.
        apply Hbefore. lia. }
      { rewrite Hc2.
        replace (S (api_calls st) + n) with (api_calls st + S n) by lia.
        exact Hat. }
      split.
      * intros Hf. apply Hle. lia.
      * intros Hf. destruct (Hlt ltac:(lia)) as [Hr Hn].
        split; [exact Hr |]. rewrite Hn, Hc2. lia.
Qed.

Lemma while_true_never_returns this messages fuel : forall st,
  (forall k, requests_tools (client this (api_calls st + k)) = true) ->
  fst (while_true fuel this messages st) = Unfinished.
Proof.
  induction fuel as [|fuel IH]; intros st Hall; [reflexivity |].
  pose proof (Hall 0) as H0. rewrite Nat.add_0_r in H0.
  destruct (client this (api_calls st)) as [response |] eqn:Hc;
    [| discriminate].
  destruct (while_true_turn fuel this messages st response Hc)
    as (results & st1 & Hids & _ & _ & Hcalls & _ & Heq).
  rewrite Heq, (results_nonempty results _ Hids). simpl in H0.
  apply negb_true_iff in H0. rewrite H0.
  apply IH. intros k. rewrite pushed_api_calls, Hcalls.
  replace (S (api_calls st) + k) with (api_calls st + S k) by lia.
  apply Hall.
Qed.

Lemma while_true_returned this messages fuel : forall st r,
  fst (while_true fuel this messages st) = Normal r ->
  exists n,
    n < fuel /\
    (forall k, k < n ->
       requests_tools (client this (api_calls st + k)) = true) /\
    requests_nothing (client this (api_calls st + n)) = true /\
    api_calls (snd (while_true fuel this messages st)) = api_calls st + S n.
Proof.
  induction fuel as [|fuel IH]; intros st r Hret; [discriminate |].
  destruct (client this (api_calls st)) as [response | rendered] eqn:Hc.
  - destruct (while_true_turn fuel this messages st response Hc)
      as (results & st1 & Hids & _ & _ & Hcalls & _ & Heq).
    rewrite Heq, (results_nonempty results _ Hids) in *.
    destruct (Nat.eqb (length (tool_use_ids response)) 0) eqn:Elen.
    + exists 0. split; [lia |]. split; [intros k Hk; lia |].
      rewrite Nat.add_0_r, Hc. simpl. split; [exact Elen | lia].
    + destruct (IH _ r Hret) as (n & Hn & Hbefore & Hat & Hfinal).
      rewrite pushed_api_calls, Hcalls in *.
      exists (S n). split; [lia |]. split.
      * intros k Hk. destruct k as [|k].
        -- rewrite Nat.add_0_r, Hc. simpl. rewrite Elen. reflexivity.
        -- replace (api_calls st + S k) with (S (api_calls st) + k) by lia.
           apply Hbefore. lia.
      * replace (api_calls st + S n) with (S (api_calls st) + n) by lia.
        split; [exact Hat |]. rewrite Hfinal. lia.
  - destruct (while_true_fails fuel this messages st rendered Hc)
      as (st1 & Heq & _). rewrite Heq in Hret. discriminate.
Qed.

(** [run] is the loop started in the entry state. *)
Lemma run_unfold this options fuel st :
  run this options fuel st
  = while_true fuel this (messages options) (entry_state options st).
Proof.
  unfold run, entry_state, bind.
  destruct (number_truthy (onlyNMostRecentImages options)); reflexivity.
Qed.

Lemma entry_state_api_calls options st :
  api_calls (entry_state options st) = api_calls st.
Proof.
  unfold entry_state.
  destruct (number_truthy (onlyNMostRecentImages options)); reflexivity.
Qed.

Lemma entry_state_trace options st :
  trace (entry_state options st) = trace st.
Proof.
  unfold entry_state.
  destruct (number_truthy (onlyNMostRecentImages options)); reflexivity.
Qed.

Lemma entry_state_other options st r :
  r <> messages options -> arrays (entry_state options st) r = arrays st r.
Proof.
  intros Hr. unfold entry_state.
  destruct (number_truthy (onlyNMostRecentImages options)); [| reflexivity].
  simpl. destruct (Nat.eqb_spec r (messages options));
    [contradiction | reflexivity].
Qed.

Lemma entry_state_messages options st :
  arrays (entry_state options st) (messages options)
  = if number_truthy (onlyNMostRecentImages options)
    then filterNMostRecentImages (arrays st (messages options))
           (default 0%Z (onlyNMostRecentImages options)) 10
    else arrays st (messages options).
Proof.
  unfold entry_state.
  destruct (number_truthy (onlyNMostRecentImages options)); [| reflexivity].
  simpl. rewrite Nat.eqb_refl. reflexivity.
Qed.

Lemma entry_state_trimmed options st :
  conversation_trimmed (arrays st (messages options))
                       (arrays (entry_state options st) (messages options)).
Proof.
  rewrite entry_state_messages.
  destruct (number_truthy (onlyNMostRecentImages options)).
  - apply filter_conversation_trimmed.
  - apply conversation_trimmed_refl.
Qed.

Lemma answered_turns_roles turns :
  answered_turns turns -> exists k, map role turns = turn_roles k.
Proof.
  induction 1 as [| a u turns (blocks & results & -> & -> & _) _ [k IH]].
  - exists 0. reflexivity.
  - exists (S k). simpl. rewrite IH. reflexivity.
Qed.

End LoopInvariant.

(* ===================================================================== *)
(** ** Properties of the tool collection *)
(* ===================================================================== *)

(** C2, as stated, fails: the error text for the unregistered name
    "missing" is "Tool missing is invalid", not "missing is invalid". *)
Lemma unknown_tool_text_literal_fails :
  toolMap sample_tools !! "missing"%string = None /\
  exists result,
    ToolCollection_run sample_tools "missing" (JObj []) state0
    = (Normal result, state0) /\
    error result = Some "Tool missing is invalid"%string /\
    error result <> Some "missing is invalid"%string /\
    is_error (makeApiToolResult result "toolu_01") = Some true /\
    text_items (makeApiToolResult result "toolu_01")
    = ["Tool missing is invalid"%string] /\
    text_items (makeApiToolResult result "toolu_01")
    <> ["missing is invalid"%string].
Proof.
  split; [vm_compute; reflexivity |].
  exists (ToolFailure "Tool missing is invalid").
  split; [vm_compute; reflexivity |].
  split; [reflexivity |]. split; [discriminate |].
  split; [reflexivity |]. split; [reflexivity | discriminate].
Qed.

(** C2, amended: for every name that is not registered, [ToolCollection.run]
    returns, without throwing and without touching the state, the failure
    whose error text is "Tool <name> is invalid"; assembled, it is a
    tool_result with is_error = true and that text. *)
Theorem unknown_tool_failure {W : Type} (tc : ToolCollection W)
    (name : string) (input : Json) (st : State W) (toolUseId : string) :
  toolMap tc !! name = None ->
  ToolCollection_run tc name input st
  = (Normal (ToolFailure ("Tool " +:+ name +:+ " is invalid")), st) /\
  makeApiToolResult (ToolFailure ("Tool " +:+ name +:+ " is invalid")) toolUseId
  = {| tool_use_id := toolUseId;
       content := ContentArray [TextItem ("Tool " +:+ name +:+ " is invalid")];
       is_error := Some true |}.
Proof.
  intros Hnone. unfold ToolCollection_run. rewrite Hnone.
  split; reflexivity.
Qed.

Lemma unknown_tool_failure_witness :
  makeApiToolResult (ToolFailure "Tool missing is invalid") "toolu_01"
  = {| tool_use_id := "toolu_01";
       content := ContentArray [TextItem "Tool missing is invalid"];
       is_error := Some true |}.
Proof.
  refine (proj2 (unknown_tool_failure sample_tools "missing" (JObj []) state0
                   "toolu_01" _)).
  vm_compute. reflexivity.
Defined.

(** The loop for tools that may reject with any value is the loop above
    when every thrown value renders. *)
Lemma any_ToolCollection_run {W : Type} (this : ToolCollection W)
    (name : string) (input : Json) (st : State W) :
  AnyThrown.ToolCollection_run (any_collection this) name input st
  = ToolCollection_run this name input st.
Proof.
  unfold AnyThrown.ToolCollection_run, ToolCollection_run.
  cbn [any_collection AnyThrown.toolMap]. rewrite lookup_fmap.
  destruct (toolMap this !! name) as [tool |]; [| reflexivity].
  cbn [fmap option_fmap option_map any_tool AnyThrown.execute].
  unfold try_catch, await_execute.
  destruct (execute tool input (world st)) as [[result | [message | rendered]] w];
    reflexivity.
Qed.

Lemma any_for_blocks {W : Type} (this : SamplingLoop W)
    (blocks : list ContentBlock) :
  forall (acc : list BetaToolResultBlockParam) (st : State W),
    AnyThrown.for_blocks (any_loop this) blocks acc st
    = for_blocks this blocks acc st.
Proof.
  induction blocks as [| block rest IH]; intros acc st; [reflexivity |].
  cbn [AnyThrown.for_blocks for_blocks]. unfold bind. cbn [emit].
  destruct block as [text | media data | id name input | r];
    cbn [ret]; try apply IH.
  cbn [any_loop AnyThrown.toolCollection].
  rewrite any_ToolCollection_run.
  destruct (ToolCollection_run (toolCollection this) name input _)
    as [[result | err |] st1]; try reflexivity.
  cbn [emit ret]. apply IH.
Qed.

Lemma any_while_true {W : Type} (this : SamplingLoop W) (messages : ref)
    (fuel : nat) :
  forall st : State W,
    AnyThrown.while_true fuel (any_loop this) messages st
    = while_true fuel this messages st.
Proof.
  induction fuel as [| fuel IH]; intros st; [reflexivity |].
  cbn [AnyThrown.while_true while_true]. unfold bind.
  unfold AnyThrown.messages_create, messages_create.
  cbn [any_loop AnyThrown.client].
  destruct (client this (api_calls st)) as [response | rendered];
    [| reflexivity].
  cbn [emit push]. rewrite any_for_blocks.
  destruct (for_blocks this response [] _) as [[results | err |] st1];
    try reflexivity.
  destruct (Nat.eqb (length results) 0); [reflexivity |].
  cbn [push]. apply IH.
Qed.

Lemma any_run {W : Type} (this : SamplingLoop W)
    (options : SamplingLoopOptions) (fuel : nat) (st : State W) :
  AnyThrown.run (any_loop this) options fuel st = run this options fuel st.
Proof.
  unfold AnyThrown.run, run, bind.
  destruct (number_truthy (onlyNMostRecentImages options));
    cbn [rewrite_array ret]; apply any_while_true.
Qed.

(** A thrown value leaves [ToolCollection.run] exactly when the tool is
    registered and rejects with a value whose rendering throws; what
    leaves is the exception of the rendering. *)
Lemma ToolCollection_run_escapes {W : Type} (this : AnyThrown.ToolCollection W)
    (name : string) (input : Json) (st : State W) (err : Thrown) :
  fst (AnyThrown.ToolCollection_run this name input st) = Abrupt err <->
  exists tool,
    AnyThrown.toolMap this !! name = Some tool /\
    fst (AnyThrown.execute tool input (world st))
    = AnyThrown.Rejected (AnyThrown.OtherValue (AnyThrown.RenderingThrows err)).
Proof.
  unfold AnyThrown.ToolCollection_run.
  destruct (AnyThrown.toolMap this !! name) as [tool |].
  - split.
    + intros Hrun. exists tool. split; [reflexivity |].
      destruct (AnyThrown.execute tool input (world st))
        as [[result | [message | [rendered | err']]] w];
        cbn [fst] in *; try discriminate.
      congruence.
    + intros (tool' & Heq & Hrej).
      assert (Htool : tool' = tool) by congruence. subst tool'.
      destruct (AnyThrown.execute tool input (world st))
        as [[result | [message | [rendered | err']]] w];
        cbn [fst] in *; try discriminate.
      congruence.
  - cbn [ret fst]. split; [discriminate |].
    intros (tool & Heq & _). discriminate.
Qed.


Example failures_do_not_stop_the_blocks :
  fst (for_blocks camera_loop
         [ToolUseBlock "toolu_01" "strict" (JObj []);
          ToolUseBlock "toolu_02" "broken" (JObj []);
          ToolUseBlock "toolu_03" "echo" (JObj [("text"%string, JStr "hi")])]
         [] state0)
  = Normal
      [{| tool_use_id := "toolu_01";
          content := ContentArray [TextItem "text is required for strict"];
          is_error := Some true |};
       {| tool_use_id := "toolu_02";
          content := ContentArray
            [TextItem "Unknown error: Error: ENOENT: no such file or directory"];
          is_error := Some true |};
       {| tool_use_id := "toolu_03"; content := ContentArray [TextItem "hi"];
          is_error := Some false |}].
Proof. vm_compute. reflexivity. Qed.

(* ===================================================================== *)
(** ** Properties of SamplingLoop.run *)
(* ===================================================================== *)

(** C1: [run] calls the filter once, before its loop, and not before each
    call of the service.  With [onlyNMostRecentImages] set to 1, a first
    response asking for eleven screenshots and a second asking for nothing,
    the run returns after two calls; the conversation sent with the second
    call holds the eleven images, of which a call of the filter would
    have left one. *)
Theorem filter_applied_once_only :
  let outcome := run camera_loop keep_one 5 state0 in
  fst outcome = Normal 0 /\
  api_calls (snd outcome) = 2 /\
  exists first second,
    sent_conversations (trace (snd outcome)) = [first; second] /\
    first = filterNMostRecentImages [opening] 1 10 /\
    totalImages second = 11%Z /\
    totalImages (filterNMostRecentImages second 1 10) = 1%Z /\
    filterNMostRecentImages second 1 10 <> second /\
    totalImages (arrays (snd outcome) 0) = 11%Z.
Proof.
  cbv zeta. split; [vm_compute; reflexivity |].
  split; [vm_compute; reflexivity |].
  eexists _, _. split; [vm_compute; reflexivity |].
  split; [vm_compute; reflexivity |].
  split; [vm_compute; reflexivity |].
  split; [vm_compute; reflexivity |].
  split; [| vm_compute; reflexivity].
  intros Heq. apply (f_equal totalImages) in Heq. vm_compute in Heq.
  discriminate.
Qed.

(** C3: however a run ends, the messages it has appended are a sequence of
    turns, each an assistant message with at least one tool_use block
    followed by the user message that holds exactly the results of these
    blocks, in their order and under their ids, and then, when the run
    returns, a last assistant message without tool_use block.  Every
    conversation sent to the service is the conversation at entry followed
    by such answered turns: no call is made while a request is
    unanswered. *)
Theorem requests_answered {W : Type} (this : SamplingLoop W)
    (options : SamplingLoopOptions) (fuel : nat) (st : State W) :
  let outcome := run this options fuel st in
  let entry := arrays (entry_state options st) (messages options) in
  exists turns sents,
    answered_turns turns /\
    sent_conversations (trace (snd outcome))
    = sent_conversations (trace st) ++ sents /\
    Forall (fun sent => exists ts, sent = entry ++ ts /\ answered_turns ts)
           sents /\
    match fst outcome with
    | Normal _ =>
        exists last,
          tool_use_ids last = [] /\
          arrays (snd outcome) (messages options)
          = entry ++ turns ++ [assistant_message last]
    | _ => arrays (snd outcome) (messages options) = entry ++ turns
    end.
Proof.
  cbv zeta. rewrite run_unfold.
  destruct (while_true_invariant fuel this (messages options)
              (entry_state options st))
    as (turns & sents & Hturns & _ & Hsent & Hall & Hout).
  exists turns, sents. split; [exact Hturns |].
  split; [rewrite Hsent, entry_state_trace; reflexivity |].
  split; [exact Hall |].
  destruct (fst (while_true fuel this (messages options)
                   (entry_state options st))).
  - destruct Hout as [_ Hlast]. exact Hlast.
  - exact Hout.
  - exact Hout.
Qed.

Example echo_run :
  arrays (snd (run echo_loop no_filter 5 state0)) 0
  = [opening;
     assistant_message [TextBlock "Let me try.";
                        ToolUseBlock "toolu_01" "echo"
                          (JObj [("text"%string, JStr "hi")])];
     results_message [{| tool_use_id := "toolu_01";
                         content := ContentArray [TextItem "hi"];
                         is_error := Some false |}];
     assistant_message [TextBlock "It said hi."]].
Proof. vm_compute. reflexivity. Qed.

(** C4: [run] returns exactly at the first response without tool_use
    block.  If the responses before the n-th hold at least one such block
    and the n-th holds none, the run returns once n + 1 iterations are
    allowed, having made n + 1 calls, and is still running with fewer.  If
    every response holds at least one, it never returns.  If it returns,
    the last response held none and all those before held one.  For a
    conversation of one message, a first response with one tool_use block
    and a second with none, it returns the four messages: the initial one,
    the first response, the user message with the one result, the second
    response. *)
Theorem run_terminates_exactly {W : Type} (this : SamplingLoop W)
    (options : SamplingLoopOptions) (st : State W) :
  (forall n fuel,
     (forall k, k < n ->
        requests_tools (client this (api_calls st + k)) = true) ->
     requests_nothing (client this (api_calls st + n)) = true ->
     (fuel <= n -> fst (run this options fuel st) = Unfinished) /\
     (n < fuel ->
      fst (run this options fuel st) = Normal (messages options) /\
      api_calls (snd (run this options fuel st)) = api_calls st + S n)) /\
  (forall fuel,
     (forall k, requests_tools (client this (api_calls st + k)) = true) ->
     fst (run this options fuel st) = Unfinished) /\
  (forall fuel r,
     fst (run this options fuel st) = Normal r ->
     exists n,
       n < fuel /\
       (forall k, k < n ->
          requests_tools (client this (api_calls st + k)) = true) /\
       requests_nothing (client this (api_calls st + n)) = true /\
       api_calls (snd (run this options fuel st)) = api_calls st + S n) /\
  (forall fuel u first second,
     arrays st (messages options) = [u] ->
     client this (api_calls st) = ApiOk first ->
     length (tool_use_ids first) = 1 ->
     client this (S (api_calls st)) = ApiOk second ->
     tool_use_ids second = [] ->
     2 <= fuel ->
     exists u' result,
       message_trimmed u u' /\
       tool_use_ids first = [tool_use_id result] /\
       fst (run this options fuel st) = Normal (messages options) /\
       arrays (snd (run this options fuel st)) (messages options)
       = [u'; assistant_message first; results_message [result];
          assistant_message second]).
Proof.
  split; [| split; [| split]].
  - intros n fuel Hbefore Hat. rewrite run_unfold.
    pose proof (while_true_returns this (messages options) fuel n
                  (entry_state options st)) as H.
    rewrite entry_state_api_calls in H. apply H; assumption.
  - intros fuel Hall. rewrite run_unfold.
    apply while_true_never_returns. rewrite entry_state_api_calls. exact Hall.
  - intros fuel r Hret. rewrite run_unfold in *.
    pose proof (while_true_returned this (messages options) fuel
                  (entry_state options st) r Hret) as H.
    rewrite entry_state_api_calls in H. exact H.
  - intros fuel u first second Hu Hfirst Hone Hsecond Hnone Hfuel.
    rewrite run_unfold.
    destruct fuel as [|[|fuel]]; [lia | lia |].
    pose proof (entry_state_trimmed options st) as Htrim.
    rewrite Hu in Htrim.
    set (st0 := entry_state options st) in *.
    apply Forall2_cons_inv_l in Htrim as (u' & rest & Hu' & Hrest & Hentry).
    apply Forall2_nil_inv_l in Hrest. subst rest.
    assert (Hc0 : api_calls st0 = api_calls st)
      by apply entry_state_api_calls.
    rewrite <- Hc0 in Hfirst, Hsecond.
    destruct (while_true_turn (S fuel) this (messages options) st0 first Hfirst)
      as (results & st1 & Hids & Ha1 & _ & Hcalls1 & _ & Heq1).
    assert (Hlen : length results = 1)
      by (rewrite <- Hone, <- Hids, length_map; reflexivity).
    destruct results as [|result [|? ?]]; try discriminate.
    cbn [length Nat.eqb] in Heq1. rewrite Heq1.
    set (st2 := pushed (messages options) (results_message [result]) st1) in *.
    assert (Hc2 : client this (api_calls st2) = ApiOk second).
    { unfold st2. rewrite pushed_api_calls, Hcalls1. exact Hsecond. }
    destruct (while_true_turn fuel this (messages options) st2 second Hc2)
      as (results2 & st3 & Hids2 & Ha3 & _ & _ & _ & Heq2).
    rewrite Hnone in Hids2. apply map_eq_nil in Hids2. subst results2.
    cbn [length Nat.eqb] in Heq2. rewrite Heq2. cbn [fst snd].
    exists u', result. split; [exact Hu' |].
    split; [rewrite <- Hids; reflexivity |].
    split; [reflexivity |].
    rewrite Ha3. unfold st2. rewrite pushed_same, Ha1, Hentry. reflexivity.
Qed.

Lemma run_terminates_exactly_witness :
  fst (run echo_loop no_filter 1 state0) = Unfinished /\
  fst (run echo_loop no_filter 2 state0) = Normal 0 /\
  api_calls (snd (run echo_loop no_filter 2 state0)) = 2 /\
  fst (run endless_loop no_filter 1000 state0) = Unfinished.
Proof.
  destruct (run_terminates_exactly echo_loop no_filter state0)
    as (Hret & _ & _ & _).
  destruct (run_terminates_exactly endless_loop no_filter state0)
    as (_ & Hnever & _ & _).
  assert (Hbefore : forall k, k < 1 ->
            requests_tools (client echo_loop (api_calls state0 + k)) = true).
  { intros k Hk. replace k with 0 by lia. reflexivity. }
  assert (Hat : requests_nothing (client echo_loop (api_calls state0 + 1))
                = true) by reflexivity.
  split; [apply (Hret 1 1 Hbefore Hat); lia |].
  split; [apply (Hret 1 2 Hbefore Hat); lia |].
  split; [apply (Hret 1 2 Hbefore Hat); lia |].
  apply Hnever. intros k. reflexivity.
Defined.

(** C9: when [run] returns, it returns the reference of the array it was
    given.  That array then holds the messages it held at entry, none
    removed, added in between or reordered, each as it was except for
    images deleted from the content of its tool_result blocks (and exactly
    as it was when the filter is not configured), followed by appended
    messages whose roles alternate from assistant to assistant; no other
    array has changed. *)
Theorem run_appends_in_place {W : Type} (this : SamplingLoop W)
    (options : SamplingLoopOptions) (fuel : nat) (st : State W) (r : ref) :
  fst (run this options fuel st) = Normal r ->
  r = messages options /\
  (forall r', r' <> messages options ->
     arrays (snd (run this options fuel st)) r' = arrays st r') /\
  exists kept appended k,
    arrays (snd (run this options fuel st)) (messages options)
    = kept ++ appended /\
    conversation_trimmed (arrays st (messages options)) kept /\
    (number_truthy (onlyNMostRecentImages options) = false ->
     kept = arrays st (messages options)) /\
    map role appended = turn_roles k ++ [assistant].
Proof.
  rewrite run_unfold. intros Hret.
  destruct (while_true_invariant fuel this (messages options)
              (entry_state options st))
    as (turns & sents & Hturns & Hoth & _ & _ & Hout).
  rewrite Hret in Hout. destruct Hout as [-> (last & _ & Hfinal)].
  split; [reflexivity |]. split.
  - intros r' Hr'. rewrite Hoth by exact Hr'.
    apply entry_state_other. exact Hr'.
  - destruct (answered_turns_roles turns Hturns) as [k Hk].
    exists (arrays (entry_state options st) (messages options)),
           (turns ++ [assistant_message last]), k.
    split; [exact Hfinal |].
    split; [apply entry_state_trimmed |].
    split.
    + intros Hoff. rewrite entry_state_messages, Hoff. reflexivity.
    + rewrite map_app, Hk. reflexivity.
Qed.

Lemma run_appends_in_place_witness :
  exists kept appended k,
    arrays (snd (run echo_loop no_filter 5 state0)) 0 = kept ++ appended /\
    conversation_trimmed [opening] kept /\
    (number_truthy None = false -> kept = [opening]) /\
    map role appended = turn_roles k ++ [assistant].
Proof.
  refine (proj2 (proj2 (run_appends_in_place echo_loop no_filter 5 state0 0 _))).
  vm_compute. reflexivity.
Defined.

(* ===================================================================== *)
(** ** tools/base.ts: combineResults and the constructor of ToolCollection *)
(* ===================================================================== *)

Lemma field_falsy s : truthy s = false -> field s = EmptyString.
Proof.
  destruct s as [x|]; simpl; [| reflexivity].
  destruct (String.eqb_spec x EmptyString); [intros _; assumption | discriminate].
Qed.

Lemma append_cons c (s t : string) : String c s +:+ t = String c (s +:+ t).
Proof. reflexivity. Qed.

Lemma append_empty_r (s : string) : s +:+ EmptyString = s.
Proof.
  induction s as [|c s IH]; [reflexivity |]. rewrite append_cons, IH.
  reflexivity.
Qed.

Lemma join_truthy_pair a b : join_truthy [a; b] = field a +:+ field b.
Proof.
  unfold join_truthy. cbn [List.filter].
  destruct (truthy a) eqn:Ea, (truthy b) eqn:Eb; cbn [map String.concat].
  - reflexivity.
  - rewrite (field_falsy b Eb), append_empty_r. reflexivity.
  - rewrite (field_falsy a Ea). reflexivity.
  - rewrite (field_falsy a Ea), (field_falsy b Eb). reflexivity.
Qed.

Lemma append_assoc (a b c : string) : (a +:+ b) +:+ c = a +:+ (b +:+ c).
Proof.
  induction a as [|x a IH]; [reflexivity |]. rewrite !append_cons, IH.
  reflexivity.
Qed.

Lemma field_Some (s : string) : field (Some s) = s.
Proof. reflexivity. Qed.

Lemma truthy_field s : truthy s = negb (String.eqb (field s) EmptyString).
Proof. destruct s; reflexivity. Qed.

Lemma truthy_append (a b : string) :
  truthy (Some (a +:+ b)) = truthy (Some a) || truthy (Some b).
Proof. destruct a; [destruct b |]; reflexivity. Qed.

Lemma truthy_Some_field s : truthy (Some (field s)) = truthy s.
Proof. destruct s; reflexivity. Qed.

Lemma or_else_assoc a b c : or_else c (or_else b a) = or_else (or_else c b) a.
Proof.
  unfold or_else. destruct (truthy c) eqn:Ec; [rewrite Ec; reflexivity |].
  destruct (truthy b) eqn:Eb; rewrite ?Eb; reflexivity.
Qed.

Lemma text_items_assembled (result : ToolResult) (toolUseId : string) :
  text_items (makeApiToolResult result toolUseId)
  = (if truthy (error result)
     then [maybePrependSystemToolResult result (field (error result))]
     else if truthy (output result)
     then [maybePrependSystemToolResult result (field (output result))]
     else []).
Proof.
  unfold makeApiToolResult.
  destruct (truthy (error result)); [reflexivity |].
  destruct (truthy (output result)), (truthy (base64Image result));
    reflexivity.
Qed.

(** X1: combining results is associative: folding three results from the
    left or from the right gives the same result. *)
Theorem combineResults_assoc (r1 r2 r3 : ToolResult) :
  combineResults (combineResults r1 r2) r3
  = combineResults r1 (combineResults r2 r3).
Proof.
  unfold combineResults. cbn [output error base64Image system mediaType].
  rewrite !join_truthy_pair, !field_Some, !append_assoc, or_else_assoc.
  reflexivity.
Qed.

(** X2: assembled, a combined result is an error exactly when one of the
    two results has its error set.  Then its content is one text item
    holding the two error texts joined, first then second; otherwise its
    text item, if any, holds the two outputs joined. *)
Theorem combined_result_error (r1 r2 : ToolResult) (toolUseId : string) :
  let c := combineResults r1 r2 in
  let block := makeApiToolResult c toolUseId in
  is_error block = Some (truthy (error r1) || truthy (error r2)) /\
  text_items block
  = (if truthy (error r1) || truthy (error r2)
     then [maybePrependSystemToolResult c (field (error r1) +:+ field (error r2))]
     else if truthy (output r1) || truthy (output r2)
     then [maybePrependSystemToolResult c
             (field (output r1) +:+ field (output r2))]
     else []).
Proof.
  cbv zeta.
  assert (He : truthy (error (combineResults r1 r2))
               = truthy (error r1) || truthy (error r2)).
  { cbn [combineResults error]. rewrite join_truthy_pair, truthy_append,
      !truthy_Some_field. reflexivity. }
  assert (Ho : truthy (output (combineResults r1 r2))
               = truthy (output r1) || truthy (output r2)).
  { cbn [combineResults output]. rewrite join_truthy_pair, truthy_append,
      !truthy_Some_field. reflexivity. }
  rewrite text_items_assembled, He, Ho. split.
  - unfold makeApiToolResult. rewrite He.
    destruct (truthy (error r1) || truthy (error r2)); reflexivity.
  - cbn [combineResults error output]. rewrite !join_truthy_pair, !field_Some.
    reflexivity.
Qed.

(** X3: the image of a combined result is the second result's if it has
    one, else the first's; its media type is not carried over, so the
    assembled image item is always labelled image/png. *)
Theorem combined_result_image (r1 r2 : ToolResult) (toolUseId : string) :
  let block := makeApiToolResult (combineResults r1 r2) toolUseId in
  List.filter is_image (content_items block)
  = (if truthy (error r1) || truthy (error r2) then []
     else if truthy (base64Image r2)
     then [ImageItem "image/png" (field (base64Image r2))]
     else if truthy (base64Image r1)
     then [ImageItem "image/png" (field (base64Image r1))]
     else []).
Proof.
  cbv zeta.
  assert (He : truthy (error (combineResults r1 r2))
               = truthy (error r1) || truthy (error r2)).
  { cbn [combineResults error]. rewrite join_truthy_pair, truthy_append,
      !truthy_Some_field. reflexivity. }
  unfold makeApiToolResult. rewrite He.
  destruct (truthy (error r1) || truthy (error r2)); [reflexivity |].
  cbn [combineResults output base64Image mediaType js_or].
  unfold or_else.
  destruct (truthy (Some (join_truthy [output r1; output r2])));
    destruct (truthy (base64Image r2)) eqn:E2;
    rewrite ?E2; try reflexivity;
    destruct (truthy (base64Image r1)) eqn:E1; rewrite ?E1; reflexivity.
Qed.

Example jpeg_screenshot_relabelled :
  content (makeApiToolResult
             (combineResults
                {| output := Some "clicked"; error := None;
                   base64Image := None; system := None; mediaType := None |}
                {| output := None; error := None;
                   base64Image := Some "/9j/4AAQ"; system := None;
                   mediaType := Some "image/jpeg" |}) "toolu_01")
  = ContentArray [TextItem "clicked"; ImageItem "image/png" "/9j/4AAQ"].
Proof. reflexivity. Qed.

(** *** The constructor *)

Lemma toolMap_snoc {W : Type} (tools : list (BaseAnthropicTool W)) tool :
  toolMap (ToolCollection_new (tools ++ [tool]))
  = <[name (toParams tool) := tool]> (toolMap (ToolCollection_new tools)).
Proof. unfold ToolCollection_new. simpl. rewrite fold_left_app. reflexivity. Qed.

(** X4: after construction, a name is bound to the last tool of the list
    that carries it (a later tool silently replaces an earlier one), and
    to none when no tool carries it. *)
Theorem constructor_last_wins {W : Type} (tools : list (BaseAnthropicTool W))
    (n : string) :
  toolMap (ToolCollection_new tools) !! n
  = List.find (fun t => String.eqb (name (toParams t)) n) (rev tools).
Proof.
  induction tools as [|tool tools IH] using rev_ind.
  - reflexivity.
  - rewrite toolMap_snoc, rev_app_distr. simpl.
    destruct (String.eqb_spec (name (toParams tool)) n) as [-> | Hne].
    + apply lookup_insert_eq.
    + rewrite lookup_insert_ne by exact Hne. exact IH.
Qed.

Example replaced_tool :
  toolMap (ToolCollection_new
             [echo; camera;
              {| toParams := {| name := "echo"; shape := JNull |};
                 execute := execute broken |}]) !! "echo"%string
  = Some {| toParams := {| name := "echo"; shape := JNull |};
            execute := execute broken |}.
Proof. vm_compute. reflexivity. Qed.

(** *** The order of the map *)

Lemma js_map_set_keys {V : Type} key (value : V) entries :
  map fst (js_map_set key value entries)
  = if decide (key ∈ map fst entries) then map fst entries
    else map fst entries ++ [key].
Proof.
  induction entries as [|[k v] rest IH].
  - cbn [js_map_set map fst].
    destruct (decide (key ∈ [])) as [Hin | _]; [| reflexivity].
    apply elem_of_nil in Hin. contradiction.
  - cbn [js_map_set]. destruct (String.eqb_spec k key) as [-> | Hne].
    + cbn [map fst].
      destruct (decide (key ∈ key :: map fst rest)) as [_ | Hnin];
        [reflexivity |].
      exfalso. apply Hnin, elem_of_cons. left. reflexivity.
    + cbn [map fst]. rewrite IH.
      destruct (decide (key ∈ map fst rest)) as [Hin | Hnin];
        destruct (decide (key ∈ k :: map fst rest)) as [Hin' | Hnin'];
        try reflexivity.
      * exfalso. apply Hnin', elem_of_cons. right. exact Hin.
      * exfalso. apply elem_of_cons in Hin' as [Heq | Hin']; [congruence |].
        contradiction.
Qed.

Lemma js_map_get_set {V : Type} key (value : V) entries k :
  js_map_get k (js_map_set key value entries)
  = if String.eqb key k then Some value else js_map_get k entries.
Proof.
  unfold js_map_get. induction entries as [|[k0 v0] rest IH]; simpl.
  - destruct (String.eqb key k); reflexivity.
  - destruct (String.eqb_spec k0 key) as [-> | Hne]; simpl.
    + destruct (String.eqb key k); reflexivity.
    + destruct (String.eqb_spec k0 k) as [-> | Hne'].
      * destruct (String.eqb_spec key k); [congruence | reflexivity].
      * exact IH.
Qed.

Lemma toolMap_entries_snoc {W : Type} (tools : list (BaseAnthropicTool W)) tool :
  toolMap_entries (tools ++ [tool])
  = js_map_set (name (toParams tool)) tool (toolMap_entries tools).
Proof. unfold toolMap_entries. rewrite fold_left_app. reflexivity. Qed.

Lemma elem_of_rev {A : Type} (x : A) (l : list A) : x ∈ rev l <-> x ∈ l.
Proof. rewrite !list_elem_of_In. symmetry. apply in_rev. Qed.

Lemma first_occurrences_snoc (names : list string) (k : string) :
  first_occurrences (names ++ [k])
  = if decide (k ∈ first_occurrences names) then first_occurrences names
    else first_occurrences names ++ [k].
Proof.
  unfold first_occurrences. rewrite rev_app_distr.
  change (rev [k] ++ rev names) with (k :: rev names).
  assert (Hiff : k ∈ rev (remove_dups (rev names)) <-> k ∈ rev names).
  { rewrite elem_of_rev, elem_of_remove_dups. reflexivity. }
  cbn [remove_dups].
  destruct (decide_rel elem_of k (rev names)) as [Hin | Hnin];
    destruct (decide (k ∈ rev (remove_dups (rev names)))) as [Hin' | Hnin'];
    try reflexivity.
  - exfalso. apply Hnin', Hiff. exact Hin.
  - exfalso. apply Hnin, Hiff. exact Hin'.
Qed.

Lemma toolMap_entries_keys {W : Type} (tools : list (BaseAnthropicTool W)) :
  map fst (toolMap_entries tools)
  = first_occurrences (map (fun t => name (toParams t)) tools).
Proof.
  induction tools as [|tool tools IH] using rev_ind; [reflexivity |].
  rewrite toolMap_entries_snoc, js_map_set_keys, IH, map_app.
  cbn [map]. rewrite first_occurrences_snoc. reflexivity.
Qed.

Lemma toolMap_entries_get {W : Type} (tools : list (BaseAnthropicTool W)) n :
  js_map_get n (toolMap_entries tools) = toolMap (ToolCollection_new tools) !! n.
Proof.
  induction tools as [|tool tools IH] using rev_ind; [reflexivity |].
  rewrite toolMap_entries_snoc, js_map_get_set, toolMap_snoc, IH.
  destruct (String.eqb_spec (name (toParams tool)) n) as [-> | Hne].
  - symmetry. apply lookup_insert_eq.
  - rewrite lookup_insert_ne by exact Hne. reflexivity.
Qed.

Lemma toolMap_entries_named {W : Type} (tools : list (BaseAnthropicTool W)) :
  Forall (fun e => fst e = name (toParams (snd e))) (toolMap_entries tools).
Proof.
  induction tools as [|tool tools IH] using rev_ind; [constructor |].
  rewrite toolMap_entries_snoc.
  induction IH as [|[k v] rest Hkv Hrest IHrest]; simpl.
  - constructor; [reflexivity | constructor].
  - destruct (String.eqb k (name (toParams tool))).
    + constructor; [reflexivity | assumption].
    + constructor; [exact Hkv | exact IHrest].
Qed.

Lemma first_occurrences_NoDup (names : list string) :
  NoDup (first_occurrences names).
Proof.
  unfold first_occurrences.
  apply NoDup_ListNoDup, List.NoDup_rev, NoDup_ListNoDup, NoDup_remove_dups.
Qed.

Lemma elem_of_first_occurrences (names : list string) n :
  n ∈ first_occurrences names <-> n ∈ names.
Proof.
  unfold first_occurrences.
  rewrite elem_of_rev, elem_of_remove_dups, elem_of_rev. reflexivity.
Qed.

Lemma js_map_get_entry {V : Type} (entries : list (string * V)) e :
  NoDup (map fst entries) -> e ∈ entries ->
  js_map_get (fst e) entries = Some (snd e).
Proof.
  unfold js_map_get. induction entries as [|[k v] rest IH]; intros Hnd Hin.
  - apply elem_of_nil in Hin. contradiction.
  - apply NoDup_cons in Hnd as [Hk Hnd]. cbn [List.find fst].
    apply elem_of_cons in Hin as [-> | Hin].
    + cbn [fst]. rewrite String.eqb_refl. reflexivity.
    + destruct (String.eqb_spec k (fst e)) as [-> | Hne].
      * exfalso. apply Hk. apply list_elem_of_fmap. exists e. split;
          [reflexivity | exact Hin].
      * apply IH; assumption.
Qed.

(** X5: [toParams()] of a collection lists one descriptor for each name
    carried by a tool of the constructor's list, in the order in which the
    names first occur there, and the descriptor listed under a name is
    that of the tool the name is bound to. *)
Theorem toParams_one_per_name {W : Type} (tools : list (BaseAnthropicTool W)) :
  let params := ToolCollection_toParams tools in
  map name params
  = first_occurrences (map (fun t => name (toParams t)) tools) /\
  NoDup (map name params) /\
  (forall n, n ∈ map name params <->
             exists t, t ∈ tools /\ name (toParams t) = n) /\
  Forall (fun p => exists tool,
            toolMap (ToolCollection_new tools) !! name p = Some tool /\
            toParams tool = p) params.
Proof.
  cbv zeta.
  assert (Hnames : map name (ToolCollection_toParams tools)
                   = map fst (toolMap_entries tools)).
  { unfold ToolCollection_toParams. rewrite map_map.
    pose proof (toolMap_entries_named tools) as Hnamed.
    induction Hnamed as [|e rest He _ IH]; [reflexivity |].
    cbn [map]. rewrite IH, He. reflexivity. }
  rewrite Hnames, toolMap_entries_keys.
  split; [reflexivity |]. split; [apply first_occurrences_NoDup |].
  split.
  - intros n. rewrite elem_of_first_occurrences.
    change (map (fun t => name (toParams t)) tools)
      with ((fun t => name (toParams t)) <$> tools).
    rewrite list_elem_of_fmap. split.
    + intros (t & -> & Ht). exists t. split; [exact Ht | reflexivity].
    + intros (t & Ht & <-). exists t. split; [reflexivity | exact Ht].
  - unfold ToolCollection_toParams. apply Forall_forall. intros p Hp.
    change (map (fun e => toParams e.2) (toolMap_entries tools))
      with ((fun e => toParams (snd e)) <$> toolMap_entries tools) in Hp.
    apply list_elem_of_fmap in Hp as (e & -> & He).
    exists (snd e). split; [| reflexivity].
    rewrite <- toolMap_entries_get.
    pose proof (toolMap_entries_named tools) as Hnamed.
    rewrite Forall_forall in Hnamed. rewrite <- (Hnamed e He).
    apply js_map_get_entry; [| exact He].
    rewrite toolMap_entries_keys. apply first_occurrences_NoDup.
Qed.

Lemma toParams_one_per_name_witness :
  exists t, t ∈ [echo; camera; strict] /\ name (toParams t) = "camera"%string.
Proof.
  apply (proj1 (proj1 (proj2 (proj2
           (toParams_one_per_name [echo; camera; strict]))) "camera"%string)).
  vm_compute. apply elem_of_cons. right. apply elem_of_cons. left. reflexivity.
Defined.

Example toParams_order :
  map name (ToolCollection_toParams
              [echo; camera;
               {| toParams := {| name := "echo"; shape := JStr "v2" |};
                  execute := execute broken |}; strict])
  = ["echo"; "camera"; "strict"]%string /\
  map shape (ToolCollection_toParams
               [echo; camera;
                {| toParams := {| name := "echo"; shape := JStr "v2" |};
                   execute := execute broken |}; strict])
  = [JStr "v2"; JNull; JNull].
Proof. split; reflexivity. Qed.

(* ===================================================================== *)
(** ** The loop: dispatch order, observers, failure of the service *)
(* ===================================================================== *)

Section LoopObserved.
Context {W : Type}.
Implicit Types (st : State W) (this : SamplingLoop W).

Lemma state_eta st :
  {| arrays := arrays st; world := world st; api_calls := api_calls st;
     trace := trace st |} = st.
Proof. destruct st; reflexivity. Qed.

Lemma ToolCollection_run_dispatch (tc : ToolCollection W) name input st :
  ToolCollection_run tc name input st
  = (Normal (fst (dispatch tc name input (world st))),
     {| arrays := arrays st;
        world := snd (dispatch tc name input (world st));
        api_calls := api_calls st; trace := trace st |}).
Proof.
  unfold ToolCollection_run, dispatch.
  destruct (toolMap tc !! name) as [tool|].
  - unfold try_catch, await_execute.
    destruct (execute tool input (world st)) as [settled w].
    destruct settled as [r | [message | rendered]]; reflexivity.
  - unfold ret. cbn [fst snd]. rewrite state_eta. reflexivity.
Qed.

Lemma omap_snoc {A B : Type} (f : A -> option B) (l : list A) (x : A) :
  omap f (l ++ [x]) = omap f l ++ match f x with Some y => [y] | None => [] end.
Proof. rewrite omap_app. cbn. destruct (f x); reflexivity. Qed.

(** The loop over the blocks of a response, in full: its results, the
    environment it leaves and the events it adds. *)
Lemma for_blocks_observed this blocks acc st :
  exists new,
    for_blocks this blocks acc st
    = (Normal (acc ++ map assemble
                        (fst (dispatch_all (toolCollection this) blocks (world st)))),
       {| arrays := arrays st;
          world := snd (dispatch_all (toolCollection this) blocks (world st));
          api_calls := api_calls st; trace := trace st ++ new |}) /\
    outputs new = blocks /\
    tool_outputs new
    = fst (dispatch_all (toolCollection this) blocks (world st)) /\
    api_responses new = [] /\
    sent_conversations new = [].
Proof.
  revert acc st. induction blocks as [|block rest IH]; intros acc st.
  - exists []. cbn [for_blocks dispatch_all fst snd map]. unfold ret.
    rewrite !app_nil_r, state_eta. repeat split; reflexivity.
  - cbn [for_blocks]. unfold bind at 1. unfold emit at 1.
    set (st1 := {| arrays := arrays st; world := world st;
                   api_calls := api_calls st;
                   trace := trace st ++ [EvOutput block] |}).
    destruct block as [text | media_type data | id name input | r].
    1, 2, 4:
      unfold bind at 1; unfold ret at 1;
      destruct (IH acc st1) as (new & Hrun & Hout & Htool & Hresp & Hsent);
      eexists (_ :: new);
      (split; [rewrite Hrun; cbn [dispatch_all st1 arrays world api_calls trace];
               rewrite <- app_assoc; reflexivity |]);
      cbn [outputs tool_outputs api_responses sent_conversations omap list_omap];
      fold (outputs new); fold (tool_outputs new); fold (api_responses new);
      fold (sent_conversations new);
      rewrite Hout, Htool, Hresp, Hsent; repeat split; reflexivity.
    unfold bind at 1. unfold bind at 1.
    rewrite ToolCollection_run_dispatch.
    unfold bind at 1. unfold emit at 1. unfold ret at 1.
    cbn [dispatch_all].
    destruct (dispatch (toolCollection this) name input (world st))
      as [result w1] eqn:Hd.
    cbn [st1 world arrays api_calls trace]. rewrite Hd. cbn [fst snd].
    match goal with
    | |- context [for_blocks this rest ?a ?s] =>
        destruct (IH a s) as (new & Hrun & Hout & Htool & Hresp & Hsent)
    end.
    cbn [world arrays api_calls trace] in Hrun, Htool.
    destruct (dispatch_all (toolCollection this) rest w1) as [outs w2] eqn:Hall.
    exists (EvOutput (ToolUseBlock id name input)
            :: EvToolOutput result id :: new).
    split.
    { rewrite Hrun. cbn [fst snd map]. rewrite <- !app_assoc. reflexivity. }
    cbn [outputs tool_outputs api_responses sent_conversations omap list_omap].
    fold (outputs new); fold (tool_outputs new); fold (api_responses new);
      fold (sent_conversations new).
    rewrite Hout, Htool, Hresp, Hsent. repeat split; reflexivity.
Qed.

Lemma while_true_fails_observed fuel this messages st rendered :
  client this (api_calls st) = ApiFail rendered ->
  while_true (S fuel) this messages st
  = (Abrupt (OtherError rendered),
     {| arrays := arrays st; world := world st;
        api_calls := S (api_calls st);
        trace := trace st ++ [EvCreate (arrays st messages)] |}).
Proof.
  intros Hfail. cbn [while_true]. unfold bind at 1.
  unfold messages_create. rewrite Hfail. reflexivity.
Qed.

(** One iteration of the loop when the service answers, in full. *)
Lemma while_true_turn_observed fuel this messages st response :
  client this (api_calls st) = ApiOk response ->
  exists new st',
    trace st'
    = trace st ++ EvCreate (arrays st messages) :: EvApiResponse response :: new /\
    outputs new = response /\
    tool_outputs new
    = fst (dispatch_all (toolCollection this) response (world st)) /\
    api_responses new = [] /\
    sent_conversations new = [] /\
    arrays st' messages
    = arrays st messages ++ [assistant_message response] /\
    (forall r, r <> messages -> arrays st' r = arrays st r) /\
    api_calls st' = S (api_calls st) /\
    world st' = snd (dispatch_all (toolCollection this) response (world st)) /\
    while_true (S fuel) this messages st
    = if Nat.eqb (length (tool_outputs new)) 0 then (Normal messages, st')
      else while_true fuel this messages
             (pushed messages
                (results_message (map assemble (tool_outputs new))) st').
Proof.
  intros Hok. cbn [while_true]. unfold bind at 1.
  unfold messages_create at 1. rewrite Hok.
  unfold bind at 1. unfold emit at 1. unfold bind at 1. unfold push at 1.
  unfold bind at 1.
  match goal with
  | |- context [for_blocks this response [] ?s] => set (st2 := s)
  end.
  destruct (for_blocks_observed this response [] st2)
    as (new & Hrun & Hout & Htool & Hresp & Hsent).
  cbn [app st2 world arrays api_calls trace] in Hrun, Htool.
  rewrite Hrun.
  match goal with
  | |- context [mkState ?a ?w ?c ?t] => exists new, (mkState a w c t)
  end.
  split; [cbn [trace]; rewrite <- !app_assoc; reflexivity |].
  split; [exact Hout |]. split; [exact Htool |].
  split; [exact Hresp |]. split; [exact Hsent |].
  split; [cbn [arrays]; rewrite Nat.eqb_refl; reflexivity |].
  split.
  { intros r Hr. cbn [arrays].
    destruct (Nat.eqb_spec r messages); [contradiction | reflexivity]. }
  split; [reflexivity |]. split; [reflexivity |].
  rewrite Htool, length_map.
  destruct (Nat.eqb _ 0); [reflexivity |].
  unfold bind at 1. reflexivity.
Qed.

Lemma omap_tool_results (results : list BetaToolResultBlockParam) :
  omap is_tool_result (map ToolResultBlock results) = results.
Proof.
  induction results as [|r rest IH]; [reflexivity |].
  cbn. f_equal. exact IH.
Qed.

Lemma outputs_app a b : outputs (a ++ b) = outputs a ++ outputs b.
Proof. apply omap_app. Qed.

Lemma api_responses_app a b :
  api_responses (a ++ b) = api_responses a ++ api_responses b.
Proof. apply omap_app. Qed.

Lemma tool_outputs_app a b :
  tool_outputs (a ++ b) = tool_outputs a ++ tool_outputs b.
Proof. apply omap_app. Qed.

(** What the callbacks have seen and what the conversation holds, however
    the run ends. *)
Lemma while_true_observed fuel this messages st :
  exists new appended,
    trace (snd (while_true fuel this messages st)) = trace st ++ new /\
    arrays (snd (while_true fuel this messages st)) messages
    = arrays st messages ++ appended /\
    outputs new = concat (api_responses new) /\
    assistant_contents appended = api_responses new /\
    user_results appended = map assemble (tool_outputs new).
Proof.
  revert st. induction fuel as [|fuel IH]; intros st.
  - exists [], []. cbn. rewrite !app_nil_r. repeat split; reflexivity.
  - destruct (client this (api_calls st)) as [response | rendered] eqn:Hc.
    + destruct (while_true_turn_observed fuel this messages st response Hc)
        as (new1 & st1 & Htrace & Hout & Htool & Hresp & _ & Ha & _ & _ & _ & Heq).
      rewrite Heq.
      destruct (Nat.eqb (length (tool_outputs new1)) 0) eqn:Elen.
      * exists (EvCreate (arrays st messages) :: EvApiResponse response :: new1),
               [assistant_message response].
        cbn [fst snd]. split; [exact Htrace |]. split; [exact Ha |].
        apply Nat.eqb_eq, length_zero_iff_nil in Elen.
        cbn [outputs api_responses tool_outputs omap list_omap].
        fold (outputs new1); fold (api_responses new1);
          fold (tool_outputs new1).
        rewrite Hout, Hresp, Elen. cbn. rewrite app_nil_r.
        repeat split; reflexivity.
      * set (results := map assemble (tool_outputs new1)) in *.
        set (st2 := pushed messages (results_message results) st1) in *.
        destruct (IH st2) as (new2 & appended & Htrace2 & Ha2 & Hout2 & Hasst & Hres).
        exists (EvCreate (arrays st messages) :: EvApiResponse response
                :: new1 ++ new2),
               (assistant_message response :: results_message results
                :: appended).
        split.
        { rewrite Htrace2. unfold st2. rewrite pushed_trace, Htrace.
          rewrite <- app_assoc. reflexivity. }
        split.
        { rewrite Ha2. unfold st2. rewrite pushed_same, Ha, <- !app_assoc.
          reflexivity. }
        cbn [outputs api_responses tool_outputs omap list_omap].
        fold (outputs (new1 ++ new2)); fold (api_responses (new1 ++ new2));
          fold (tool_outputs (new1 ++ new2)).
        rewrite outputs_app, api_responses_app, tool_outputs_app.
        rewrite Hout, Hresp, Hout2. cbn [app concat].
        split; [reflexivity |].
        split.
        { cbn. fold (assistant_contents appended). rewrite Hasst. reflexivity. }
        cbn [user_results flat_map results_message assistant_message role
             content_blocks message_content].
        fold (user_results appended).
        rewrite omap_tool_results, Hres, map_app. reflexivity.
    + rewrite (while_true_fails_observed fuel this messages st rendered Hc).
      exists [EvCreate (arrays st messages)], []. cbn.
      rewrite app_nil_r. repeat split; reflexivity.
Qed.

(** A failure of the n-th call, after n responses that asked for tools. *)
Lemma while_true_aborts this messages fuel : forall n st rendered,
  (forall k, k < n -> requests_tools (client this (api_calls st + k)) = true) ->
  client this (api_calls st + n) = ApiFail rendered ->
  n < fuel ->
  fst (while_true fuel this messages st) = Abrupt (OtherError rendered) /\
  api_calls (snd (while_true fuel this messages st)) = api_calls st + S n /\
  exists turns,
    arrays (snd (while_true fuel this messages st)) messages
    = arrays st messages ++ turns /\
    answered_turns turns /\ length turns = 2 * n.
Proof.
  induction fuel as [|fuel IH]; intros n st rendered Hbefore Hat Hfuel; [lia |].
  destruct n as [|n].
  - rewrite Nat.add_0_r in Hat.
    rewrite (while_true_fails_observed fuel this messages st rendered Hat).
    cbn [fst snd api_calls arrays]. split; [reflexivity |]. split; [lia |].
    exists []. rewrite app_nil_r. repeat split. constructor.
  - pose proof (Hbefore 0 ltac:(lia)) as H0. rewrite Nat.add_0_r in H0.
    destruct (client this (api_calls st)) as [response |] eqn:Hc;
      [| discriminate].
    destruct (while_true_turn fuel this messages st response Hc)
      as (results & st1 & Hids & Ha & _ & Hcalls & _ & Heq).
    rewrite Heq, (results_nonempty results _ Hids). simpl in H0.
    apply negb_true_iff in H0. rewrite H0.
    set (st2 := pushed messages (results_message results) st1).
    assert (Hc2 : api_calls st2 = S (api_calls st)) by exact Hcalls.
    destruct (IH n st2 rendered) as (Hout & Hn & turns & Hfinal & Hturns & Hlen).
    { intros k Hk. rewrite Hc2.
      replace (S (api_calls st) + k) with (api_calls st + S k) by lia.
      apply Hbefore. lia. }
    { rewrite Hc2.
      replace (S (api_calls st) + n) with (api_calls st + S n) by lia.
      exact Hat. }
    { lia. }
    split; [exact Hout |]. split; [rewrite Hn, Hc2; lia |].
    exists (assistant_message response :: results_message results :: turns).
    split.
    { rewrite Hfinal. unfold st2. rewrite pushed_same, Ha, <- !app_assoc.
      reflexivity. }
    split.
    { constructor; [| exact Hturns]. exists response, results.
      repeat split; [| exact Hids].
      intros Hnil. rewrite Hnil in H0. discriminate. }
    cbn [length]. lia.
Qed.

End LoopObserved.

(* ===================================================================== *)
(** ** Further properties of the loop *)
(* ===================================================================== *)

Lemma dispatch_all_no_tool_use {W : Type} (tc : ToolCollection W) blocks w :
  tool_use_ids blocks = [] -> dispatch_all tc blocks w = ([], w).
Proof.
  induction blocks as [|b rest IH]; [reflexivity |].
  destruct b; cbn; try exact IH. discriminate.
Qed.

Lemma dispatch_all_unknown {W : Type} (tc : ToolCollection W) blocks w :
  (forall id name input,
     ToolUseBlock id name input ∈ blocks -> toolMap tc !! name = None) ->
  snd (dispatch_all tc blocks w) = w.
Proof.
  induction blocks as [|b rest IH]; intros Hun; [reflexivity |].
  assert (Hrest : forall id name input,
            ToolUseBlock id name input ∈ rest -> toolMap tc !! name = None).
  { intros id name input Hin. apply (Hun id name input).
    apply elem_of_cons. right. exact Hin. }
  destruct b as [| | id name input |]; cbn [dispatch_all]; try (apply IH, Hrest).
  unfold dispatch.
  rewrite (Hun id name input) by (apply elem_of_cons; left; reflexivity).
  specialize (IH Hrest).
  destruct (dispatch_all tc rest w) as [outs w2]. exact IH.
Qed.

Lemma dispatch_all_ids {W : Type} (tc : ToolCollection W) blocks w :
  map snd (fst (dispatch_all tc blocks w)) = tool_use_ids blocks.
Proof.
  revert w. induction blocks as [|b rest IH]; intros w; [reflexivity |].
  destruct b as [| | id name input |]; cbn [dispatch_all]; try apply IH.
  destruct (dispatch tc name input w) as [r w1].
  specialize (IH w1). destruct (dispatch_all tc rest w1) as [outs w2].
  cbn in *. rewrite IH. reflexivity.
Qed.

(** X6: the tools asked for by a response are run once each, one after
    the other in the order of the blocks, each in the environment left by
    the one before; the results appended are the assembled results of
    these runs.  A response without tool_use block, or one that names only
    unregistered tools, leaves the environment as it was. *)
Theorem dispatch_in_block_order {W : Type} (this : SamplingLoop W)
    (blocks : list ContentBlock) (acc : list BetaToolResultBlockParam)
    (st : State W) :
  let all := dispatch_all (toolCollection this) blocks (world st) in
  fst (for_blocks this blocks acc st) = Normal (acc ++ map assemble (fst all)) /\
  world (snd (for_blocks this blocks acc st)) = snd all /\
  map snd (fst all) = tool_use_ids blocks /\
  (tool_use_ids blocks = [] ->
   world (snd (for_blocks this blocks acc st)) = world st) /\
  ((forall id name input,
      ToolUseBlock id name input ∈ blocks ->
      toolMap (toolCollection this) !! name = None) ->
   world (snd (for_blocks this blocks acc st)) = world st).
Proof.
  cbv zeta.
  destruct (for_blocks_observed this blocks acc st) as (new & Hrun & _).
  rewrite Hrun. cbn [fst snd world].
  split; [reflexivity |]. split; [reflexivity |]. split; [| split].
  - apply dispatch_all_ids.
  - intros Hnone. rewrite dispatch_all_no_tool_use by exact Hnone. reflexivity.
  - intros Hun. apply dispatch_all_unknown. exact Hun.
Qed.

Lemma dispatch_in_block_order_witness :
  world (snd (for_blocks camera_loop
                [TextBlock "Let me look."; ToolUseBlock "toolu_01" "zoom" JNull]
                [] state0))
  = 0.
Proof.
  refine (proj2 (proj2 (proj2 (proj2
            (dispatch_in_block_order camera_loop
               [TextBlock "Let me look."; ToolUseBlock "toolu_01" "zoom" JNull]
               [] state0)))) _).
  intros id name input Hin.
  apply elem_of_cons in Hin as [Heq | Hin]; [discriminate |].
  apply elem_of_cons in Hin as [Heq | Hin].
  - inversion Heq; subst. vm_compute. reflexivity.
  - apply elem_of_nil in Hin. contradiction.
Defined.

Example tools_run_in_order :
  world (snd (for_blocks camera_loop
                [ToolUseBlock "toolu_01" "strict" (JObj []);
                 TextBlock "and";
                 ToolUseBlock "toolu_02" "missing" (JObj []);
                 ToolUseBlock "toolu_03" "camera" (JObj [])]
                [] state0))
  = 2.
Proof. vm_compute. reflexivity. Qed.

(** X7: however a run ends, [outputCallback] has been called on every
    block of every response received, in order; the assistant messages
    appended are these responses as received; and the tool_result blocks of
    the user messages appended are, in order, the assembled forms of the
    results passed to [toolOutputCallback] with their ids. *)
Theorem callbacks_match_conversation {W : Type} (this : SamplingLoop W)
    (options : SamplingLoopOptions) (fuel : nat) (st : State W) :
  let final := snd (run this options fuel st) in
  let entry := arrays (entry_state options st) (messages options) in
  exists new appended,
    trace final = trace st ++ new /\
    arrays final (messages options) = entry ++ appended /\
    outputs new = concat (api_responses new) /\
    assistant_contents appended = api_responses new /\
    user_results appended = map assemble (tool_outputs new).
Proof.
  cbv zeta. rewrite run_unfold.
  destruct (while_true_observed fuel this (messages options)
              (entry_state options st))
    as (new & appended & Htrace & Ha & Hout & Hasst & Hres).
  exists new, appended. rewrite Htrace, entry_state_trace.
  repeat split; assumption.
Qed.

(** X8: a failure of a call of the service ends the run with that failure:
    if the first n responses ask for tools and the next call fails, the
    run throws the error of that call after n + 1 calls (the failed call is
    not made again), and the conversation holds the n answered turns
    appended so far. *)
Theorem service_failure_propagates {W : Type} (this : SamplingLoop W)
    (options : SamplingLoopOptions) (st : State W) (n fuel : nat)
    (rendered : string) :
  (forall k, k < n -> requests_tools (client this (api_calls st + k)) = true) ->
  client this (api_calls st + n) = ApiFail rendered ->
  n < fuel ->
  fst (run this options fuel st) = Abrupt (OtherError rendered) /\
  api_calls (snd (run this options fuel st)) = api_calls st + S n /\
  exists turns,
    arrays (snd (run this options fuel st)) (messages options)
    = arrays (entry_state options st) (messages options) ++ turns /\
    answered_turns turns /\ length turns = 2 * n.
Proof.
  intros Hbefore Hat Hfuel. rewrite run_unfold.
  pose proof (while_true_aborts this (messages options) fuel n
                (entry_state options st) rendered) as H.
  rewrite entry_state_api_calls in H. apply H; assumption.
Qed.

Lemma service_failure_propagates_witness :
  fst (run failing_loop no_filter 5 state0)
  = Abrupt (OtherError "Error: 529 overloaded") /\
  api_calls (snd (run failing_loop no_filter 5 state0)) = 2.
Proof.
  assert (Hbefore : forall k, k < 1 ->
            requests_tools (client failing_loop (api_calls state0 + k)) = true).
  { intros k Hk. replace k with 0 by lia. reflexivity. }
  destruct (service_failure_propagates failing_loop no_filter state0 1 5
              "Error: 529 overloaded" Hbefore eq_refl ltac:(lia))
    as (Hout & Hcalls & _).
  split; [exact Hout | exact Hcalls].
Defined.

Lemma while_true_first_sent {W : Type} (this : SamplingLoop W) messages fuel
    (st : State W) :
  exists rest,
    sent_conversations (trace (snd (while_true (S fuel) this messages st)))
    = sent_conversations (trace st) ++ arrays st messages :: rest.
Proof.
  destruct (client this (api_calls st)) as [response | rendered] eqn:Hc.
  - destruct (while_true_turn fuel this messages st response Hc)
      as (results & st1 & _ & _ & _ & _ & Hsent & Heq).
    rewrite Heq. destruct (Nat.eqb (length results) 0).
    + exists []. exact Hsent.
    + destruct (while_true_invariant fuel this messages
                  (pushed messages (results_message results) st1))
        as (_ & sents & _ & _ & Hsent2 & _).
      exists sents. rewrite Hsent2, pushed_trace, Hsent, <- app_assoc.
      reflexivity.
  - destruct (while_true_fails fuel this messages st rendered Hc)
      as (st1 & Heq & _ & _ & Hsent).
    rewrite Heq. exists []. exact Hsent.
Qed.

Lemma filter_default_batch_bounds messages keep :
  (0 <= keep)%Z ->
  (totalImages (filterNMostRecentImages messages keep 10) <= keep + 9)%Z /\
  ((keep <= totalImages messages)%Z ->
   (keep <= totalImages (filterNMostRecentImages messages keep 10))%Z).
Proof.
  intros Hk. rewrite filter_totalImages.
  pose proof (totalImages_nonneg messages) as Hprior.
  destruct (removal_target_bounds (totalImages messages) keep 10 ltac:(lia))
    as [Hneg Hpos].
  destruct (Z_le_gt_dec (totalImages messages - keep) 0) as [He | He].
  - rewrite (Hneg He). lia.
  - destruct (Hpos ltac:(lia)) as [-> Hr]. lia.
Qed.

(** X9: the conversation sent with the first call of a run is the
    caller's conversation as it is when [onlyNMostRecentImages] is unset
    or zero; when it is set to keep >= 1, it is that conversation filtered
    with a batch of 10, holding at most keep + 9 images, and at least keep
    if the caller's conversation held that many. *)
Theorem first_call_conversation {W : Type} (this : SamplingLoop W)
    (options : SamplingLoopOptions) (fuel : nat) (st : State W) :
  1 <= fuel ->
  let given := arrays st (messages options) in
  exists first rest,
    sent_conversations (trace (snd (run this options fuel st)))
    = sent_conversations (trace st) ++ first :: rest /\
    (number_truthy (onlyNMostRecentImages options) = false -> first = given) /\
    (forall keep,
       onlyNMostRecentImages options = Some keep -> (1 <= keep)%Z ->
       first = filterNMostRecentImages given keep 10 /\
       (totalImages first <= keep + 9)%Z /\
       ((keep <= totalImages given)%Z -> (keep <= totalImages first)%Z)).
Proof.
  intros Hfuel. cbv zeta. destruct fuel as [|fuel]; [lia |].
  rewrite run_unfold.
  destruct (while_true_first_sent this (messages options) fuel
              (entry_state options st)) as [rest Hsent].
  exists (arrays (entry_state options st) (messages options)), rest.
  split; [rewrite Hsent, entry_state_trace; reflexivity |].
  rewrite entry_state_messages. split.
  - intros ->. reflexivity.
  - intros keep Hkeep Hpos. rewrite Hkeep. cbn [number_truthy].
    change (default 0%Z (Some keep)) with keep.
    replace (keep =? 0)%Z with false by (symmetry; apply Z.eqb_neq; lia).
    cbn [negb]. split; [reflexivity |].
    apply filter_default_batch_bounds. lia.
Qed.

Lemma first_call_conversation_witness :
  exists first rest,
    sent_conversations (trace (snd (run camera_loop keep_one 5 state0)))
    = sent_conversations (trace state0) ++ first :: rest /\
    (totalImages first <= 1 + 9)%Z.
Proof.
  destruct (first_call_conversation camera_loop keep_one 5 state0 ltac:(lia))
    as (first & rest & Hsent & _ & Hkeep).
  exists first, rest. split; [exact Hsent |].
  apply (Hkeep 1%Z eq_refl ltac:(lia)).
Defined.

(* ===================================================================== *)
(** ** index.ts: properties of sendMessage *)
(* ===================================================================== *)

Section LoopExact.
Context {W : Type}.
Implicit Types (st : State W) (this : SamplingLoop W).

Lemma for_blocks_exact this blocks acc st :
  for_blocks this blocks acc st
  = (Normal (acc ++ map assemble
                      (fst (dispatch_all (toolCollection this) blocks (world st)))),
     {| arrays := arrays st;
        world := snd (dispatch_all (toolCollection this) blocks (world st));
        api_calls := api_calls st;
        trace := trace st
                 ++ block_events (toolCollection this) blocks (world st) |}).
Proof.
  revert acc st. induction blocks as [|block rest IH]; intros acc st.
  - cbn [for_blocks dispatch_all block_events fst snd map]. unfold ret.
    rewrite !app_nil_r, state_eta. reflexivity.
  - cbn [for_blocks]. unfold bind at 1. unfold emit at 1.
    destruct block as [text | media_type data | id name input | r].
    1, 2, 4:
      unfold bind at 1; unfold ret at 1; rewrite IH;
      cbn [dispatch_all block_events arrays world api_calls trace];
      rewrite <- app_assoc; reflexivity.
    unfold bind at 1. unfold bind at 1.
    rewrite ToolCollection_run_dispatch.
    unfold bind at 1. unfold emit at 1. unfold ret at 1.
    rewrite IH. cbn [dispatch_all block_events arrays world api_calls trace].
    destruct (dispatch (toolCollection this) name input (world st))
      as [result w1].
    cbn [fst snd].
    destruct (dispatch_all (toolCollection this) rest w1) as [outs w2].
    cbn [fst snd map]. rewrite <- !app_assoc. reflexivity.
Qed.

Lemma while_true_step fuel this messages st response :
  client this (api_calls st) = ApiOk response ->
  while_true (S fuel) this messages st
  = let outs := fst (dispatch_all (toolCollection this) response (world st)) in
    if Nat.eqb (length outs) 0
    then (Normal messages, after_response this messages response st)
    else while_true fuel this messages
           (pushed messages (results_message (map assemble outs))
                   (after_response this messages response st)).
Proof.
  intros Hok. cbn [while_true]. unfold bind at 1.
  unfold messages_create at 1. rewrite Hok.
  unfold bind at 1. unfold emit at 1. unfold bind at 1. unfold push at 1.
  unfold bind at 1. rewrite for_blocks_exact.
  cbn [app arrays world api_calls trace]. rewrite length_map.
  unfold after_response, assistant_message.
  rewrite <- !app_assoc. cbn [app].
  destruct (Nat.eqb _ 0); [reflexivity |].
  unfold bind at 1. reflexivity.
Qed.

(** The outcome of the loop, and what it leaves in the conversation, the
    environment, the count of calls and the trace, depend on the state
    only through these. *)
Lemma while_true_respects fuel this messages : forall st1 st2,
  arrays st1 messages = arrays st2 messages ->
  world st1 = world st2 -> api_calls st1 = api_calls st2 ->
  trace st1 = trace st2 ->
  fst (while_true fuel this messages st1)
  = fst (while_true fuel this messages st2) /\
  arrays (snd (while_true fuel this messages st1)) messages
  = arrays (snd (while_true fuel this messages st2)) messages /\
  world (snd (while_true fuel this messages st1))
  = world (snd (while_true fuel this messages st2)) /\
  api_calls (snd (while_true fuel this messages st1))
  = api_calls (snd (while_true fuel this messages st2)) /\
  trace (snd (while_true fuel this messages st1))
  = trace (snd (while_true fuel this messages st2)).
Proof.
  induction fuel as [|fuel IH]; intros st1 st2 Ha Hw Hc Ht.
  - cbn. repeat split; assumption.
  - destruct (client this (api_calls st1)) as [response | rendered] eqn:Hc1.
    + assert (Hc2 : client this (api_calls st2) = ApiOk response)
        by (rewrite <- Hc; exact Hc1).
      rewrite (while_true_step fuel this messages st1 response Hc1).
      rewrite (while_true_step fuel this messages st2 response Hc2).
      cbv zeta. rewrite <- Hw.
      destruct (Nat.eqb _ 0).
      * cbn [fst snd after_response arrays world api_calls trace].
        rewrite !Nat.eqb_refl, Ha, Hw, Hc, Ht. repeat split; reflexivity.
      * apply IH.
        -- rewrite !pushed_same. cbn [after_response arrays].
           rewrite !Nat.eqb_refl, Ha. reflexivity.
        -- cbn [pushed push snd world after_response]. rewrite Hw. reflexivity.
        -- cbn [pushed push snd api_calls after_response]. rewrite Hc.
           reflexivity.
        -- cbn [pushed push snd trace after_response]. rewrite Ha, Hw, Ht.
           reflexivity.
    + assert (Hc2 : client this (api_calls st2) = ApiFail rendered)
        by (rewrite <- Hc; exact Hc1).
      rewrite (while_true_fails_observed fuel this messages st1 rendered Hc1).
      rewrite (while_true_fails_observed fuel this messages st2 rendered Hc2).
      cbn [fst snd arrays world api_calls trace].
      rewrite Ha, Hw, Hc, Ht. repeat split; reflexivity.
Qed.

End LoopExact.

Lemma skip_while_nil {A : Type} (f : A -> bool) (l : list A) :
  skip_while f l = [] <-> forallb f l = true.
Proof.
  induction l as [|x l IH]; cbn; [tauto |].
  destruct (f x); cbn; [exact IH |]. split; discriminate.
Qed.

Lemma skip_while_all {A : Type} (f : A -> bool) (l : list A) :
  forallb f (skip_while f l) = true -> skip_while f l = [].
Proof.
  induction l as [|x l IH]; cbn; [reflexivity |].
  destruct (f x) eqn:Ex; [exact IH |]. cbn. rewrite Ex. discriminate.
Qed.

Lemma forallb_rev {A : Type} (f : A -> bool) (l : list A) :
  forallb f (rev l) = forallb f l.
Proof.
  induction l as [|x l IH]; [reflexivity |].
  cbn. rewrite forallb_app, IH. cbn. rewrite andb_true_r. apply andb_comm.
Qed.

(** [trim] leaves nothing exactly of the strings made of characters it
    strips. *)
Lemma js_trim_empty strips s :
  js_trim strips s = EmptyString
  <-> forallb strips (list_ascii_of_string s) = true.
Proof.
  unfold js_trim.
  set (l := list_ascii_of_string s).
  split.
  - intros H. apply (f_equal list_ascii_of_string) in H.
    rewrite list_ascii_of_string_of_list_ascii in H. cbn in H.
    apply (f_equal (@rev ascii)) in H. rewrite rev_involutive in H. cbn in H.
    apply skip_while_nil in H. rewrite forallb_rev in H.
    apply skip_while_all in H. apply skip_while_nil. exact H.
  - intros H. apply skip_while_nil in H. rewrite H. reflexivity.
Qed.

Lemma try_catch_rethrow {W A : Type} (c : M W A) (st : State W) :
  try_catch c (fun error st' => (Abrupt error, st')) st = c st.
Proof. unfold try_catch. destruct (c st) as [[a | err |] st']; reflexivity. Qed.

(** The state in which [sendMessage] calls [run]. *)
Lemma sendMessage_unfold {W : Type} strips (this : ComputerUseClient W)
    message fresh fuel (st : State W) :
  js_trim strips message <> EmptyString ->
  sendMessage strips this message fresh fuel st
  = run (loop this)
        {| messages := fresh;
           onlyNMostRecentImages := client_onlyNMostRecentImages this |}
        fuel
        (snd (rewrite_array fresh
                (fun _ => [{| role := user; message_content := Str message |}])
                st)).
Proof.
  intros Hne. unfold sendMessage.
  destruct (String.eqb_spec (js_trim strips message) EmptyString);
    [contradiction |].
  unfold bind at 1. cbn [rewrite_array]. rewrite try_catch_rethrow.
  reflexivity.
Qed.

Lemma string_message_unfiltered message keep :
  filterNMostRecentImages
    [{| role := user; message_content := Str message |}] keep 10
  = [{| role := user; message_content := Str message |}].
Proof. apply filter_imageless. reflexivity. Qed.

(** X10: a message that [trim] leaves empty (the empty string, or only
    characters that [trim] strips) is refused with the error "Message
    cannot be empty", before any call of the service and without any
    change of state. *)
Theorem sendMessage_blank {W : Type} (strips : ascii -> bool)
    (this : ComputerUseClient W) (message : string) (fresh : ref)
    (fuel : nat) (st : State W) :
  forallb strips (list_ascii_of_string message) = true ->
  sendMessage strips this message fresh fuel st
  = (Abrupt (OtherError "Error: Message cannot be empty"), st).
Proof.
  intros Hblank. apply js_trim_empty in Hblank.
  unfold sendMessage. rewrite Hblank. reflexivity.
Qed.

Lemma sendMessage_blank_witness :
  sendMessage Ascii.is_space echo_client (String (ascii_of_nat 9) "  ") 1 5
              state0
  = (Abrupt (OtherError "Error: Message cannot be empty"), state0).
Proof.
  apply (sendMessage_blank Ascii.is_space echo_client
           (String (ascii_of_nat 9) "  ") 1 5 state0).
  reflexivity.
Defined.

(** X11: through [sendMessage] the option [onlyNMostRecentImages] has no
    effect: two clients with the same loop that differ only in this
    option end in the same way, with the same conversation, environment,
    number of calls and trace. *)
Theorem sendMessage_ignores_image_limit {W : Type} (strips : ascii -> bool)
    (l : SamplingLoop W) (limit1 limit2 : option Z) (message : string)
    (fresh : ref) (fuel : nat) (st : State W) :
  let r1 := sendMessage strips {| loop := l;
                                  client_onlyNMostRecentImages := limit1 |}
                        message fresh fuel st in
  let r2 := sendMessage strips {| loop := l;
                                  client_onlyNMostRecentImages := limit2 |}
                        message fresh fuel st in
  fst r1 = fst r2 /\
  arrays (snd r1) fresh = arrays (snd r2) fresh /\
  world (snd r1) = world (snd r2) /\
  api_calls (snd r1) = api_calls (snd r2) /\
  trace (snd r1) = trace (snd r2).
Proof.
  cbv zeta.
  destruct (String.eqb_spec (js_trim strips message) EmptyString) as [He | Hne].
  - unfold sendMessage. cbn [loop client_onlyNMostRecentImages].
    rewrite He. cbn. repeat split; reflexivity.
  - rewrite !sendMessage_unfold by exact Hne.
    cbn [loop client_onlyNMostRecentImages]. rewrite !run_unfold.
    cbn [messages].
    apply while_true_respects.
    + rewrite !entry_state_messages. cbn [messages onlyNMostRecentImages].
      cbn [rewrite_array snd arrays]. rewrite Nat.eqb_refl.
      rewrite !string_message_unfiltered.
      destruct (number_truthy limit1), (number_truthy limit2); reflexivity.
    + unfold entry_state. cbn [onlyNMostRecentImages].
      destruct (number_truthy limit1), (number_truthy limit2); reflexivity.
    + rewrite !entry_state_api_calls. reflexivity.
    + rewrite !entry_state_trace. reflexivity.
Qed.

(** X12: for a message that [trim] does not leave empty, when
    [sendMessage] returns it returns the array it created, which holds the
    message as it was given (not trimmed) as a user message with string
    content, then the answered turns, then the final response. *)
Theorem sendMessage_conversation {W : Type} (strips : ascii -> bool)
    (this : ComputerUseClient W) (message : string) (fresh : ref)
    (fuel : nat) (st : State W) (r : ref) :
  js_trim strips message <> EmptyString ->
  fst (sendMessage strips this message fresh fuel st) = Normal r ->
  r = fresh /\
  exists turns last,
    answered_turns turns /\ tool_use_ids last = [] /\
    arrays (snd (sendMessage strips this message fresh fuel st)) fresh
    = {| role := user; message_content := Str message |}
      :: turns ++ [assistant_message last].
Proof.
  intros Hne. rewrite sendMessage_unfold by exact Hne. rewrite run_unfold.
  cbn [messages]. intros Hret.
  match goal with
  | |- context [while_true fuel (loop this) fresh ?s] => set (st1 := s) in *
  end.
  destruct (while_true_invariant fuel (loop this) fresh st1)
    as (turns & sents & Hturns & _ & _ & _ & Hout).
  rewrite Hret in Hout. destruct Hout as [-> (last & Hlast & Hfinal)].
  split; [reflexivity |]. exists turns, last.
  split; [exact Hturns |]. split; [exact Hlast |].
  rewrite Hfinal. unfold st1. rewrite entry_state_messages.
  cbn [messages onlyNMostRecentImages rewrite_array snd arrays].
  rewrite Nat.eqb_refl, string_message_unfiltered.
  destruct (number_truthy (client_onlyNMostRecentImages this)); reflexivity.
Qed.

Lemma sendMessage_conversation_witness :
  exists turns last,
    answered_turns turns /\ tool_use_ids last = [] /\
    arrays (snd (sendMessage Ascii.is_space echo_client "  say hi " 1 5 state0))
           1
    = {| role := user; message_content := Str "  say hi " |}
      :: turns ++ [assistant_message last].
Proof.
  refine (proj2 (sendMessage_conversation Ascii.is_space echo_client
                   "  say hi " 1 5 state0 1 _ _)).
  - vm_compute. discriminate.
  - vm_compute. reflexivity.
Defined.

(* ===================================================================== *)
(** ** ComputerTool: chunkString, handleTypeString, takeDelayedScreenshot *)
(* ===================================================================== *)

Lemma string_of_list_app (l1 l2 : list ascii) :
  string_of_list_ascii (l1 ++ l2)
  = string_of_list_ascii l1 +:+ string_of_list_ascii l2.
Proof.
  induction l1 as [|c l1 IH]; [reflexivity |].
  cbn [app string_of_list_ascii]. rewrite IH. reflexivity.
Qed.

Lemma length_string_of_list (l : list ascii) :
  String.length (string_of_list_ascii l) = length l.
Proof. induction l as [|c l IH]; [reflexivity |]. cbn. rewrite IH. reflexivity. Qed.

Lemma string_length_list (s : string) :
  String.length s = length (list_ascii_of_string s).
Proof. induction s as [|c s IH]; [reflexivity |]. cbn. rewrite IH. reflexivity. Qed.

Lemma concat_empty_cons (x : string) (l : list string) :
  String.concat EmptyString (x :: l) = x +:+ String.concat EmptyString l.
Proof.
  destruct l as [|y l]; cbn [String.concat].
  - rewrite append_empty_r. reflexivity.
  - reflexivity.
Qed.

Lemma chunk_lengths_zero size : chunk_lengths size 0 = [].
Proof.
  unfold chunk_lengths. destruct size as [|size]; [reflexivity |].
  rewrite Nat.Div0.div_0_l, Nat.Div0.mod_0_l. reflexivity.
Qed.

Lemma chunk_lengths_small size r :
  0 < r -> r < size -> chunk_lengths size r = [r].
Proof.
  intros Hr Hlt. unfold chunk_lengths.
  rewrite Nat.div_small, Nat.mod_small by lia.
  destruct (Nat.eqb_spec r 0); [lia | reflexivity].
Qed.

Lemma chunk_lengths_step size r :
  1 <= size -> size <= r ->
  chunk_lengths size r = size :: chunk_lengths size (r - size).
Proof.
  intros Hs Hr. unfold chunk_lengths.
  assert (Hd : r / size = S ((r - size) / size)).
  { replace r with ((r - size) + 1 * size) at 1 by lia.
    rewrite Nat.div_add by lia. lia. }
  assert (Hm : r mod size = (r - size) mod size).
  { replace r with ((r - size) + 1 * size) at 1 by lia.
    apply Nat.Div0.mod_add. }
  rewrite Hd, Hm. reflexivity.
Qed.

Lemma js_slice_to_end (s : string) (i : nat) :
  js_slice s i (String.length s)
  = string_of_list_ascii (drop i (list_ascii_of_string s)).
Proof.
  unfold js_slice. rewrite take_ge; [reflexivity |].
  rewrite length_drop, string_length_list. lia.
Qed.

Lemma chunkString_loop_spec (str : string) (size : nat) :
  1 <= size ->
  forall fuel i chunks,
    String.length str - i <= fuel ->
    exists more,
      chunkString_loop fuel str size i chunks = Some (chunks ++ more) /\
      String.concat EmptyString more = js_slice str i (String.length str) /\
      map String.length more = chunk_lengths size (String.length str - i).
Proof.
  intros Hsize. induction fuel as [|fuel IH]; intros i chunks Hfuel.
  - exists []. cbn [chunkString_loop].
    replace (i <? String.length str) with false
      by (symmetry; apply Nat.ltb_ge; lia).
    rewrite app_nil_r, js_slice_to_end, drop_ge
      by (rewrite <- string_length_list; lia).
    replace (String.length str - i) with 0 by lia.
    rewrite chunk_lengths_zero. repeat split; reflexivity.
  - cbn [chunkString_loop]. destruct (Nat.ltb_spec i (String.length str)) as [Hlt | Hge].
    + destruct (IH (i + size) (chunks ++ [js_slice str i (i + size)])
                  ltac:(lia)) as (more & Hrun & Hcat & Hlen).
      exists (js_slice str i (i + size) :: more).
      split; [rewrite Hrun, <- app_assoc; reflexivity |].
      set (l := list_ascii_of_string str) in *.
      assert (Hl : length l = String.length str)
        by (symmetry; apply string_length_list).
      split.
      * rewrite concat_empty_cons, Hcat, !js_slice_to_end. unfold js_slice.
        fold l. rewrite <- string_of_list_app.
        replace (i + size - i) with size by lia.
        replace (drop (i + size) l) with (drop size (drop i l))
          by (rewrite drop_drop; f_equal; lia).
        rewrite take_drop. reflexivity.
      * cbn [map]. rewrite Hlen. unfold js_slice. fold l.
        rewrite length_string_of_list, length_take, length_drop, Hl.
        replace (i + size - i) with size by lia.
        destruct (Nat.le_gt_cases size (String.length str - i)) as [Hfull | Hrest].
        -- rewrite (chunk_lengths_step size (String.length str - i)) by lia.
           f_equal; [lia |]. f_equal. lia.
        -- rewrite (chunk_lengths_small size (String.length str - i)) by lia.
           replace (String.length str - (i + size)) with 0 by lia.
           rewrite chunk_lengths_zero. f_equal. lia.
    + exists []. rewrite app_nil_r, js_slice_to_end, drop_ge
        by (rewrite <- string_length_list; lia).
      replace (String.length str - i) with 0 by lia.
      rewrite chunk_lengths_zero. repeat split; reflexivity.
Qed.

Lemma chunkString_loop_stuck (str : string) (i : nat) :
  i < String.length str ->
  forall fuel chunks, chunkString_loop fuel str 0 i chunks = None.
Proof.
  intros Hlt. induction fuel as [|fuel IH]; intros chunks;
    cbn [chunkString_loop];
    replace (i <? String.length str) with true
      by (symmetry; apply Nat.ltb_lt; exact Hlt).
  - reflexivity.
  - rewrite Nat.add_0_r. apply IH.
Qed.

(** X13: for a chunk size of at least 1, [chunkString] ends within as many
    iterations as the string has characters; the chunks joined give the
    string back; all chunks have [size] characters except the last, which
    has the rest when the length is not a multiple of [size].  With a size
    of 0 and a string that is not empty the loop never ends. *)
Theorem chunkString_chunks (str : string) (size fuel : nat) :
  (1 <= size -> String.length str <= fuel ->
   exists chunks,
     chunkString fuel str size = Some chunks /\
     String.concat EmptyString chunks = str /\
     map String.length chunks = chunk_lengths size (String.length str)) /\
  (size = 0 -> str <> EmptyString -> chunkString fuel str size = None).
Proof.
  split.
  - intros Hsize Hfuel.
    destruct (chunkString_loop_spec str size Hsize fuel 0 [] ltac:(lia))
      as (chunks & Hrun & Hcat & Hlen).
    exists chunks. split; [exact Hrun |].
    rewrite Nat.sub_0_r in Hlen. split; [| exact Hlen].
    rewrite Hcat, js_slice_to_end, drop_0.
    apply string_of_list_ascii_of_string.
  - intros -> Hne. apply chunkString_loop_stuck.
    destruct str; [contradiction | cbn; lia].
Qed.

Lemma chunkString_chunks_witness :
  exists chunks,
    chunkString 11 "hello world" 4 = Some chunks /\
    String.concat EmptyString chunks = "hello world"%string /\
    map String.length chunks = chunk_lengths 4 11.
Proof.
  apply (proj1 (chunkString_chunks "hello world" 4 11)).
  - lia.
  - cbn. lia.
Defined.

Example chunkString_hello :
  chunkString 11 "hello world" 4 = Some ["hell"; "o wo"; "rld"]%string.
Proof. reflexivity. Qed.

Lemma chunk_lengths_bounds size r :
  1 <= size -> Forall (fun n => 1 <= n <= size) (chunk_lengths size r).
Proof.
  intros Hsize. unfold chunk_lengths. apply Forall_app. split.
  - apply Forall_forall. intros n Hn. apply list_elem_of_In, repeat_spec in Hn.
    lia.
  - destruct (Nat.eqb_spec (r mod size) 0) as [_ | Hne]; [constructor |].
    constructor; [| constructor].
    pose proof (Nat.mod_upper_bound r size ltac:(lia)). lia.
Qed.

(** X14: [handleTypeString] passes the text to [robot.typeString] in
    pieces of at most 50 characters, none empty, which joined in order are
    the text, and waits 12 ms per character after each piece. *)
Theorem handleTypeString_types_text {E : Type} (d : Desktop E)
    (text : string) (fuel : nat) (e : E) :
  String.length text <= fuel ->
  exists chunks,
    handleTypeString d fuel text e
    = Some (fold_left
              (fun e chunk =>
                 delay d (String.length chunk * 12) (robot_typeString d chunk e))
              chunks e) /\
    String.concat EmptyString chunks = text /\
    Forall (fun chunk => 1 <= String.length chunk <= 50) chunks.
Proof.
  intros Hfuel.
  destruct (chunkString_loop_spec text TYPING_GROUP_SIZE ltac:(cbv; lia)
              fuel 0 [] ltac:(lia)) as (chunks & Hrun & Hcat & Hlen).
  exists chunks. unfold handleTypeString, chunkString. rewrite Hrun.
  split; [reflexivity |]. split.
  - rewrite Hcat, js_slice_to_end, drop_0.
    apply string_of_list_ascii_of_string.
  - pose proof (chunk_lengths_bounds TYPING_GROUP_SIZE
                  (String.length text - 0) ltac:(cbv; lia)) as Hb.
    rewrite <- Hlen in Hb. apply Forall_fmap in Hb. exact Hb.
Qed.

Lemma handleTypeString_types_text_witness :
  exists chunks,
    handleTypeString recording_desktop 60
      "The quick brown fox jumps over the lazy dog, twice over." (0, [])
    = Some (fold_left
              (fun e chunk =>
                 delay recording_desktop (String.length chunk * 12)
                       (robot_typeString recording_desktop chunk e))
              chunks (0, [])) /\
    String.concat EmptyString chunks
    = "The quick brown fox jumps over the lazy dog, twice over."%string /\
    Forall (fun chunk => 1 <= String.length chunk <= 50) chunks.
Proof.
  apply (handleTypeString_types_text recording_desktop
           "The quick brown fox jumps over the lazy dog, twice over." 60 (0, [])).
  cbn. lia.
Defined.

Example typing_recorded :
  handleTypeString recording_desktop 60
    "The quick brown fox jumps over the lazy dog, twice over." (0, [])
  = Some (0, [Typed "The quick brown fox jumps over the lazy dog, twice";
              Waited 600; Typed " over."; Waited 72]).
Proof. reflexivity. Qed.

(** X15: [takeDelayedScreenshot] waits 2000 ms and then makes at most
    three attempts at a screenshot, waiting 500 ms after the first and
    after the second when it failed (not after the third).  Its
    outcome is that of the last attempt made, the k-th, all attempts before
    it having failed: a failure is only returned from the third attempt, and
    it is the error of that attempt, never an error of its own. *)
Theorem takeDelayedScreenshot_outcome {E : Type} (d : Desktop E) (e : E) :
  exists k,
    (k = 1 \/ k = 2 \/ k = 3) /\
    takeDelayedScreenshot d e = takeScreenshot d (attempt_state d k e) /\
    Forall (fun j => exists err,
              fst (takeScreenshot d (attempt_state d j e)) = Rejected err)
           (seq 1 (k - 1)) /\
    (k = 3 \/ exists result, fst (takeDelayedScreenshot d e) = Resolved result).
Proof.
  unfold takeDelayedScreenshot. cbn [SCREENSHOT_RETRY_COUNT screenshot_attempts].
  set (e1 := delay d SCREENSHOT_DELAY_MS e).
  destruct (takeScreenshot d e1) as [[r1 | err1] e1'] eqn:H1.
  { exists 1. split; [tauto |]. cbn [attempt_state]. fold e1. rewrite H1.
    split; [reflexivity |]. split; [constructor |]. right. eauto. }
  cbn [Nat.eqb].
  set (e2 := delay d SCREENSHOT_RETRY_DELAY_MS e1').
  assert (He1 : exists err,
            fst (takeScreenshot d (attempt_state d 1 e)) = Rejected err).
  { cbn [attempt_state]. fold e1. rewrite H1. eauto. }
  assert (He2 : attempt_state d 2 e = e2).
  { cbn [attempt_state]. fold e1. rewrite H1. reflexivity. }
  destruct (takeScreenshot d e2) as [[r2 | err2] e2'] eqn:H2.
  { exists 2. split; [tauto |]. rewrite He2, H2.
    split; [reflexivity |]. split; [| right; eauto].
    constructor; [exact He1 | constructor]. }
  set (e3 := delay d SCREENSHOT_RETRY_DELAY_MS e2').
  assert (He3 : attempt_state d 3 e = e3).
  { change (attempt_state d 3 e)
      with (delay d SCREENSHOT_RETRY_DELAY_MS
              (snd (takeScreenshot d (attempt_state d 2 e)))).
    rewrite He2, H2. reflexivity. }
  exists 3. split; [tauto |]. rewrite He3.
  split.
  { destruct (takeScreenshot d e3) as [[r3 | err3] e3']; reflexivity. }
  split; [| left; reflexivity].
  constructor; [exact He1 |]. constructor; [| constructor].
  rewrite He2, H2. eauto.
Qed.

Example screenshot_third_attempt :
  takeDelayedScreenshot recording_desktop (2, [])
  = (Resolved {| output := None; error := None;
                 base64Image := Some "iVBORw0KGgo="; system := None;
                 mediaType := Some "image/png" |},
     (0, [Waited 2000; Shot false; Waited 500; Shot false; Waited 500;
          Shot true])).
Proof. reflexivity. Qed.

Example screenshot_gives_up :
  takeDelayedScreenshot recording_desktop (5, [])
  = (Rejected (ToolError "Failed to take screenshot: Error: busy"),
     (2, [Waited 2000; Shot false; Waited 500; Shot false; Waited 500;
          Shot false])).
Proof. reflexivity. Qed.

(* ===================================================================== *)
(** ** EditTool: lines, insert, undo *)
(* ===================================================================== *)

Lemma js_split_char_nonempty sep s : js_split_char sep s <> [].
Proof.
  destruct s as [|c rest]; cbn [js_split_char]; [discriminate |].
  destruct (Ascii.eqb c sep); [discriminate |].
  destruct (js_split_char sep rest); discriminate.
Qed.

Lemma concat_cons2 sep (x y : string) (l : list string) :
  String.concat sep (x :: y :: l) = x +:+ sep +:+ String.concat sep (y :: l).
Proof. reflexivity. Qed.

(** Joining the lines of a content gives the content back. *)
Lemma unlines_lines_of s : unlines (lines_of s) = s.
Proof.
  unfold unlines, lines_of, js_join.
  induction s as [|c rest IH]; [reflexivity |].
  cbn [js_split_char]. destruct (Ascii.eqb_spec c line_feed) as [-> | Hne].
  - destruct (js_split_char line_feed rest) as [|y l] eqn:E.
    + exfalso. exact (js_split_char_nonempty _ _ E).
    + rewrite concat_cons2, IH. reflexivity.
  - destruct (js_split_char line_feed rest) as [|y l] eqn:E.
    + exfalso. exact (js_split_char_nonempty _ _ E).
    + destruct l as [|z l].
      * cbn [String.concat] in *. rewrite IH. reflexivity.
      * rewrite concat_cons2 in *. rewrite append_cons, IH. reflexivity.
Qed.

Lemma lines_have_no_line_feed s :
  Forall (fun line => string_has line_feed line = false) (lines_of s).
Proof.
  unfold lines_of. induction s as [|c rest IH]; cbn [js_split_char].
  - constructor; [reflexivity | constructor].
  - destruct (Ascii.eqb c line_feed) eqn:Ec.
    + constructor; [reflexivity | exact IH].
    + destruct (js_split_char line_feed rest) as [|y l].
      * constructor; [cbn [string_has]; rewrite Ec; reflexivity | constructor].
      * apply Forall_cons in IH as [Hy Hl].
        constructor; [cbn [string_has]; rewrite Ec, Hy; reflexivity | exact Hl].
Qed.

Lemma lines_of_single x :
  string_has line_feed x = false -> lines_of x = [x].
Proof.
  unfold lines_of. induction x as [|c x IH]; [reflexivity |].
  cbn [string_has js_split_char].
  intros H. apply orb_false_iff in H as [Hc Hx]. rewrite Hc, (IH Hx).
  reflexivity.
Qed.

Lemma lines_of_app x rest :
  string_has line_feed x = false ->
  lines_of (x +:+ String line_feed rest) = x :: lines_of rest.
Proof.
  unfold lines_of. induction x as [|c x IH]; intros H.
  - change (EmptyString +:+ String line_feed rest) with (String line_feed rest).
    cbn [js_split_char]. rewrite Ascii.eqb_refl. reflexivity.
  - cbn [string_has] in H. apply orb_false_iff in H as [Hc Hx].
    rewrite append_cons. cbn [js_split_char]. rewrite Hc, (IH Hx).
    reflexivity.
Qed.

(** The lines of joined lines are these lines, when there is at least one
    and none holds a line feed. *)
Lemma lines_of_unlines lines :
  lines <> [] ->
  Forall (fun line => string_has line_feed line = false) lines ->
  lines_of (unlines lines) = lines.
Proof.
  unfold unlines, js_join.
  induction lines as [|x l IH]; intros Hne Hall; [contradiction |].
  apply Forall_cons in Hall as [Hx Hl].
  destruct l as [|y l].
  - cbn [String.concat]. apply lines_of_single. exact Hx.
  - rewrite concat_cons2. change (String line_feed EmptyString +:+ ?s)
      with (String line_feed s).
    rewrite lines_of_app by exact Hx. f_equal. apply IH; [discriminate | exact Hl].
Qed.

Lemma history_of_add {F : Type} p c (s : EditorState F) q :
  history_of q (addToHistory p c s)
  = if String.eqb p q then history_of p s ++ [c] else history_of q s.
Proof.
  unfold history_of, addToHistory. cbn [fileHistory].
  rewrite js_map_get_set. destruct (String.eqb p q); reflexivity.
Qed.

Lemma writeFile_ok {F : Type} (fs : FileSystem F) p c (s : EditorState F) f :
  fs_writeFile fs p c (files s) = (None, f) ->
  writeFile fs p c s = (None, {| files := f; fileHistory := fileHistory s |}).
Proof. intros H. unfold writeFile. rewrite H. reflexivity. Qed.

Lemma writeFile_fails {F : Type} (fs : FileSystem F) p c (s : EditorState F)
    e f :
  fs_writeFile fs p c (files s) = (Some e, f) ->
  writeFile fs p c s
  = (Some (ToolError ("Error writing to file " +:+ p +:+ ": " +:+ e)),
     {| files := f; fileHistory := fileHistory s |}).
Proof. intros H. unfold writeFile. rewrite H. reflexivity. Qed.

(** X16: [insert] rejects, without writing and without touching the
    history, when the file cannot be read and when the line number is
    below 0 or above the number of lines of the file. *)
Theorem insert_rejects {F : Type} (fs : FileSystem F) (filePath : string)
    (insertLine : Z) (newStr : string) (s : EditorState F) :
  (forall error,
     fs_readFile fs filePath (files s) = inr error ->
     insert fs filePath insertLine newStr s
     = (Rejected (ToolError ("Error reading file " +:+ filePath +:+ ": "
                             +:+ error)), s)) /\
  (forall content,
     fs_readFile fs filePath (files s) = inl content ->
     (insertLine < 0 \/ Z.of_nat (length (lines_of content)) < insertLine)%Z ->
     insert fs filePath insertLine newStr s
     = (Rejected
          (ToolError
             ("Invalid 'insert_line' parameter: " +:+ number_string insertLine
              +:+ ". It should be within the range of lines of the file: [0, "
              +:+ number_string (Z.of_nat (length (lines_of content)))
              +:+ "]")), s)).
Proof.
  split.
  - intros error Hread. unfold insert, readFile. rewrite Hread. reflexivity.
  - intros content Hread Hrange. unfold insert, readFile. rewrite Hread.
    cbv zeta. fold (lines_of content).
    replace ((insertLine <? 0)%Z
             || (Z.of_nat (length (lines_of content)) <? insertLine)%Z)
      with true; [reflexivity |].
    symmetry. apply orb_true_iff.
    destruct Hrange as [H | H]; [left; apply Z.ltb_lt | right; apply Z.ltb_lt];
      exact H.
Qed.

Lemma insert_rejects_witness :
  insert memory_fs "/notes.txt" 7 "delta" notes_state
  = (Rejected
       (ToolError
          "Invalid 'insert_line' parameter: 7. It should be within the range of lines of the file: [0, 3]"),
     notes_state).
Proof.
  refine (proj2 (insert_rejects memory_fs "/notes.txt" 7 "delta" notes_state)
                _ eq_refl _).
  right. vm_compute. reflexivity.
Defined.

(** X17: when the file is read, the line number k is within 0 and the
    number of lines, and the write succeeds, [insert] writes a content
    whose lines are the first k lines of the file, the lines of the new
    text, and the remaining lines of the file; it resolves, and the content
    read is put last on the history of the path, the histories of other
    paths being left as they were. *)
Theorem insert_lines {F : Type} (fs : FileSystem F) (filePath : string)
    (insertLine : Z) (newStr : string) (s : EditorState F)
    (content : string) (f : F) :
  let k := Z.to_nat insertLine in
  let newLines :=
    take k (lines_of content) ++ lines_of newStr ++ drop k (lines_of content) in
  fs_readFile fs filePath (files s) = inl content ->
  (0 <= insertLine <= Z.of_nat (length (lines_of content)))%Z ->
  fs_writeFile fs filePath (unlines newLines) (files s) = (None, f) ->
  lines_of (unlines newLines) = newLines /\
  length newLines = length (lines_of content) + length (lines_of newStr) /\
  exists result,
    fst (insert fs filePath insertLine newStr s) = Resolved result /\
    files (snd (insert fs filePath insertLine newStr s)) = f /\
    history_of filePath (snd (insert fs filePath insertLine newStr s))
    = history_of filePath s ++ [content] /\
    forall other, other <> filePath ->
      history_of other (snd (insert fs filePath insertLine newStr s))
      = history_of other s.
Proof.
  intros k newLines Hread Hrange Hwrite.
  split.
  { apply lines_of_unlines.
    - unfold newLines. intros Hnil.
      apply app_eq_nil in Hnil as [_ Hnil].
      apply app_eq_nil in Hnil as [Hnil _].
      exact (js_split_char_nonempty _ _ Hnil).
    - unfold newLines. rewrite !Forall_app.
      pose proof (lines_have_no_line_feed content) as Hc.
      pose proof (lines_have_no_line_feed newStr) as Hn.
      split; [apply Forall_take; exact Hc |].
      split; [exact Hn | apply Forall_drop; exact Hc]. }
  split.
  { unfold newLines. rewrite !length_app, length_take, length_drop.
    subst k. lia. }
  unfold insert, readFile. rewrite Hread. cbv zeta.
  fold (lines_of content). fold (lines_of newStr).
  replace ((insertLine <? 0)%Z
           || (Z.of_nat (length (lines_of content)) <? insertLine)%Z)
    with false
    by (symmetry; apply orb_false_iff; split; apply Z.ltb_ge; lia).
  fold k. fold newLines. unfold unlines in Hwrite.
  rewrite (writeFile_ok fs filePath _ s f Hwrite).
  eexists. split; [reflexivity |]. cbn [snd]. split; [reflexivity |].
  split.
  - rewrite history_of_add, String.eqb_refl. reflexivity.
  - intros other Hne. rewrite history_of_add.
    destruct (String.eqb_spec filePath other); [congruence | reflexivity].
Qed.

Lemma insert_lines_witness :
  lines_of (unlines (take 1 (lines_of (String.concat (String line_feed EmptyString) ["alpha"; "beta"; "gamma"]))
                     ++ lines_of "one and a half"
                     ++ drop 1 (lines_of (String.concat (String line_feed EmptyString) ["alpha"; "beta"; "gamma"]))))
  = ["alpha"; "one and a half"; "beta"; "gamma"]%string.
Proof.
  refine (proj1 (insert_lines memory_fs "/notes.txt" 1 "one and a half"
                   notes_state
                   (String.concat (String line_feed EmptyString)
                      ["alpha"; "beta"; "gamma"]%string)
                   (files (snd (insert memory_fs "/notes.txt" 1
                                  "one and a half" notes_state)))
                   _ _ _)).
  - reflexivity.
  - vm_compute. split; discriminate.
  - vm_compute. reflexivity.
Defined.

(** X18: [undoEdit] on a path without history, or whose history is
    empty, rejects with "No edit history found" and changes nothing. *)
Theorem undo_without_history {F : Type} (fs : FileSystem F)
    (filePath : string) (s : EditorState F) :
  history_of filePath s = [] ->
  undoEdit fs filePath s
  = (Rejected (ToolError ("No edit history found for " +:+ filePath +:+ ".")),
     s).
Proof.
  unfold history_of, undoEdit.
  destruct (js_map_get filePath (fileHistory s)) as [[|c h]|];
    [reflexivity | discriminate | reflexivity].
Qed.

Lemma undo_without_history_witness :
  undoEdit memory_fs "/notes.txt" notes_state
  = (Rejected (ToolError "No edit history found for /notes.txt."), notes_state).
Proof.
  apply (undo_without_history memory_fs "/notes.txt" notes_state).
  reflexivity.
Defined.

Lemma undoEdit_pops {F : Type} (fs : FileSystem F) p (s : EditorState F) h c :
  js_map_get p (fileHistory s) = Some (h ++ [c]) ->
  undoEdit fs p s
  = match writeFile fs p c
            {| files := files s;
               fileHistory := js_map_set p h (fileHistory s) |} with
    | (Some err, s') => (Rejected err, s')
    | (None, s') =>
        (Resolved (CLIResult ("Last edit to " +:+ p +:+ " undone successfully. "
                              +:+ makeOutput c p 1 true)), s')
    end.
Proof.
  intros Hget. unfold undoEdit. rewrite Hget.
  destruct (h ++ [c]) as [|x l] eqn:E.
  - destruct h; discriminate.
  - rewrite <- E, last_last, removelast_last. reflexivity.
Qed.

Lemma history_get_add {F : Type} p c (s : EditorState F) :
  js_map_get p (fileHistory (addToHistory p c s))
  = Some (history_of p s ++ [c]).
Proof.
  unfold addToHistory. cbn [fileHistory].
  rewrite js_map_get_set, String.eqb_refl. reflexivity.
Qed.

(** The state after an edit of [p] that read [c] has been undone. *)
Lemma undo_after_edit {F : Type} (fs : FileSystem F) p c (s1 : EditorState F)
    f2 :
  fs_writeFile fs p c (files (addToHistory p c s1)) = (None, f2) ->
  exists result s2,
    undoEdit fs p (addToHistory p c s1) = (Resolved result, s2) /\
    files s2 = f2 /\
    history_of p s2 = history_of p s1 /\
    (forall other, other <> p -> history_of other s2 = history_of other s1).
Proof.
  intros Hwrite.
  rewrite (undoEdit_pops fs p _ (history_of p s1) c (history_get_add p c s1)).
  unfold writeFile. cbn [addToHistory files]. cbn [addToHistory files] in Hwrite.
  rewrite Hwrite. eexists _, _. split; [reflexivity |].
  split; [reflexivity |]. unfold history_of. cbn [fileHistory addToHistory].
  split.
  - rewrite js_map_get_set, String.eqb_refl. reflexivity.
  - intros other Hne. rewrite !js_map_get_set.
    destruct (String.eqb_spec p other); [congruence | reflexivity].
Qed.

(** X19: [undoEdit] after a successful [insert] writes back the content
    that [insert] had read: when that write succeeds, the history of every
    path is as it was before the insertion, and on a file system where a
    file that was written reads as written, the file reads as before. *)
Theorem insert_undo_round_trip {F : Type} (fs : FileSystem F)
    (filePath : string) (insertLine : Z) (newStr : string)
    (s : EditorState F) (content : string) (f1 f2 : F) :
  let k := Z.to_nat insertLine in
  let newContent :=
    unlines (take k (lines_of content) ++ lines_of newStr
             ++ drop k (lines_of content)) in
  let s1 := snd (insert fs filePath insertLine newStr s) in
  fs_readFile fs filePath (files s) = inl content ->
  (0 <= insertLine <= Z.of_nat (length (lines_of content)))%Z ->
  fs_writeFile fs filePath newContent (files s) = (None, f1) ->
  fs_writeFile fs filePath content f1 = (None, f2) ->
  exists result s2,
    undoEdit fs filePath s1 = (Resolved result, s2) /\
    files s2 = f2 /\
    (forall p, history_of p s2 = history_of p s) /\
    ((forall p c f f', fs_writeFile fs p c f = (None, f') ->
                       fs_readFile fs p f' = inl c) ->
     fs_readFile fs filePath (files s2) = inl content).
Proof.
  intros k newContent s1 Hread Hrange Hwrite1 Hwrite2.
  assert (Hs1 : s1 = addToHistory filePath content
                       {| files := f1; fileHistory := fileHistory s |}).
  { unfold s1, insert, readFile. rewrite Hread. cbv zeta.
    fold (lines_of content). fold (lines_of newStr).
    replace ((insertLine <? 0)%Z
             || (Z.of_nat (length (lines_of content)) <? insertLine)%Z)
      with false
      by (symmetry; apply orb_false_iff; split; apply Z.ltb_ge; lia).
    fold k. unfold newContent, unlines in Hwrite1.
    rewrite (writeFile_ok fs filePath _ s f1 Hwrite1). reflexivity. }
  destruct (undo_after_edit fs filePath content
              {| files := f1; fileHistory := fileHistory s |} f2 Hwrite2)
    as (result & s2 & Hundo & Hfiles & Hsame & Hother).
  exists result, s2. rewrite Hs1. split; [exact Hundo |].
  split; [exact Hfiles |]. split.
  - intros p. destruct (String.eqb_spec p filePath) as [-> | Hne].
    + rewrite Hsame. reflexivity.
    + rewrite (Hother p Hne). reflexivity.
  - intros Hlaw. rewrite Hfiles. apply (Hlaw _ _ _ _ Hwrite2).
Qed.

Lemma memory_fs_reads_written p c f f' :
  fs_writeFile memory_fs p c f = (None, f') ->
  fs_readFile memory_fs p f' = inl c.
Proof.
  cbn [memory_fs fs_writeFile fs_readFile].
  destruct (existsb (String.eqb p) (read_only f)); [discriminate |].
  intros H. inversion H; subst. cbn [contents].
  rewrite js_map_get_set, String.eqb_refl. reflexivity.
Qed.

Lemma insert_undo_round_trip_witness :
  exists result s2,
    undoEdit memory_fs "/notes.txt"
      (snd (insert memory_fs "/notes.txt" 1 "one and a half" notes_state))
    = (Resolved result, s2) /\
    fs_readFile memory_fs "/notes.txt" (files s2)
    = fs_readFile memory_fs "/notes.txt" (files notes_state).
Proof.
  destruct (insert_undo_round_trip memory_fs "/notes.txt" 1 "one and a half"
              notes_state
              (String.concat (String line_feed EmptyString)
                 ["alpha"; "beta"; "gamma"]%string)
              (files (snd (insert memory_fs "/notes.txt" 1 "one and a half"
                             notes_state)))
              (files notes_state))
    as (result & s2 & Hundo & _ & _ & Hread).
  - reflexivity.
  - vm_compute. split; discriminate.
  - vm_compute. reflexivity.
  - vm_compute. reflexivity.
  - exists result, s2. split; [exact Hundo |].
    rewrite (Hread memory_fs_reads_written). reflexivity.
Defined.

(** X20: an [undoEdit] whose write fails rejects with the error of the
    write, and the content it was to write back has nevertheless been
    taken off the history. *)
Theorem failed_undo_consumes_history {F : Type} (fs : FileSystem F)
    (filePath : string) (s : EditorState F) (h : list string) (c error : string)
    (f : F) :
  js_map_get filePath (fileHistory s) = Some (h ++ [c]) ->
  fs_writeFile fs filePath c (files s) = (Some error, f) ->
  fst (undoEdit fs filePath s)
  = Rejected (ToolError ("Error writing to file " +:+ filePath +:+ ": "
                         +:+ error)) /\
  files (snd (undoEdit fs filePath s)) = f /\
  history_of filePath (snd (undoEdit fs filePath s)) = h.
Proof.
  intros Hget Hwrite. rewrite (undoEdit_pops fs filePath s h c Hget).
  unfold writeFile. cbn [files]. rewrite Hwrite. cbn [fst snd files].
  split; [reflexivity |]. split; [reflexivity |].
  unfold history_of. cbn [fileHistory].
  rewrite js_map_get_set, String.eqb_refl. reflexivity.
Qed.

Lemma failed_undo_consumes_history_witness :
  history_of "/etc/hosts"
    (snd (undoEdit memory_fs "/etc/hosts"
            {| files := files notes_state;
               fileHistory := [("/etc/hosts"%string,
                                ["127.0.0.1 localhost"%string])] |}))
  = [].
Proof.
  refine (proj2 (proj2 (failed_undo_consumes_history memory_fs "/etc/hosts"
            {| files := files notes_state;
               fileHistory := [("/etc/hosts"%string,
                                ["127.0.0.1 localhost"%string])] |}
            [] "127.0.0.1 localhost" "Error: EACCES: permission denied"
            (files notes_state) _ _))).
  - reflexivity.
  - reflexivity.
Defined.

(** X21: [create] needs a text that is not empty, so that an empty file
    cannot be created.  After a successful [create], [undo_edit] on the
    same path does not remove the file: it writes the created text again,
    and leaves the histories as they were before the creation. *)
Theorem create_then_undo {F : Type} (fs : FileSystem F) (p text : string)
    (s : EditorState F) (f1 f2 : F) :
  (validatePath fs "create" p (files s) = None ->
   EditTool_execute fs (create_params p EmptyString) s
   = (Rejected (ToolError "Parameter `file_text` is required for command: create"),
      s)) /\
  (validatePath fs "create" p (files s) = None ->
   text <> EmptyString ->
   fs_writeFile fs p text (files s) = (None, f1) ->
   validatePath fs "undo_edit" p f1 = None ->
   fs_writeFile fs p text f1 = (None, f2) ->
   exists s1 result s2,
     EditTool_execute fs (create_params p text) s
     = (Resolved (CLIResult ("File created successfully at: " +:+ p)), s1) /\
     files s1 = f1 /\
     EditTool_execute fs (undo_params p) s1 = (Resolved result, s2) /\
     files s2 = f2 /\
     (forall q, history_of q s2 = history_of q s)).
Proof.
  split.
  - intros Hvalid. unfold EditTool_execute.
    cbn [create_params command path file_text]. rewrite Hvalid. reflexivity.
  - intros Hvalid Htext Hwrite1 Hvalid2 Hwrite2.
    unfold EditTool_execute at 1.
    cbn [create_params command path file_text]. rewrite Hvalid.
    cbn [String.eqb Ascii.eqb Bool.eqb andb]. rewrite (truthy_Some text Htext).
    cbn [field default from_option id].
    rewrite (writeFile_ok fs p text s f1 Hwrite1).
    set (s0 := {| files := f1; fileHistory := fileHistory s |}).
    destruct (undo_after_edit fs p text s0 f2 Hwrite2)
      as (result & s2 & Hundo & Hfiles & Hsame & Hother).
    exists (addToHistory p text s0), result, s2.
    split; [reflexivity |]. split; [reflexivity |].
    split.
    { unfold EditTool_execute. cbn [undo_params command path].
      cbn [addToHistory files]. cbn [s0 files]. rewrite Hvalid2.
      cbn [String.eqb Ascii.eqb Bool.eqb andb]. exact Hundo. }
    split; [exact Hfiles |].
    intros q. destruct (String.eqb_spec q p) as [-> | Hne].
    + rewrite Hsame. reflexivity.
    + rewrite (Hother q Hne). reflexivity.
Qed.

Lemma create_then_undo_witness :
  exists s1 result s2,
    EditTool_execute memory_fs (create_params "/todo.txt" "buy milk") notes_state
    = (Resolved (CLIResult "File created successfully at: /todo.txt"), s1) /\
    EditTool_execute memory_fs (undo_params "/todo.txt") s1
    = (Resolved result, s2) /\
    fs_readFile memory_fs "/todo.txt" (files s2) = inl "buy milk"%string.
Proof.
  destruct (proj2 (create_then_undo memory_fs "/todo.txt" "buy milk"
                     notes_state
                     (files (snd (EditTool_execute memory_fs
                                    (create_params "/todo.txt" "buy milk")
                                    notes_state)))
                     (files (snd (EditTool_execute memory_fs
                                    (create_params "/todo.txt" "buy milk")
                                    notes_state)))))
    as (s1 & result & s2 & Hcreate & _ & Hundo & Hfiles & _).
  - reflexivity.
  - discriminate.
  - vm_compute. reflexivity.
  - reflexivity.
  - vm_compute. reflexivity.
  - exists s1, result, s2. split; [exact Hcreate |]. split; [exact Hundo |].
    rewrite Hfiles. vm_compute. reflexivity.
Defined.

(* ===================================================================== *)
(** ** EditTool: strReplace *)
(* ===================================================================== *)

Lemma starts_with_drop (p l : list ascii) :
  starts_with p l = true -> l = p ++ drop (length p) l.
Proof.
  revert l. induction p as [|x p IH]; intros l H; [reflexivity |].
  destruct l as [|c l]; [discriminate |].
  cbn [starts_with] in H. apply andb_true_iff in H as [Hx Hp].
  apply Ascii.eqb_eq in Hx. subst c. cbn. f_equal. apply IH. exact Hp.
Qed.

Lemma index_of_unfold (p l : list ascii) :
  index_of p l
  = if starts_with p l then Some 0
    else match l with
         | [] => None
         | _ :: rest => option_map S (index_of p rest)
         end.
Proof. destruct l; reflexivity. Qed.

(** The text splits at the index that [indexOf] finds. *)
Lemma index_of_split (p l : list ascii) (i : nat) :
  index_of p l = Some i -> l = take i l ++ p ++ drop (i + length p) l.
Proof.
  revert i. induction l as [|c l IH]; intros i; rewrite index_of_unfold.
  - destruct (starts_with p []) eqn:E; [| discriminate].
    intros [= <-]. apply (starts_with_drop p [] E).
  - destruct (starts_with p (c :: l)) eqn:E.
    + intros [= <-]. apply (starts_with_drop p (c :: l) E).
    + destruct (index_of p l) as [j|]; [| discriminate].
      intros [= <-]. cbn. f_equal. apply IH. reflexivity.
Qed.

Lemma split_pieces_absent (p cur l : list ascii) :
  p <> [] -> index_of p l = None -> split_pieces p 0 cur l = [rev cur ++ l].
Proof.
  intros Hp. revert cur. induction l as [|c l IH]; intros cur;
    rewrite index_of_unfold.
  - intros _. cbn. rewrite app_nil_r. reflexivity.
  - destruct (starts_with p (c :: l)) eqn:E; [discriminate |].
    destruct (index_of p l) as [j|] eqn:Ei; [discriminate |].
    intros _. cbn [split_pieces]. rewrite E, IH by reflexivity.
    cbn [rev]. rewrite <- app_assoc. reflexivity.
Qed.

Lemma split_pieces_nonempty (p : list ascii) (k : nat) (cur l : list ascii) :
  split_pieces p k cur l <> [].
Proof.
  revert k cur. induction l as [|c l IH]; intros k cur; cbn [split_pieces];
    [discriminate |].
  destruct k; [| apply IH].
  destruct (starts_with p (c :: l)); [discriminate | apply IH].
Qed.

Lemma list_of_nonempty_string (s : string) :
  s <> EmptyString -> list_ascii_of_string s <> [].
Proof. destruct s; [contradiction | discriminate]. Qed.

Lemma js_split_length_pos (content old : string) :
  old <> EmptyString -> 1 <= length (js_split content old).
Proof.
  intros Hne. unfold js_split.
  destruct (list_ascii_of_string old) as [|x p] eqn:E.
  - exfalso. exact (list_of_nonempty_string old Hne E).
  - rewrite length_map.
    pose proof (split_pieces_nonempty (x :: p) 0 []
                  (list_ascii_of_string content)) as H.
    destruct (split_pieces (x :: p) 0 [] (list_ascii_of_string content));
      [contradiction | cbn; lia].
Qed.

Lemma js_split_absent (content old : string) :
  old <> EmptyString -> js_includes content old = false ->
  length (js_split content old) = 1.
Proof.
  intros Hne Hinc. unfold js_split, js_includes in *.
  destruct (list_ascii_of_string old) as [|x p] eqn:E.
  - exfalso. exact (list_of_nonempty_string old Hne E).
  - destruct (index_of (x :: p) (list_ascii_of_string content)) eqn:Ei;
      [discriminate |].
    rewrite split_pieces_absent by (try discriminate; exact Ei).
    reflexivity.
Qed.

(** X22: for an [old_str] that is not empty, [strReplace] rejects, without
    writing and without touching the history, unless [old_str] occurs
    exactly once in the file, occurrences being counted from left to right
    without overlap; when it does not occur at all, the error says that it
    did not appear verbatim. *)
Theorem strReplace_needs_one_occurrence {F : Type} (fs : FileSystem F)
    (filePath oldStr newStr : string) (s : EditorState F) (content : string) :
  oldStr <> EmptyString ->
  fs_readFile fs filePath (files s) = inl content ->
  (js_includes content oldStr = false ->
   strReplace fs filePath oldStr newStr s
   = (Rejected
        (ToolError ("No replacement was performed, old_str '" +:+ oldStr
                    +:+ "' did not appear verbatim in " +:+ filePath +:+ ".")),
      s)) /\
  (length (js_split content oldStr) <> 2 ->
   exists message,
     strReplace fs filePath oldStr newStr s = (Rejected (ToolError message), s)).
Proof.
  intros Hne Hread. unfold strReplace, readFile. rewrite Hread. cbv zeta.
  split.
  - intros Hinc. rewrite (js_split_absent content oldStr Hne Hinc).
    reflexivity.
  - intros Hlen. pose proof (js_split_length_pos content oldStr Hne) as Hpos.
    destruct (Z.eqb_spec (Z.of_nat (length (js_split content oldStr)) - 1) 0).
    + eexists. reflexivity.
    + replace (1 <? Z.of_nat (length (js_split content oldStr)) - 1)%Z
        with true by (symmetry; apply Z.ltb_lt; lia).
      eexists. reflexivity.
Qed.

Lemma strReplace_needs_one_occurrence_witness :
  strReplace memory_fs "/notes.txt" "delta" "epsilon" notes_state
  = (Rejected
       (ToolError
          "No replacement was performed, old_str 'delta' did not appear verbatim in /notes.txt."),
     notes_state).
Proof.
  refine (proj1 (strReplace_needs_one_occurrence memory_fs "/notes.txt" "delta"
                   "epsilon" notes_state
                   (String.concat (String line_feed EmptyString)
                      ["alpha"; "beta"; "gamma"]%string) _ _) _).
  - discriminate.
  - reflexivity.
  - vm_compute. reflexivity.
Defined.

Example several_occurrences :
  strReplace memory_fs "/notes.txt" "a" "A" notes_state
  = (Rejected
       (ToolError
          "No replacement was performed. Multiple occurrences of old_str 'a' in lines 1,2,3. Please ensure it is unique"),
     notes_state).
Proof. vm_compute. reflexivity. Qed.

Lemma substitution_plain (t : string) (m b a : list ascii) :
  string_has "$" t = false ->
  substitution (list_ascii_of_string t) m b a = list_ascii_of_string t.
Proof.
  induction t as [|c t IH]; [reflexivity |].
  cbn [string_has list_ascii_of_string substitution].
  intros H. apply orb_false_iff in H as [Hc Ht]. rewrite Hc, (IH Ht).
  reflexivity.
Qed.

(** X23: when [old_str], not empty, occurs exactly once in the file and the
    write succeeds, [strReplace] writes the file with its first occurrence
    replaced: the text before it, the replacement, the text after it.  The
    replacement is [new_str] with [$$], [$&], [$`] and [$'] in it standing
    for a dollar, for [old_str], and for the text before and after it, any
    other dollar sign being left as it is; so it is [new_str] itself when
    [new_str] holds no dollar sign.  The content read is put last on the
    history of the path. *)
Theorem strReplace_replaces_first {F : Type} (fs : FileSystem F)
    (filePath oldStr newStr : string) (s : EditorState F) (content : string)
    (f : F) :
  oldStr <> EmptyString ->
  fs_readFile fs filePath (files s) = inl content ->
  length (js_split content oldStr) = 2 ->
  fs_writeFile fs filePath (js_replace content oldStr newStr) (files s)
  = (None, f) ->
  exists before after,
    content = before +:+ oldStr +:+ after /\
    index_of (list_ascii_of_string oldStr) (list_ascii_of_string content)
    = Some (String.length before) /\
    js_replace content oldStr newStr
    = before
      +:+ string_of_list_ascii
            (substitution (list_ascii_of_string newStr)
               (list_ascii_of_string oldStr) (list_ascii_of_string before)
               (list_ascii_of_string after))
      +:+ after /\
    (string_has "$" newStr = false ->
     js_replace content oldStr newStr = before +:+ newStr +:+ after) /\
    exists result,
      fst (strReplace fs filePath oldStr newStr s) = Resolved result /\
      files (snd (strReplace fs filePath oldStr newStr s)) = f /\
      history_of filePath (snd (strReplace fs filePath oldStr newStr s))
      = history_of filePath s ++ [content].
Proof.
  intros Hne Hread Hlen Hwrite.
  set (l := list_ascii_of_string content).
  set (p := list_ascii_of_string oldStr).
  destruct (index_of p l) as [i|] eqn:Ei.
  2: { assert (Hinc : js_includes content oldStr = false).
       { unfold js_includes. fold l p. rewrite Ei. reflexivity. }
       rewrite (js_split_absent content oldStr Hne Hinc) in Hlen.
       discriminate. }
  pose proof (index_of_split p l i Ei) as Hsplit.
  set (b := take i l) in *. set (a := drop (i + length p) l) in *.
  assert (Hi : i <= length l).
  { destruct (Nat.le_gt_cases i (length l)) as [H | H]; [exact H |].
    apply (f_equal (@length ascii)) in Hsplit.
    rewrite !length_app in Hsplit. unfold b in Hsplit.
    rewrite length_take in Hsplit.
    assert (length p <> 0).
    { unfold p. pose proof (list_of_nonempty_string oldStr Hne).
      destruct (list_ascii_of_string oldStr); [contradiction | discriminate]. }
    lia. }
  assert (Hrep : js_replace content oldStr newStr
                 = string_of_list_ascii
                     (b ++ substitution (list_ascii_of_string newStr) p b a
                        ++ a)).
  { unfold js_replace. fold l p. rewrite Ei. reflexivity. }
  exists (string_of_list_ascii b), (string_of_list_ascii a).
  rewrite !list_ascii_of_string_of_list_ascii.
  split.
  { rewrite <- (string_of_list_ascii_of_string content). fold l.
    rewrite Hsplit at 1. rewrite !string_of_list_app. unfold p.
    rewrite string_of_list_ascii_of_string. reflexivity. }
  split.
  { rewrite length_string_of_list. unfold b. rewrite length_take.
    f_equal. lia. }
  split.
  { rewrite Hrep, !string_of_list_app. reflexivity. }
  split.
  { intros Hplain. rewrite Hrep, (substitution_plain newStr p b a Hplain).
    rewrite !string_of_list_app, string_of_list_ascii_of_string.
    reflexivity. }
  unfold strReplace, readFile. rewrite Hread. cbv zeta. rewrite Hlen.
  change (Z.of_nat 2 - 1)%Z with 1%Z.
  change (1 =? 0)%Z with false. change (1 <? 1)%Z with false. cbv iota.
  rewrite (writeFile_ok fs filePath _ s f Hwrite).
  destruct (js_split content oldStr) as [|first rest]; [discriminate |].
  cbv zeta. cbn [fst snd].
  eexists. split; [reflexivity |]. split; [reflexivity |].
  rewrite history_of_add, String.eqb_refl. reflexivity.
Qed.

Lemma strReplace_replaces_first_witness :
  exists before after,
    String.concat (String line_feed EmptyString) ["alpha"; "beta"; "gamma"]%string
    = before +:+ "beta" +:+ after /\
    js_replace
      (String.concat (String line_feed EmptyString) ["alpha"; "beta"; "gamma"]%string)
      "beta" "BETA"
    = before +:+ "BETA" +:+ after.
Proof.
  destruct (strReplace_replaces_first memory_fs "/notes.txt" "beta" "BETA"
              notes_state
              (String.concat (String line_feed EmptyString)
                 ["alpha"; "beta"; "gamma"]%string)
              (files (snd (strReplace memory_fs "/notes.txt" "beta" "BETA"
                             notes_state))))
    as (before & after & Hcontent & _ & _ & Hplain & _).
  - discriminate.
  - reflexivity.
  - vm_compute. reflexivity.
  - vm_compute. reflexivity.
  - exists before, after. split; [exact Hcontent |].
    apply Hplain. reflexivity.
Defined.

Example replacement_patterns :
  js_replace "total: N" "N" "$$5" = "total: $5"%string /\
  js_replace "say hi" "hi" "$& $&" = "say hi hi"%string /\
  js_replace "a-b" "-" "$'$`" = "abab"%string /\
  js_replace "cost" "cost" "$1 and $" = "$1 and $"%string.
Proof. repeat split; reflexivity. Qed.

Example replace_in_notes :
  fs_readFile memory_fs "/notes.txt"
    (files (snd (strReplace memory_fs "/notes.txt" "beta" "$&!" notes_state)))
  = inl (String.concat (String line_feed EmptyString)
           ["alpha"; "beta!"; "gamma"]%string).
Proof. vm_compute. reflexivity. Qed.
